(** * Sistema de gestion veterinaria (sprint8.py): store and workflows

    A shallow embedding of [src/sprint8.py]: the record classes
    [Propietario], [Mascota], [Consulta], the SQLite-backed
    [DatabaseManager] and the console workflows of [SistemaVeterinaria].

    Conventions of the embedding.
    - Python [str] is [string]; one [ascii] is one character (the text is
      taken to be ASCII, which is where SQLite's LIKE folds case).
    - Python [int] is [Z]; an integer bound to a statement is taken to fit
      SQLite's 64-bit INTEGER.
    - [datetime.date] is the record [date]; Python only builds dates that
      satisfy [fecha_valida].
    - The SQLite engine is not part of the repository.  It is modelled by
      the tables of the schema in [create_tables], one primitive per SQL
      statement that the source hands to [cursor.execute], and [commit].
    - A call that may raise returns [py A]; code that threads the
      connection and the console runs in the monad [M]. *)

From Stdlib Require Import ZArith List String Ascii Bool Lia.
From Stdlib Require Import Sorting.Sorted Permutation.
Import ListNotations.
Open Scope string_scope.
Open Scope Z_scope.

(** ** Text helpers (Python [str] methods used by the program) *)

Module PyStr.

(** Characters for which [str.isspace] holds, within ASCII. *)
Definition isspace (c : ascii) : bool :=
  let n := nat_of_ascii c in
  ((9 <=? n) && (n <=? 13) || (28 <=? n) && (n <=? 32))%nat.

Definition isdigit (c : ascii) : bool :=
  let n := nat_of_ascii c in ((48 <=? n) && (n <=? 57))%nat.

Definition digit_val (c : ascii) : Z := Z.of_nat (nat_of_ascii c) - 48.

(** Whitespace for the parser of [int()]: ASCII text goes to the C
    parser, whose blanks are the characters 9 to 13 and the space. *)
Definition isspace_c (c : ascii) : bool :=
  let n := nat_of_ascii c in
  ((9 <=? n) && (n <=? 13) || (n =? 32))%nat.

Fixpoint lstrip_con (esp : ascii -> bool) (s : string) : string :=
  match s with
  | String c s' => if esp c then lstrip_con esp s' else s
  | EmptyString => EmptyString
  end.

(** Drops the trailing run of blanks. *)
Fixpoint rstrip_con (esp : ascii -> bool) (s : string) : string :=
  match s with
  | EmptyString => EmptyString
  | String c s' =>
      match rstrip_con esp s' with
      | EmptyString => if esp c then EmptyString else String c EmptyString
      | r => String c r
      end
  end.

(** [s.strip()]. *)
Definition strip (s : string) : string := rstrip_con isspace (lstrip_con isspace s).

Definition lower_char (c : ascii) : ascii :=
  let n := nat_of_ascii c in
  if ((65 <=? n) && (n <=? 90))%nat then ascii_of_nat (n + 32) else c.

Fixpoint lower (s : string) : string :=
  match s with
  | EmptyString => EmptyString
  | String c s' => String (lower_char c) (lower s')
  end.

(** Truthiness of a string: [if s:]. *)
Definition truthy (s : string) : bool :=
  match s with EmptyString => false | _ => true end.

(** Digits of a decimal literal, with the single underscores that
    [int()] admits between digits.  [acc] is the value read so far;
    [prev] tells whether the previous character was a digit. *)
Fixpoint int_digits (s : string) (acc : Z) (prev : bool) : option Z :=
  match s with
  | EmptyString => if prev then Some acc else None
  | String c s' =>
      if isdigit c then int_digits s' (10 * acc + digit_val c) true
      else if (Ascii.eqb c "_" && prev)%bool then
        match s' with
        | String d _ => if isdigit d then int_digits s' acc false else None
        | EmptyString => None
        end
      else None
  end.

(** [int(s)] in base 10: surrounding whitespace, an optional sign, then
    decimal digits.  [None] stands for [ValueError]. *)
Definition int (s : string) : option Z :=
  match rstrip_con isspace_c (lstrip_con isspace_c s) with
  | String "-" r => option_map Z.opp (int_digits r 0 false)
  | String "+" r => int_digits r 0 false
  | r => int_digits r 0 false
  end.

(** [s.split(c)] for a one-character separator. *)
Fixpoint split (sep : ascii) (s : string) : list string :=
  match s with
  | EmptyString => [EmptyString]
  | String c s' =>
      if Ascii.eqb c sep then EmptyString :: split sep s'
      else match split sep s' with
           | w :: ws => String c w :: ws
           | [] => [String c EmptyString]
           end
  end.

End PyStr.

(** ** Calendar dates ([datetime.date]) *)

Record date : Type := mkdate { year : Z; month : Z; day : Z }.

Definition es_bisiesto (y : Z) : bool :=
  ((y mod 4 =? 0) && negb (y mod 100 =? 0)) || (y mod 400 =? 0).

Definition dias_del_mes (y m : Z) : Z :=
  if (m =? 2) then (if es_bisiesto y then 29 else 28)
  else if (m =? 4) || (m =? 6) || (m =? 9) || (m =? 11) then 30
  else 31.

(** What the constructor [date(y, m, d)] accepts. *)
Definition fecha_validab (d : date) : bool :=
  (1 <=? year d) && (year d <=? 9999) &&
  (1 <=? month d) && (month d <=? 12) &&
  (1 <=? day d) && (day d <=? dias_del_mes (year d) (month d)).

Definition fecha_valida (d : date) : Prop := fecha_validab d = true.

(** Chronological order, as [date.__lt__] and friends. *)
Definition date_compare (a b : date) : comparison :=
  match year a ?= year b with
  | Eq => match month a ?= month b with
          | Eq => day a ?= day b
          | c => c
          end
  | c => c
  end.

Definition date_geb (a b : date) : bool :=
  match date_compare a b with Lt => false | _ => true end.

Module DateFmt.

Definition digito (n : Z) : ascii := ascii_of_nat (48 + Z.to_nat (n mod 10)).

Definition dos_digitos (n : Z) (k : string) : string :=
  String (digito (n / 10)) (String (digito n) k).

Definition cuatro_digitos (n : Z) (k : string) : string :=
  String (digito (n / 1000)) (String (digito (n / 100)) (dos_digitos n k)).

(** [d.strftime("%Y-%m-%d")]: year, month and day zero-padded to four,
    two and two digits, as the Python documentation gives the directives
    ([%Y]: 0001, 0002, ..., 9999).  A C library that leaves years below
    1000 unpadded is outside this model. *)
Definition strftime_Ymd (d : date) : string :=
  cuatro_digitos (year d) (String "-" (dos_digitos (month d)
    (String "-" (dos_digitos (day d) EmptyString)))).

(** [d.strftime("%d-%m-%Y")]. *)
Definition strftime_dmY (d : date) : string :=
  dos_digitos (day d) (String "-" (dos_digitos (month d)
    (String "-" (cuatro_digitos (year d) EmptyString)))).

(** The field [%Y] of [strptime]: exactly four digits. *)
Definition campo_Y (s : string) : option Z :=
  match s with
  | String a (String b (String c (String d EmptyString))) =>
      if PyStr.isdigit a && PyStr.isdigit b && PyStr.isdigit c && PyStr.isdigit d
      then Some (1000 * PyStr.digit_val a + 100 * PyStr.digit_val b
                 + 10 * PyStr.digit_val c + PyStr.digit_val d)
      else None
  | _ => None
  end.

(** The field [%m]: [1[0-2] | 0[1-9] | [1-9]]. *)
Definition campo_m (s : string) : option Z :=
  match s with
  | String a EmptyString =>
      if PyStr.isdigit a && negb (Ascii.eqb a "0") then Some (PyStr.digit_val a) else None
  | String a (String b EmptyString) =>
      if PyStr.isdigit a && PyStr.isdigit b then
        let v := 10 * PyStr.digit_val a + PyStr.digit_val b in
        if (1 <=? v) && (v <=? 12) then Some v else None
      else None
  | _ => None
  end.

(** The field [%d]: [3[01] | [12]\d | 0[1-9] | [1-9] | " "[1-9]]. *)
Definition campo_d (s : string) : option Z :=
  match s with
  | String a EmptyString =>
      if PyStr.isdigit a && negb (Ascii.eqb a "0") then Some (PyStr.digit_val a) else None
  | String a (String b EmptyString) =>
      if Ascii.eqb a " " then
        (if PyStr.isdigit b && negb (Ascii.eqb b "0") then Some (PyStr.digit_val b) else None)
      else if PyStr.isdigit a && PyStr.isdigit b then
        let v := 10 * PyStr.digit_val a + PyStr.digit_val b in
        if (1 <=? v) && (v <=? 31) then Some v else None
      else None
  | _ => None
  end.

(** The call [date(y, m, d)]: [None] stands for [ValueError]. *)
Definition construir (y m d : Z) : option date :=
  let f := mkdate y m d in if fecha_validab f then Some f else None.

(** [datetime.strptime(s, "%Y-%m-%d").date()]; [None] is [ValueError]. *)
Definition strptime_Ymd (s : string) : option date :=
  match PyStr.split "-" s with
  | [sy; sm; sd] =>
      match campo_Y sy, campo_m sm, campo_d sd with
      | Some y, Some m, Some d => construir y m d
      | _, _, _ => None
      end
  | _ => None
  end.

(** [datetime.strptime(s, "%d-%m-%Y").date()]; [None] is [ValueError]. *)
Definition strptime_dmY (s : string) : option date :=
  match PyStr.split "-" s with
  | [sd; sm; sy] =>
      match campo_Y sy, campo_m sm, campo_d sd with
      | Some y, Some m, Some d => construir y m d
      | _, _, _ => None
      end
  | _ => None
  end.

End DateFmt.

(** ** Record classes *)

(** [class Propietario]: [id] is [None] until the store assigns it. *)
Record Propietario : Type := mkPropietario {
  p_id : option Z;
  p_nombre : string;
  p_telefono : string;
  p_direccion : string
}.

(** [Propietario(nombre, telefono, direccion, id=None)]. *)
Definition Propietario_init (nombre telefono direccion : string) (id : option Z)
  : Propietario := mkPropietario id nombre telefono direccion.

(** [class Mascota]. *)
Record Mascota : Type := mkMascota {
  m_id : option Z;
  m_nombre : string;
  m_especie : string;
  m_raza : string;
  m_edad : Z;
  m_propietario_id : option Z;
  m_propietario_nombre : option string
}.

(** [Mascota(nombre, especie, raza, edad, propietario_id, id=None,
    propietario_nombre=None)]. *)
Definition Mascota_init (nombre especie raza : string) (edad : Z)
    (propietario_id : option Z) (id : option Z) (propietario_nombre : option string) : Mascota :=
  mkMascota id nombre especie raza edad propietario_id propietario_nombre.

(** [class Consulta]: [fecha] is always a [date] once constructed. *)
Record Consulta : Type := mkConsulta {
  c_id : option Z;
  c_fecha : date;
  c_motivo : string;
  c_diagnostico : string;
  c_mascota_id : option Z;
  c_mascota_nombre : option string
}.

(** ** Exceptions and results *)

(** The subclasses of [sqlite3.Error] the engine raises. *)
Inductive sqlite_error : Type :=
| IntegrityError
| OperationalError
| ProgrammingError
| DatabaseError.

Inductive excepcion : Type :=
| Sqlite3Error (e : sqlite_error)
| ValueError
| EOFError.

(** Outcome of a Python call: a value, or a raised exception. *)
Inductive py (A : Type) : Type :=
| Ret (a : A)
| Raise (e : excepcion).
Arguments Ret {A} a.
Arguments Raise {A} e.

(** The argument [fecha] of [Consulta.__init__]: a [date] or a [str]. *)
Inductive fecha_arg : Type :=
| FechaDate (d : date)
| FechaStr (s : string).

(** [Consulta.__init__]: a string is parsed as [%Y-%m-%d]; a string in
    another format raises [ValueError]. *)
Definition Consulta_init (fecha : fecha_arg) (motivo diagnostico : string)
    (mascota_id : option Z) (id : option Z) (mascota_nombre : option string)
  : py Consulta :=
  match fecha with
  | FechaDate d => Ret (mkConsulta id d motivo diagnostico mascota_id mascota_nombre)
  | FechaStr s =>
      match DateFmt.strptime_Ymd s with
      | Some d => Ret (mkConsulta id d motivo diagnostico mascota_id mascota_nombre)
      | None => Raise ValueError
      end
  end.

(** ** The relational store (schema of [create_tables]) *)

(** Row of [propietarios]: [id INTEGER PRIMARY KEY AUTOINCREMENT],
    [nombre TEXT NOT NULL UNIQUE], [telefono TEXT], [direccion TEXT]. *)
Record FilaPropietario : Type := mkFilaPropietario {
  fp_id : Z;
  fp_nombre : string;
  fp_telefono : string;
  fp_direccion : string
}.

(** Row of [mascotas]; [id_propietario] is nullable ([None] is NULL) and
    declared [REFERENCES propietarios(id) ON DELETE CASCADE]. *)
Record FilaMascota : Type := mkFilaMascota {
  fm_id : Z;
  fm_nombre : string;
  fm_especie : string;
  fm_raza : string;
  fm_edad : Z;
  fm_id_propietario : option Z
}.

(** Row of [consultas]; [fecha] is a TEXT column; [id_mascota] is nullable
    and declared [REFERENCES mascotas(id) ON DELETE CASCADE]. *)
Record FilaConsulta : Type := mkFilaConsulta {
  fc_id : Z;
  fc_fecha : string;
  fc_motivo : string;
  fc_diagnostico : string;
  fc_id_mascota : option Z
}.

(** The three tables, each in rowid order, and for each the largest rowid
    it ever held ([sqlite_sequence], kept because of AUTOINCREMENT). *)
Record BaseDatos : Type := mkBaseDatos {
  propietarios : list FilaPropietario;
  mascotas : list FilaMascota;
  consultas : list FilaConsulta;
  seq_propietarios : Z;
  seq_mascotas : Z;
  seq_consultas : Z
}.

Definition base_vacia : BaseDatos := mkBaseDatos [] [] [] 0 0 0.

(** Number of rows held by the store. *)
Definition total_filas (b : BaseDatos) : Z :=
  Z.of_nat (List.length (propietarios b) + List.length (mascotas b)
            + List.length (consultas b)).

(** The keys of the dict [new_data], per table, with the bound value. *)
Inductive asig_propietario : Type :=
| Set_p_nombre (v : string)
| Set_p_telefono (v : string)
| Set_p_direccion (v : string).

Inductive asig_mascota : Type :=
| Set_m_nombre (v : string)
| Set_m_especie (v : string)
| Set_m_raza (v : string)
| Set_m_edad (v : Z)
| Set_m_id_propietario (v : option Z).

(** The value under ['fecha'] may be a [date] or a [str]
    ([update_consulta] tests [isinstance(new_data['fecha'], date)]). *)
Inductive asig_consulta : Type :=
| Set_c_fecha (v : fecha_arg)
| Set_c_motivo (v : string)
| Set_c_diagnostico (v : string).

(** The statements of the source, with their bound parameters.  An id
    parameter is what the caller holds: an [int], or [None], bound as NULL. *)
Inductive sentencia : Type :=
| INSERT_propietarios (nombre telefono direccion : string)
| SELECT_propietarios_LIKE (patron : string)
| SELECT_propietarios_id (id : option Z)
| SELECT_propietarios
| UPDATE_propietarios (set_clause : list asig_propietario) (id : option Z)
| DELETE_propietarios (id : option Z)
| INSERT_mascotas (nombre especie raza : string) (edad : Z) (id_propietario : option Z)
| SELECT_mascotas_JOIN
| SELECT_mascotas_JOIN_id (id : option Z)
| UPDATE_mascotas (set_clause : list asig_mascota) (id : option Z)
| DELETE_mascotas (id : option Z)
| INSERT_consultas (fecha motivo diagnostico : string) (id_mascota : option Z)
| SELECT_consultas_JOIN_mascota (id_mascota : option Z)
| SELECT_consultas_JOIN_id (id : option Z)
| UPDATE_consultas (set_clause : list asig_consulta) (id : option Z)
| DELETE_consultas (id : option Z).

(** ** The connection and the console *)

(** Everything the program acts on.
    - [db]: the tables as the connection reads them.
    - [confirmada]: the tables as of the last successful [commit].
    - [foreign_keys]: the connection's [PRAGMA foreign_keys]; SQLite
      enforces [REFERENCES ... ON DELETE CASCADE] only when it is on.
    - [fallos]: persistence faults still to come; each engine call takes
      the head, and [Some e] makes that call raise [e].  The empty list
      is a run without faults.
    - [sql_log]: the statements handed to [cursor.execute], latest first.
    - [stdin]: the lines the user will type; [input()] at the end of the
      list raises [EOFError]. *)
Record Mundo : Type := mkMundo {
  db : BaseDatos;
  confirmada : BaseDatos;
  foreign_keys : bool;
  fallos : list (option sqlite_error);
  sql_log : list sentencia;
  stdin : list string
}.

Definition con_db (b : BaseDatos) (w : Mundo) : Mundo :=
  mkMundo b (confirmada w) (foreign_keys w) (fallos w) (sql_log w) (stdin w).

Definition con_confirmada (b : BaseDatos) (w : Mundo) : Mundo :=
  mkMundo (db w) b (foreign_keys w) (fallos w) (sql_log w) (stdin w).

Definition con_fallos (f : list (option sqlite_error)) (w : Mundo) : Mundo :=
  mkMundo (db w) (confirmada w) (foreign_keys w) f (sql_log w) (stdin w).

Definition con_sql_log (l : list sentencia) (w : Mundo) : Mundo :=
  mkMundo (db w) (confirmada w) (foreign_keys w) (fallos w) l (stdin w).

Definition con_stdin (l : list string) (w : Mundo) : Mundo :=
  mkMundo (db w) (confirmada w) (foreign_keys w) (fallos w) (sql_log w) l.

(** State and exception monad over [Mundo]. *)
Definition M (A : Type) : Type := Mundo -> py A * Mundo.

Definition ret {A : Type} (a : A) : M A := fun w => (Ret a, w).

Definition bind {A B : Type} (c : M A) (k : A -> M B) : M B :=
  fun w => match c w with
           | (Ret a, w') => k a w'
           | (Raise e, w') => (Raise e, w')
           end.

Definition raise {A : Type} (e : excepcion) : M A := fun w => (Raise e, w).

(** [try: c  except sqlite3.Error: h]: only [sqlite3] errors are caught. *)
Definition try_except_sqlite3 {A : Type} (c : M A) (h : sqlite_error -> M A) : M A :=
  fun w => match c w with
           | (Raise (Sqlite3Error e), w') => h e w'
           | r => r
           end.

Declare Scope monad_scope.
Delimit Scope monad_scope with monad.
Notation "x <- c ;; k" := (bind c (fun x => k))
  (at level 61, c at next level, right associativity) : monad_scope.
Notation "c ;;; k" := (bind c (fun _ => k))
  (at level 61, right associativity) : monad_scope.
Open Scope monad_scope.

(** Lift a call result into the monad. *)
Definition of_py {A : Type} (r : py A) : M A := fun w => (r, w).

(** ** The SQLite engine *)

Module Sqlite3.

(** Largest rowid of a table: 2^63 - 1. *)
Definition MAX_ROWID : Z := 9223372036854775807.

(** Default of [PRAGMA foreign_keys] on a new connection
    (SQLITE_DEFAULT_FOREIGN_KEYS): enforcement is off unless the
    application turns it on. *)
Definition SQLITE_DEFAULT_FOREIGN_KEYS : bool := false.

(** [sqlite3.connect(db_name)]: a connection to the stored tables. *)
Definition connect (almacen : BaseDatos) (faults : list (option sqlite_error))
    (teclado : list string) : Mundo :=
  mkMundo almacen almacen SQLITE_DEFAULT_FOREIGN_KEYS faults [] teclado.

(** Every engine call may be hit by a persistence fault. *)
Definition falla : M unit :=
  fun w => match fallos w with
           | [] => (Ret tt, w)
           | None :: f => (Ret tt, con_fallos f w)
           | Some e :: f => (Raise (Sqlite3Error e), con_fallos f w)
           end.

Definition anotar (s : sentencia) : M unit :=
  fun w => (Ret tt, con_sql_log (s :: sql_log w) w).

Definition leer : M BaseDatos := fun w => (Ret (db w), w).
Definition escribir (b : BaseDatos) : M unit := fun w => (Ret tt, con_db b w).
Definition pragma_foreign_keys : M bool := fun w => (Ret (foreign_keys w), w).
Definition sqlite_raise {A : Type} (e : sqlite_error) : M A := raise (Sqlite3Error e).

(** [conn.commit()]: makes the open transaction durable; a fault rolls
    the transaction back. *)
Definition commit : M unit :=
  fun w => match falla w with
           | (Ret _, w') => (Ret tt, con_confirmada (db w') w')
           | (Raise e, w') => (Raise e, con_db (confirmada w') w')
           end.

(** [cursor.fetchone()] and [cursor.fetchall()] on a result set. *)
Definition fetchone {A : Type} (filas : list A) : M (option A) :=
  falla ;;; ret (hd_error filas).

Definition fetchall {A : Type} (filas : list A) : M (list A) :=
  falla ;;; ret filas.

(** *** Rowid allocation (AUTOINCREMENT) *)

Definition max_rowid (ids : list Z) : Z := fold_right Z.max 0 ids.

(** One more than the largest rowid the table ever held; a table that
    has held [MAX_ROWID] takes no more rows (SQLITE_FULL). *)
Definition nuevo_rowid (seq : Z) (ids : list Z) : option Z :=
  let n := Z.max seq (max_rowid ids) + 1 in
  if n <=? MAX_ROWID then Some n else None.

(** [ref = id] in SQL: NULL equals nothing. *)
Definition ref_eqb (ref : option Z) (id : Z) : bool :=
  match ref with
  | Some r => r =? id
  | None => false
  end.

(** [a = b] in SQL between two nullable integers. *)
Definition ref_igual (a b : option Z) : bool :=
  match b with
  | Some id => ref_eqb a id
  | None => false
  end.

(** *** LIKE *)

Definition nocase_eqb (a b : ascii) : bool :=
  Ascii.eqb (PyStr.lower_char a) (PyStr.lower_char b).

(** [s LIKE pat] with SQLite's defaults: [%] stands for any run of
    characters, [_] for any one character, letters match without
    regard to case, and there is no escape character. *)
Fixpoint like (pat s : string) : bool :=
  match pat with
  | EmptyString => match s with EmptyString => true | _ => false end
  | String c p =>
      if Ascii.eqb c "%" then
        (fix salta (t : string) : bool :=
           like p t || match t with
                       | EmptyString => false
                       | String _ t' => salta t'
                       end) s
      else
        match s with
        | EmptyString => false
        | String d s' => (Ascii.eqb c "_" || nocase_eqb c d) && like p s'
        end
  end.

(** *** propietarios *)

Definition nombre_en (nombre : string) (l : list FilaPropietario) : bool :=
  existsb (fun r => String.eqb (fp_nombre r) nombre) l.

(** [INSERT INTO propietarios (nombre, telefono, direccion) VALUES (?, ?, ?)];
    returns [lastrowid]. *)
Definition execute_INSERT_propietarios (nombre telefono direccion : string) : M Z :=
  anotar (INSERT_propietarios nombre telefono direccion) ;;;
  falla ;;;
  b <- leer ;;
  match nuevo_rowid (seq_propietarios b) (map fp_id (propietarios b)) with
  | None => sqlite_raise OperationalError
  | Some id =>
      if nombre_en nombre (propietarios b) then sqlite_raise IntegrityError
      else
        escribir (mkBaseDatos
                    (propietarios b ++ [mkFilaPropietario id nombre telefono direccion])
                    (mascotas b) (consultas b)
                    id (seq_mascotas b) (seq_consultas b)) ;;;
        ret id
  end.

(** [SELECT id, nombre, telefono, direccion FROM propietarios
     WHERE nombre LIKE ?]. *)
Definition execute_SELECT_propietarios_LIKE (patron : string)
  : M (list FilaPropietario) :=
  anotar (SELECT_propietarios_LIKE patron) ;;;
  falla ;;;
  b <- leer ;;
  ret (filter (fun r => like patron (fp_nombre r)) (propietarios b)).

(** [SELECT id, nombre, telefono, direccion FROM propietarios WHERE id = ?]. *)
Definition execute_SELECT_propietarios_id (id : option Z) : M (list FilaPropietario) :=
  anotar (SELECT_propietarios_id id) ;;;
  falla ;;;
  b <- leer ;;
  ret (filter (fun r => ref_eqb id (fp_id r)) (propietarios b)).

(** [SELECT id, nombre, telefono, direccion FROM propietarios]. *)
Definition execute_SELECT_propietarios : M (list FilaPropietario) :=
  anotar SELECT_propietarios ;;;
  falla ;;;
  b <- leer ;;
  ret (propietarios b).

Definition aplicar_p (r : FilaPropietario) (a : asig_propietario) : FilaPropietario :=
  match a with
  | Set_p_nombre v => mkFilaPropietario (fp_id r) v (fp_telefono r) (fp_direccion r)
  | Set_p_telefono v => mkFilaPropietario (fp_id r) (fp_nombre r) v (fp_direccion r)
  | Set_p_direccion v => mkFilaPropietario (fp_id r) (fp_nombre r) (fp_telefono r) v
  end.

(** No two rows of the list carry the same [nombre] (the UNIQUE index). *)
Fixpoint nombres_unicos (l : list FilaPropietario) : bool :=
  match l with
  | [] => true
  | r :: l' => negb (nombre_en (fp_nombre r) l') && nombres_unicos l'
  end.

(** [UPDATE propietarios SET k1 = ?, ... WHERE id = ?]; returns
    [rowcount].  An empty SET clause is a syntax error; a new [nombre]
    that another row holds violates the UNIQUE constraint. *)
Definition execute_UPDATE_propietarios (set_clause : list asig_propietario) (id : option Z)
  : M Z :=
  anotar (UPDATE_propietarios set_clause id) ;;;
  falla ;;;
  match set_clause with
  | [] => sqlite_raise OperationalError
  | _ =>
      b <- leer ;;
      let afectadas := filter (fun r => ref_eqb id (fp_id r)) (propietarios b) in
      match afectadas with
      | [] => ret 0
      | _ =>
          let nuevas :=
            map (fun r => if ref_eqb id (fp_id r) then fold_left aplicar_p set_clause r else r)
                (propietarios b) in
          if nombres_unicos nuevas then
            escribir (mkBaseDatos nuevas (mascotas b) (consultas b)
                        (seq_propietarios b) (seq_mascotas b) (seq_consultas b)) ;;;
            ret (Z.of_nat (List.length afectadas))
          else sqlite_raise IntegrityError
      end
  end.

(** The pet row references one of the owner rows in [borradas]. *)
Definition mascota_de (borradas : list FilaPropietario) (m : FilaMascota) : bool :=
  existsb (fun p => ref_eqb (fm_id_propietario m) (fp_id p)) borradas.

(** Rows of [consultas] that reference none of the pets in [borradas]. *)
Definition sin_consultas_de (borradas : list FilaMascota) (l : list FilaConsulta)
  : list FilaConsulta :=
  filter (fun c => negb (existsb (fun m => ref_eqb (fc_id_mascota c) (fm_id m)) borradas)) l.

(** [DELETE FROM propietarios WHERE id = ?]; returns [rowcount], which
    counts the rows of [propietarios] only.  With foreign keys enforced
    the delete of an owner row cascades to its pets and their visits. *)
Definition execute_DELETE_propietarios (id : option Z) : M Z :=
  anotar (DELETE_propietarios id) ;;;
  falla ;;;
  b <- leer ;;
  fk <- pragma_foreign_keys ;;
  let borradas := filter (fun r => ref_eqb id (fp_id r)) (propietarios b) in
  let quedan := filter (fun r => negb (ref_eqb id (fp_id r))) (propietarios b) in
  match borradas with
  | [] => ret 0
  | _ =>
      (if fk then
         let mascotas_borradas := filter (mascota_de borradas) (mascotas b) in
         escribir (mkBaseDatos quedan
                     (filter (fun m => negb (mascota_de borradas m)) (mascotas b))
                     (sin_consultas_de mascotas_borradas (consultas b))
                     (seq_propietarios b) (seq_mascotas b) (seq_consultas b))
       else
         escribir (mkBaseDatos quedan (mascotas b) (consultas b)
                     (seq_propietarios b) (seq_mascotas b) (seq_consultas b))) ;;;
      ret (Z.of_nat (List.length borradas))
  end.

(** *** mascotas *)

(** A child key satisfies its foreign key when it is NULL or names a
    parent row. *)
Definition existe_propietario (ref : option Z) (b : BaseDatos) : bool :=
  match ref with
  | Some id => existsb (fun r => fp_id r =? id) (propietarios b)
  | None => true
  end.

Definition existe_mascota (ref : option Z) (b : BaseDatos) : bool :=
  match ref with
  | Some id => existsb (fun r => fm_id r =? id) (mascotas b)
  | None => true
  end.

(** [INSERT INTO mascotas (nombre, especie, raza, edad, id_propietario)
     VALUES (?, ?, ?, ?, ?)]; returns [lastrowid].  With foreign keys
    enforced the owner must exist. *)
Definition execute_INSERT_mascotas (nombre especie raza : string)
    (edad : Z) (id_propietario : option Z) : M Z :=
  anotar (INSERT_mascotas nombre especie raza edad id_propietario) ;;;
  falla ;;;
  b <- leer ;;
  fk <- pragma_foreign_keys ;;
  match nuevo_rowid (seq_mascotas b) (map fm_id (mascotas b)) with
  | None => sqlite_raise OperationalError
  | Some id =>
      if fk && negb (existe_propietario id_propietario b)
      then sqlite_raise IntegrityError
      else
        escribir (mkBaseDatos (propietarios b)
                    (mascotas b ++ [mkFilaMascota id nombre especie raza edad id_propietario])
                    (consultas b)
                    (seq_propietarios b) id (seq_consultas b)) ;;;
        ret id
  end.

(** The rows of [mascotas m JOIN propietarios p ON m.id_propietario = p.id]:
    one per pair of a pet row and an owner row with that id. *)
Definition mascotas_JOIN_propietarios (b : BaseDatos) : list (FilaMascota * string) :=
  flat_map (fun m =>
              map (fun p => (m, fp_nombre p))
                  (filter (fun p => ref_eqb (fm_id_propietario m) (fp_id p)) (propietarios b)))
           (mascotas b).

(** [SELECT m.id, ..., m.id_propietario, p.nombre FROM mascotas m
     JOIN propietarios p ON m.id_propietario = p.id]. *)
Definition execute_SELECT_mascotas_JOIN : M (list (FilaMascota * string)) :=
  anotar SELECT_mascotas_JOIN ;;;
  falla ;;;
  b <- leer ;;
  ret (mascotas_JOIN_propietarios b).

(** The same join, [WHERE m.id = ?]. *)
Definition execute_SELECT_mascotas_JOIN_id (id : option Z) : M (list (FilaMascota * string)) :=
  anotar (SELECT_mascotas_JOIN_id id) ;;;
  falla ;;;
  b <- leer ;;
  ret (filter (fun f => ref_eqb id (fm_id (fst f))) (mascotas_JOIN_propietarios b)).

Definition aplicar_m (r : FilaMascota) (a : asig_mascota) : FilaMascota :=
  match a with
  | Set_m_nombre v =>
      mkFilaMascota (fm_id r) v (fm_especie r) (fm_raza r) (fm_edad r) (fm_id_propietario r)
  | Set_m_especie v =>
      mkFilaMascota (fm_id r) (fm_nombre r) v (fm_raza r) (fm_edad r) (fm_id_propietario r)
  | Set_m_raza v =>
      mkFilaMascota (fm_id r) (fm_nombre r) (fm_especie r) v (fm_edad r) (fm_id_propietario r)
  | Set_m_edad v =>
      mkFilaMascota (fm_id r) (fm_nombre r) (fm_especie r) (fm_raza r) v (fm_id_propietario r)
  | Set_m_id_propietario v =>
      mkFilaMascota (fm_id r) (fm_nombre r) (fm_especie r) (fm_raza r) (fm_edad r) v
  end.

Definition cambia_propietario (set_clause : list asig_mascota) : bool :=
  existsb (fun a => match a with Set_m_id_propietario _ => true | _ => false end)
          set_clause.

(** [UPDATE mascotas SET k1 = ?, ... WHERE id = ?]; returns [rowcount].
    With foreign keys enforced a new [id_propietario] must name an
    owner row. *)
Definition execute_UPDATE_mascotas (set_clause : list asig_mascota) (id : option Z) : M Z :=
  anotar (UPDATE_mascotas set_clause id) ;;;
  falla ;;;
  match set_clause with
  | [] => sqlite_raise OperationalError
  | _ =>
      b <- leer ;;
      fk <- pragma_foreign_keys ;;
      let afectadas := filter (fun r => ref_eqb id (fm_id r)) (mascotas b) in
      match afectadas with
      | [] => ret 0
      | _ =>
          let nuevas :=
            map (fun r => if ref_eqb id (fm_id r) then fold_left aplicar_m set_clause r else r)
                (mascotas b) in
          if fk && cambia_propietario set_clause
             && negb (forallb (fun r => existe_propietario (fm_id_propietario r) b)
                              (filter (fun r => ref_eqb id (fm_id r)) nuevas))
          then sqlite_raise IntegrityError
          else
            escribir (mkBaseDatos (propietarios b) nuevas (consultas b)
                        (seq_propietarios b) (seq_mascotas b) (seq_consultas b)) ;;;
            ret (Z.of_nat (List.length afectadas))
      end
  end.

(** [DELETE FROM mascotas WHERE id = ?]; returns [rowcount].  With
    foreign keys enforced the delete cascades to the pet's visits. *)
Definition execute_DELETE_mascotas (id : option Z) : M Z :=
  anotar (DELETE_mascotas id) ;;;
  falla ;;;
  b <- leer ;;
  fk <- pragma_foreign_keys ;;
  let borradas := filter (fun r => ref_eqb id (fm_id r)) (mascotas b) in
  let quedan := filter (fun r => negb (ref_eqb id (fm_id r))) (mascotas b) in
  match borradas with
  | [] => ret 0
  | _ =>
      escribir (mkBaseDatos (propietarios b) quedan
                  (if fk then sin_consultas_de borradas (consultas b) else consultas b)
                  (seq_propietarios b) (seq_mascotas b) (seq_consultas b)) ;;;
      ret (Z.of_nat (List.length borradas))
  end.

(** *** consultas *)

(** [INSERT INTO consultas (fecha, motivo, diagnostico, id_mascota)
     VALUES (?, ?, ?, ?)]; returns [lastrowid].  With foreign keys
    enforced the pet must exist. *)
Definition execute_INSERT_consultas (fecha motivo diagnostico : string)
    (id_mascota : option Z) : M Z :=
  anotar (INSERT_consultas fecha motivo diagnostico id_mascota) ;;;
  falla ;;;
  b <- leer ;;
  fk <- pragma_foreign_keys ;;
  match nuevo_rowid (seq_consultas b) (map fc_id (consultas b)) with
  | None => sqlite_raise OperationalError
  | Some id =>
      if fk && negb (existe_mascota id_mascota b)
      then sqlite_raise IntegrityError
      else
        escribir (mkBaseDatos (propietarios b) (mascotas b)
                    (consultas b ++ [mkFilaConsulta id fecha motivo diagnostico id_mascota])
                    (seq_propietarios b) (seq_mascotas b) id) ;;;
        ret id
  end.

(** The rows of [consultas c JOIN mascotas m ON c.id_mascota = m.id]. *)
Definition consultas_JOIN_mascotas (b : BaseDatos) : list (FilaConsulta * string) :=
  flat_map (fun c =>
              map (fun m => (c, fm_nombre m))
                  (filter (fun m => ref_eqb (fc_id_mascota c) (fm_id m)) (mascotas b)))
           (consultas b).

(** [ORDER BY c.fecha DESC]: the TEXT column is compared byte by byte
    (BINARY collation); the order among equal keys is the engine's. *)
Fixpoint insertar_desc (x : FilaConsulta * string) (l : list (FilaConsulta * string))
  : list (FilaConsulta * string) :=
  match l with
  | [] => [x]
  | y :: l' =>
      if String.leb (fc_fecha (fst y)) (fc_fecha (fst x)) then x :: l
      else y :: insertar_desc x l'
  end.

Definition ORDER_BY_fecha_DESC (l : list (FilaConsulta * string))
  : list (FilaConsulta * string) :=
  fold_right insertar_desc [] l.

(** [SELECT c.id, c.fecha, ..., c.id_mascota, m.nombre FROM consultas c
     JOIN mascotas m ON c.id_mascota = m.id
     WHERE c.id_mascota = ? ORDER BY c.fecha DESC]. *)
Definition execute_SELECT_consultas_JOIN_mascota (id_mascota : option Z)
  : M (list (FilaConsulta * string)) :=
  anotar (SELECT_consultas_JOIN_mascota id_mascota) ;;;
  falla ;;;
  b <- leer ;;
  ret (ORDER_BY_fecha_DESC
         (filter (fun f => ref_igual (fc_id_mascota (fst f)) id_mascota)
                 (consultas_JOIN_mascotas b))).

(** The same join, [WHERE c.id = ?]. *)
Definition execute_SELECT_consultas_JOIN_id (id : option Z) : M (list (FilaConsulta * string)) :=
  anotar (SELECT_consultas_JOIN_id id) ;;;
  falla ;;;
  b <- leer ;;
  ret (filter (fun f => ref_eqb id (fc_id (fst f))) (consultas_JOIN_mascotas b)).

(** A bound [fecha]: a [str] as it is, a [date] through the module's
    adapter for dates, which writes the ISO form. *)
Definition texto_fecha (v : fecha_arg) : string :=
  match v with
  | FechaStr s => s
  | FechaDate d => DateFmt.strftime_Ymd d
  end.

Definition aplicar_c (r : FilaConsulta) (a : asig_consulta) : FilaConsulta :=
  match a with
  | Set_c_fecha v =>
      mkFilaConsulta (fc_id r) (texto_fecha v) (fc_motivo r) (fc_diagnostico r) (fc_id_mascota r)
  | Set_c_motivo v =>
      mkFilaConsulta (fc_id r) (fc_fecha r) v (fc_diagnostico r) (fc_id_mascota r)
  | Set_c_diagnostico v =>
      mkFilaConsulta (fc_id r) (fc_fecha r) (fc_motivo r) v (fc_id_mascota r)
  end.

(** [UPDATE consultas SET k1 = ?, ... WHERE id = ?]; returns [rowcount]. *)
Definition execute_UPDATE_consultas (set_clause : list asig_consulta) (id : option Z) : M Z :=
  anotar (UPDATE_consultas set_clause id) ;;;
  falla ;;;
  match set_clause with
  | [] => sqlite_raise OperationalError
  | _ =>
      b <- leer ;;
      let afectadas := filter (fun r => ref_eqb id (fc_id r)) (consultas b) in
      match afectadas with
      | [] => ret 0
      | _ =>
          escribir (mkBaseDatos (propietarios b) (mascotas b)
                      (map (fun r => if ref_eqb id (fc_id r)
                                     then fold_left aplicar_c set_clause r else r)
                           (consultas b))
                      (seq_propietarios b) (seq_mascotas b) (seq_consultas b)) ;;;
          ret (Z.of_nat (List.length afectadas))
      end
  end.

(** [DELETE FROM consultas WHERE id = ?]; returns [rowcount]. *)
Definition execute_DELETE_consultas (id : option Z) : M Z :=
  anotar (DELETE_consultas id) ;;;
  falla ;;;
  b <- leer ;;
  let borradas := filter (fun r => ref_eqb id (fc_id r)) (consultas b) in
  match borradas with
  | [] => ret 0
  | _ =>
      escribir (mkBaseDatos (propietarios b) (mascotas b)
                  (filter (fun r => negb (ref_eqb id (fc_id r))) (consultas b))
                  (seq_propietarios b) (seq_mascotas b) (seq_consultas b)) ;;;
      ret (Z.of_nat (List.length borradas))
  end.

End Sqlite3.

(** ** [class DatabaseManager] *)

Module DatabaseManager.
Import Sqlite3.

(** *** CRUD Propietario *)

(** [insert_propietario]: the id is assigned after the commit; both
    handlers ([IntegrityError], then any [sqlite3.Error]) return [None]. *)
Definition insert_propietario (propietario : Propietario) : M (option Propietario) :=
  try_except_sqlite3
    (lastrowid <- execute_INSERT_propietarios (p_nombre propietario)
                    (p_telefono propietario) (p_direccion propietario) ;;
     commit ;;;
     ret (Some (mkPropietario (Some lastrowid) (p_nombre propietario)
                  (p_telefono propietario) (p_direccion propietario))))
    (fun e => match e with
              | IntegrityError => ret None
              | _ => ret None
              end).

Definition propietario_de_fila (row : FilaPropietario) : Propietario :=
  Propietario_init (fp_nombre row) (fp_telefono row) (fp_direccion row)
                   (Some (fp_id row)).

Definition get_propietario_by_nombre (nombre : string) : M (option Propietario) :=
  try_except_sqlite3
    (filas <- execute_SELECT_propietarios_LIKE nombre ;;
     row <- fetchone filas ;;
     match row with
     | Some r => ret (Some (propietario_de_fila r))
     | None => ret None
     end)
    (fun _ => ret None).

Definition get_propietario_by_id (propietario_id : option Z) : M (option Propietario) :=
  try_except_sqlite3
    (filas <- execute_SELECT_propietarios_id propietario_id ;;
     row <- fetchone filas ;;
     match row with
     | Some r => ret (Some (propietario_de_fila r))
     | None => ret None
     end)
    (fun _ => ret None).

Definition get_all_propietarios : M (list Propietario) :=
  try_except_sqlite3
    (filas <- execute_SELECT_propietarios ;;
     rows <- fetchall filas ;;
     ret (map propietario_de_fila rows))
    (fun _ => ret []).

(** [update_propietario]: the SET clause has one [k = ?] per key of
    [new_data]; the result is [rowcount > 0]. *)
Definition update_propietario (propietario_id : option Z)
    (new_data : list asig_propietario) : M bool :=
  try_except_sqlite3
    (rowcount <- execute_UPDATE_propietarios new_data propietario_id ;;
     commit ;;;
     ret (rowcount >? 0))
    (fun _ => ret false).

Definition delete_propietario (propietario_id : option Z) : M bool :=
  try_except_sqlite3
    (rowcount <- execute_DELETE_propietarios propietario_id ;;
     commit ;;;
     ret (rowcount >? 0))
    (fun _ => ret false).

(** *** CRUD Mascota *)

Definition insert_mascota (mascota : Mascota) : M (option Mascota) :=
  try_except_sqlite3
    (lastrowid <- execute_INSERT_mascotas (m_nombre mascota) (m_especie mascota)
                    (m_raza mascota) (m_edad mascota) (m_propietario_id mascota) ;;
     commit ;;;
     ret (Some (mkMascota (Some lastrowid) (m_nombre mascota) (m_especie mascota)
                  (m_raza mascota) (m_edad mascota) (m_propietario_id mascota)
                  (m_propietario_nombre mascota))))
    (fun _ => ret None).

Definition mascota_de_fila (row : FilaMascota * string) : Mascota :=
  Mascota_init (fm_nombre (fst row)) (fm_especie (fst row)) (fm_raza (fst row))
               (fm_edad (fst row)) (fm_id_propietario (fst row))
               (Some (fm_id (fst row))) (Some (snd row)).

Definition get_all_mascotas : M (list Mascota) :=
  try_except_sqlite3
    (filas <- execute_SELECT_mascotas_JOIN ;;
     rows <- fetchall filas ;;
     ret (map mascota_de_fila rows))
    (fun _ => ret []).

Definition get_mascota_by_id (mascota_id : option Z) : M (option Mascota) :=
  try_except_sqlite3
    (filas <- execute_SELECT_mascotas_JOIN_id mascota_id ;;
     row <- fetchone filas ;;
     match row with
     | Some r => ret (Some (mascota_de_fila r))
     | None => ret None
     end)
    (fun _ => ret None).

Definition update_mascota (mascota_id : option Z) (new_data : list asig_mascota)
  : M bool :=
  try_except_sqlite3
    (rowcount <- execute_UPDATE_mascotas new_data mascota_id ;;
     commit ;;;
     ret (rowcount >? 0))
    (fun _ => ret false).

Definition delete_mascota (mascota_id : option Z) : M bool :=
  try_except_sqlite3
    (rowcount <- execute_DELETE_mascotas mascota_id ;;
     commit ;;;
     ret (rowcount >? 0))
    (fun _ => ret false).

(** *** CRUD Consulta *)

(** [insert_consulta]: the date is written as [strftime("%Y-%m-%d")]. *)
Definition insert_consulta (consulta : Consulta) : M (option Consulta) :=
  try_except_sqlite3
    (lastrowid <- execute_INSERT_consultas (DateFmt.strftime_Ymd (c_fecha consulta))
                    (c_motivo consulta) (c_diagnostico consulta)
                    (c_mascota_id consulta) ;;
     commit ;;;
     ret (Some (mkConsulta (Some lastrowid) (c_fecha consulta) (c_motivo consulta)
                  (c_diagnostico consulta) (c_mascota_id consulta)
                  (c_mascota_nombre consulta))))
    (fun _ => ret None).

(** [Consulta(row[1], row[2], row[3], row[4], row[0], row[5])]: the
    stored text goes through [Consulta.__init__], which may raise
    [ValueError]. *)
Definition consulta_de_fila (row : FilaConsulta * string) : py Consulta :=
  Consulta_init (FechaStr (fc_fecha (fst row))) (fc_motivo (fst row))
                (fc_diagnostico (fst row)) (fc_id_mascota (fst row))
                (Some (fc_id (fst row))) (Some (snd row)).

(** The list comprehension [[Consulta(...) for row in rows]]. *)
Fixpoint consultas_de_filas (rows : list (FilaConsulta * string)) : py (list Consulta) :=
  match rows with
  | [] => Ret []
  | row :: rows' =>
      match consulta_de_fila row with
      | Raise e => Raise e
      | Ret c =>
          match consultas_de_filas rows' with
          | Raise e => Raise e
          | Ret cs => Ret (c :: cs)
          end
      end
  end.

Definition get_consultas_by_mascota_id (mascota_id : option Z) : M (list Consulta) :=
  try_except_sqlite3
    (filas <- execute_SELECT_consultas_JOIN_mascota mascota_id ;;
     rows <- fetchall filas ;;
     of_py (consultas_de_filas rows))
    (fun _ => ret []).

Definition get_consulta_by_id (consulta_id : option Z) : M (option Consulta) :=
  try_except_sqlite3
    (filas <- execute_SELECT_consultas_JOIN_id consulta_id ;;
     row <- fetchone filas ;;
     match row with
     | Some r => c <- of_py (consulta_de_fila r) ;; ret (Some c)
     | None => ret None
     end)
    (fun _ => ret None).

(** [if 'fecha' in new_data and isinstance(new_data['fecha'], date):
      new_data['fecha'] = new_data['fecha'].strftime("%Y-%m-%d")]. *)
Definition fecha_a_texto (a : asig_consulta) : asig_consulta :=
  match a with
  | Set_c_fecha (FechaDate d) => Set_c_fecha (FechaStr (DateFmt.strftime_Ymd d))
  | _ => a
  end.

Definition update_consulta (consulta_id : option Z) (new_data : list asig_consulta)
  : M bool :=
  try_except_sqlite3
    (rowcount <- execute_UPDATE_consultas (map fecha_a_texto new_data) consulta_id ;;
     commit ;;;
     ret (rowcount >? 0))
    (fun _ => ret false).

Definition delete_consulta (consulta_id : option Z) : M bool :=
  try_except_sqlite3
    (rowcount <- execute_DELETE_consultas consulta_id ;;
     commit ;;;
     ret (rowcount >? 0))
    (fun _ => ret false).

End DatabaseManager.

(** ** [class UIUtils]: console input *)

Module UIUtils.

(** [input(prompt)]: the next line typed, or [EOFError]. *)
Definition input : M string :=
  fun w => match stdin w with
           | [] => (Raise EOFError, w)
           | l :: resto => (Ret l, con_stdin resto w)
           end.

(** The loop of [get_int_input] over the lines still to come: lines
    that [int()] refuses are skipped. *)
Fixpoint get_int_input_desde (lineas : list string) : py Z * list string :=
  match lineas with
  | [] => (Raise EOFError, [])
  | l :: resto =>
      match PyStr.int l with
      | Some value => (Ret value, resto)
      | None => get_int_input_desde resto
      end
  end.

Definition get_int_input : M Z :=
  fun w => let r := get_int_input_desde (stdin w) in (fst r, con_stdin (snd r) w).

(** The loop of [get_date_input]: each line is stripped and parsed as
    [%d-%m-%Y]; lines that do not parse are skipped. *)
Fixpoint get_date_input_desde (lineas : list string) : py date * list string :=
  match lineas with
  | [] => (Raise EOFError, [])
  | l :: resto =>
      match DateFmt.strptime_dmY (PyStr.strip l) with
      | Some d => (Ret d, resto)
      | None => get_date_input_desde resto
      end
  end.

Definition get_date_input : M date :=
  fun w => let r := get_date_input_desde (stdin w) in (fst r, con_stdin (snd r) w).

(** The loop of [confirm_action]: the first line that is ['s'] or ['n']
    once stripped and lowered decides. *)
Fixpoint confirm_action_desde (lineas : list string) : py bool * list string :=
  match lineas with
  | [] => (Raise EOFError, [])
  | l :: resto =>
      let confirm := PyStr.lower (PyStr.strip l) in
      if String.eqb confirm "s" || String.eqb confirm "n"
      then (Ret (String.eqb confirm "s"), resto)
      else confirm_action_desde resto
  end.

Definition confirm_action : M bool :=
  fun w => let r := confirm_action_desde (stdin w) in (fst r, con_stdin (snd r) w).

End UIUtils.

(** ** [class SistemaVeterinaria]: the workflows of the menu *)

Module SistemaVeterinaria.
Import DatabaseManager.
Local Open Scope list_scope.

Definition _get_propietario_or_create (owner_name : string) : M (option Propietario) :=
  propietario <- get_propietario_by_nombre owner_name ;;
  match propietario with
  | None =>
      crear <- UIUtils.confirm_action ;;
      if crear then
        linea <- UIUtils.input ;;
        let nombre := PyStr.strip linea in
        propietario_existente <- get_propietario_by_nombre nombre ;;
        match propietario_existente with
        | Some existente => ret (Some existente)
        | None =>
            telefono <- UIUtils.input ;;
            direccion <- UIUtils.input ;;
            insert_propietario (Propietario_init nombre telefono direccion None)
        end
      else ret None
  | Some p => ret (Some p)
  end.

Definition _get_mascota : M (option Mascota) :=
  mascota_id <- UIUtils.get_int_input ;;
  get_mascota_by_id (Some mascota_id).

Definition _get_propietario : M (option Propietario) :=
  propietario_id <- UIUtils.get_int_input ;;
  get_propietario_by_id (Some propietario_id).

Definition _get_consulta : M (option Consulta) :=
  consulta_id <- UIUtils.get_int_input ;;
  get_consulta_by_id (Some consulta_id).

(** [edad = get_int_input(...)] followed by
    [while edad < 0: edad = get_int_input(...)], over the lines still
    to come: the first line that is an integer and not negative. *)
Fixpoint leer_edad_desde (lineas : list string) : py Z * list string :=
  match lineas with
  | [] => (Raise EOFError, [])
  | l :: resto =>
      match PyStr.int l with
      | Some edad => if edad <? 0 then leer_edad_desde resto else (Ret edad, resto)
      | None => leer_edad_desde resto
      end
  end.

Definition leer_edad : M Z :=
  fun w => let r := leer_edad_desde (stdin w) in (fst r, con_stdin (snd r) w).

Definition registrar_mascota : M unit :=
  nombre_mascota <- UIUtils.input ;;
  especie_mascota <- UIUtils.input ;;
  raza_mascota <- UIUtils.input ;;
  edad_mascota <- leer_edad ;;
  linea <- UIUtils.input ;;
  let nombre_propietario := PyStr.strip linea in
  propietario <- _get_propietario_or_create nombre_propietario ;;
  match propietario with
  | None => ret tt
  | Some p =>
      insert_mascota (Mascota_init nombre_mascota especie_mascota raza_mascota
                        edad_mascota (p_id p) None None) ;;;
      ret tt
  end.

Definition registrar_consulta : M unit :=
  mascota <- _get_mascota ;;
  match mascota with
  | None => ret tt
  | Some m =>
      fecha <- UIUtils.get_date_input ;;
      motivo <- UIUtils.input ;;
      diagnostico <- UIUtils.input ;;
      consulta <- of_py (Consulta_init (FechaDate fecha) motivo diagnostico
                                       (m_id m) None None) ;;
      insert_consulta consulta ;;;
      ret tt
  end.

Definition listar_propietarios : M unit :=
  get_all_propietarios ;;; ret tt.

Definition listar_mascotas : M unit :=
  get_all_mascotas ;;; ret tt.

Definition historia_clinica : M unit :=
  mascota <- _get_mascota ;;
  match mascota with
  | None => ret tt
  | Some m => get_consultas_by_mascota_id (m_id m) ;;; ret tt
  end.

(** [if existente and existente.id != propietario.id]. *)
Definition otro_id (a b : option Z) : bool :=
  match a, b with
  | Some x, Some y => negb (x =? y)
  | None, None => false
  | _, _ => true
  end.

Definition actualizar_propietario : M unit :=
  propietario <- _get_propietario ;;
  match propietario with
  | None => ret tt
  | Some p =>
      linea <- UIUtils.input ;;
      let nombre := PyStr.strip linea in
      seguir <- (if PyStr.truthy nombre then
                   existente <- get_propietario_by_nombre nombre ;;
                   match existente with
                   | Some e =>
                       if otro_id (p_id e) (p_id p) then ret None
                       else ret (Some [Set_p_nombre nombre])
                   | None => ret (Some [Set_p_nombre nombre])
                   end
                 else ret (Some [])) ;;
      match seguir with
      | None => ret tt
      | Some d1 =>
          linea_t <- UIUtils.input ;;
          let telefono := PyStr.strip linea_t in
          let d2 := if PyStr.truthy telefono then d1 ++ [Set_p_telefono telefono] else d1 in
          linea_d <- UIUtils.input ;;
          let direccion := PyStr.strip linea_d in
          let new_data :=
            if PyStr.truthy direccion then d2 ++ [Set_p_direccion direccion] else d2 in
          match new_data with
          | [] => ret tt
          | _ => update_propietario (p_id p) new_data ;;; ret tt
          end
      end
  end.

(** [int(edad_str)], then [raise ValueError] when negative; the handler
    keeps the current age, so the key ['edad'] is left out. *)
Definition edad_nueva (edad_str : string) : list asig_mascota :=
  match PyStr.int edad_str with
  | Some edad => if edad <? 0 then [] else [Set_m_edad edad]
  | None => []
  end.

Definition actualizar_mascota : M unit :=
  mascota <- _get_mascota ;;
  match mascota with
  | None => ret tt
  | Some m =>
      linea_n <- UIUtils.input ;;
      let nombre := PyStr.strip linea_n in
      let d1 := if PyStr.truthy nombre then [Set_m_nombre nombre] else [] in
      linea_e <- UIUtils.input ;;
      let especie := PyStr.strip linea_e in
      let d2 := if PyStr.truthy especie then d1 ++ [Set_m_especie especie] else d1 in
      linea_r <- UIUtils.input ;;
      let raza := PyStr.strip linea_r in
      let d3 := if PyStr.truthy raza then d2 ++ [Set_m_raza raza] else d2 in
      linea_a <- UIUtils.input ;;
      let edad_str := PyStr.strip linea_a in
      let d4 := if PyStr.truthy edad_str then d3 ++ edad_nueva edad_str else d3 in
      cambiar <- UIUtils.confirm_action ;;
      d5 <- (if cambiar then
               linea_p <- UIUtils.input ;;
               let nombre_nuevo_propietario := PyStr.strip linea_p in
               nuevo_propietario <- get_propietario_by_nombre nombre_nuevo_propietario ;;
               match nuevo_propietario with
               | Some np => ret (d4 ++ [Set_m_id_propietario (p_id np)])
               | None => ret d4
               end
             else ret d4) ;;
      match d5 with
      | [] => ret tt
      | _ => update_mascota (m_id m) d5 ;;; ret tt
      end
  end.

Definition actualizar_consulta : M unit :=
  consulta <- _get_consulta ;;
  match consulta with
  | None => ret tt
  | Some c =>
      linea_f <- UIUtils.input ;;
      let fecha_str := PyStr.strip linea_f in
      let d1 := if PyStr.truthy fecha_str then
                  match DateFmt.strptime_dmY fecha_str with
                  | Some d => [Set_c_fecha (FechaDate d)]
                  | None => []
                  end
                else [] in
      linea_m <- UIUtils.input ;;
      let motivo := PyStr.strip linea_m in
      let d2 := if PyStr.truthy motivo then d1 ++ [Set_c_motivo motivo] else d1 in
      linea_d <- UIUtils.input ;;
      let diagnostico := PyStr.strip linea_d in
      let d3 := if PyStr.truthy diagnostico then d2 ++ [Set_c_diagnostico diagnostico]
                else d2 in
      match d3 with
      | [] => ret tt
      | _ => update_consulta (c_id c) d3 ;;; ret tt
      end
  end.

Definition eliminar_propietario : M unit :=
  propietario <- _get_propietario ;;
  match propietario with
  | None => ret tt
  | Some p =>
      ok <- UIUtils.confirm_action ;;
      if ok then delete_propietario (p_id p) ;;; ret tt else ret tt
  end.

Definition eliminar_mascota : M unit :=
  mascota <- _get_mascota ;;
  match mascota with
  | None => ret tt
  | Some m =>
      ok <- UIUtils.confirm_action ;;
      if ok then delete_mascota (m_id m) ;;; ret tt else ret tt
  end.

Definition eliminar_consulta : M unit :=
  consulta <- _get_consulta ;;
  match consulta with
  | None => ret tt
  | Some c =>
      ok <- UIUtils.confirm_action ;;
      if ok then delete_consulta (c_id c) ;;; ret tt else ret tt
  end.

End SistemaVeterinaria.

(** ** The menu of [main] *)

Inductive opcion : Type :=
| Op1_registrar_mascota
| Op2_registrar_consulta
| Op3_listar_propietarios
| Op4_listar_mascotas
| Op5_historia_clinica
| Op6_actualizar_propietario
| Op7_actualizar_mascota
| Op8_actualizar_consulta
| Op9_eliminar_propietario
| Op10_eliminar_mascota
| Op11_eliminar_consulta.

(** One turn of the loop of [main] for a valid option other than exit. *)
Definition ejecutar (o : opcion) : M unit :=
  match o with
  | Op1_registrar_mascota => SistemaVeterinaria.registrar_mascota
  | Op2_registrar_consulta => SistemaVeterinaria.registrar_consulta
  | Op3_listar_propietarios => SistemaVeterinaria.listar_propietarios
  | Op4_listar_mascotas => SistemaVeterinaria.listar_mascotas
  | Op5_historia_clinica => SistemaVeterinaria.historia_clinica
  | Op6_actualizar_propietario => SistemaVeterinaria.actualizar_propietario
  | Op7_actualizar_mascota => SistemaVeterinaria.actualizar_mascota
  | Op8_actualizar_consulta => SistemaVeterinaria.actualizar_consulta
  | Op9_eliminar_propietario => SistemaVeterinaria.eliminar_propietario
  | Op10_eliminar_mascota => SistemaVeterinaria.eliminar_mascota
  | Op11_eliminar_consulta => SistemaVeterinaria.eliminar_consulta
  end.

(** The states the program can be in: a fresh store, a turn of the menu,
    or a new session on what the previous one committed.  Faults and
    keyboard input are arbitrary. *)
Inductive alcanzable : Mundo -> Prop :=
| alc_inicio : forall faults teclado,
    alcanzable (Sqlite3.connect base_vacia faults teclado)
| alc_turno : forall w o,
    alcanzable w -> alcanzable (snd (ejecutar o w))
| alc_sesion : forall w faults teclado,
    alcanzable w -> alcanzable (Sqlite3.connect (confirmada w) faults teclado).

(** A connection between two store operations: no transaction is open,
    so what it reads is what was last committed. *)
Definition sesion (b : BaseDatos) (fk : bool) (faults : list (option sqlite_error))
    (log : list sentencia) (teclado : list string) : Mundo :=
  mkMundo b b fk faults log teclado.

(** ** Sample stores *)

(** One owner, Ana, and nothing else; no faults, no keyboard input. *)
Definition mundo_ana : Mundo :=
  Sqlite3.connect
    (mkBaseDatos [mkFilaPropietario 1 "Ana" "555-1111" "Calle 1"] [] [] 1 0 0) [] [].


(** One owner row gone, its pet and the pet's visit left behind. *)
Definition base_huerfana : BaseDatos :=
  mkBaseDatos []
    [mkFilaMascota 1 "Rex" "dog" "lab" 3 (Some 1)]
    [mkFilaConsulta 1 "2024-05-01" "checkup" "healthy" (Some 1)]
    1 1 1.

Definition mundo_huerfana : Mundo := Sqlite3.connect base_huerfana [] [].

(** ** The public operations of the store, as one family *)

(** A call of a [DatabaseManager] method with its arguments. *)
Inductive llamada : Type :=
| Ll_insert_propietario (propietario : Propietario)
| Ll_get_propietario_by_nombre (nombre : string)
| Ll_get_propietario_by_id (propietario_id : option Z)
| Ll_get_all_propietarios
| Ll_update_propietario (propietario_id : option Z) (new_data : list asig_propietario)
| Ll_delete_propietario (propietario_id : option Z)
| Ll_insert_mascota (mascota : Mascota)
| Ll_get_all_mascotas
| Ll_get_mascota_by_id (mascota_id : option Z)
| Ll_update_mascota (mascota_id : option Z) (new_data : list asig_mascota)
| Ll_delete_mascota (mascota_id : option Z)
| Ll_insert_consulta (consulta : Consulta)
| Ll_get_consultas_by_mascota_id (mascota_id : option Z)
| Ll_get_consulta_by_id (consulta_id : option Z)
| Ll_update_consulta (consulta_id : option Z) (new_data : list asig_consulta)
| Ll_delete_consulta (consulta_id : option Z).

(** What a call returns. *)
Inductive devuelto : Type :=
| D_propietario (r : option Propietario)
| D_propietarios (r : list Propietario)
| D_mascota (r : option Mascota)
| D_mascotas (r : list Mascota)
| D_consulta (r : option Consulta)
| D_consultas (r : list Consulta)
| D_bool (r : bool).

Definition llamar (c : llamada) : M devuelto :=
  match c with
  | Ll_insert_propietario p =>
      r <- DatabaseManager.insert_propietario p ;; ret (D_propietario r)
  | Ll_get_propietario_by_nombre n =>
      r <- DatabaseManager.get_propietario_by_nombre n ;; ret (D_propietario r)
  | Ll_get_propietario_by_id i =>
      r <- DatabaseManager.get_propietario_by_id i ;; ret (D_propietario r)
  | Ll_get_all_propietarios =>
      r <- DatabaseManager.get_all_propietarios ;; ret (D_propietarios r)
  | Ll_update_propietario i d =>
      r <- DatabaseManager.update_propietario i d ;; ret (D_bool r)
  | Ll_delete_propietario i =>
      r <- DatabaseManager.delete_propietario i ;; ret (D_bool r)
  | Ll_insert_mascota m =>
      r <- DatabaseManager.insert_mascota m ;; ret (D_mascota r)
  | Ll_get_all_mascotas =>
      r <- DatabaseManager.get_all_mascotas ;; ret (D_mascotas r)
  | Ll_get_mascota_by_id i =>
      r <- DatabaseManager.get_mascota_by_id i ;; ret (D_mascota r)
  | Ll_update_mascota i d =>
      r <- DatabaseManager.update_mascota i d ;; ret (D_bool r)
  | Ll_delete_mascota i =>
      r <- DatabaseManager.delete_mascota i ;; ret (D_bool r)
  | Ll_insert_consulta c =>
      r <- DatabaseManager.insert_consulta c ;; ret (D_consulta r)
  | Ll_get_consultas_by_mascota_id i =>
      r <- DatabaseManager.get_consultas_by_mascota_id i ;; ret (D_consultas r)
  | Ll_get_consulta_by_id i =>
      r <- DatabaseManager.get_consulta_by_id i ;; ret (D_consulta r)
  | Ll_update_consulta i d =>
      r <- DatabaseManager.update_consulta i d ;; ret (D_bool r)
  | Ll_delete_consulta i =>
      r <- DatabaseManager.delete_consulta i ;; ret (D_bool r)
  end.

(** The value of the [except sqlite3.Error] branch of each method:
    [None] for inserts and single-record reads, [False] for updates and
    deletes, the empty list for listings. *)
Definition centinela (c : llamada) : devuelto :=
  match c with
  | Ll_insert_propietario _ | Ll_get_propietario_by_nombre _
  | Ll_get_propietario_by_id _ => D_propietario None
  | Ll_get_all_propietarios => D_propietarios []
  | Ll_insert_mascota _ | Ll_get_mascota_by_id _ => D_mascota None
  | Ll_get_all_mascotas => D_mascotas []
  | Ll_insert_consulta _ | Ll_get_consulta_by_id _ => D_consulta None
  | Ll_get_consultas_by_mascota_id _ => D_consultas []
  | Ll_update_propietario _ _ | Ll_delete_propietario _
  | Ll_update_mascota _ _ | Ll_delete_mascota _
  | Ll_update_consulta _ _ | Ll_delete_consulta _ => D_bool false
  end.


(** The store of [mundo_huerfana] with a fault pending on the next engine
    call. *)
Definition mundo_con_fallo : Mundo :=
  Sqlite3.connect base_huerfana [Some OperationalError] [].


(** The scenario of the specification, through the store: owner Ana
    (id 1), her dog Rex (id 1), one visit of Rex on 2024-05-01 (id 1),
    on a fresh connection. *)
Definition mundo_escenario : Mundo :=
  snd (DatabaseManager.insert_consulta
         (mkConsulta None (mkdate 2024 5 1) "checkup" "healthy" (Some 1) None)
    (snd (DatabaseManager.insert_mascota
            (Mascota_init "Rex" "dog" "lab" 3 (Some 1) None None)
    (snd (DatabaseManager.insert_propietario
            (Propietario_init "Ana" "555-1111" "Calle 1" None)
            (Sqlite3.connect base_vacia [] [])))))).

(** The same scenario on a connection that enforces foreign keys. *)
Definition mundo_escenario_fk : Mundo :=
  sesion (db mundo_escenario) true [] [] [].

(** A session at the menu: two pets are registered, with new owners
    ["Zed"] and ["B%"]; owner 1 is renamed ["Bob"]; then owner 1 is
    renamed again, to ["B%"], the name of owner 2. *)
Definition teclado_renombrar : list string :=
  [ "Rex"; "dog"; "lab"; "3"; "Zed"; "s"; "Zed"; "555-0001"; "Calle 1";
    "Tom"; "cat"; "siames"; "2"; "B%"; "s"; "B%"; "555-0002"; "Calle 2";
    "1"; "Bob"; ""; "";
    "1"; "B%"; ""; "" ].

Definition mundo_antes_de_renombrar : Mundo :=
  snd (ejecutar Op6_actualizar_propietario
    (snd (ejecutar Op1_registrar_mascota
    (snd (ejecutar Op1_registrar_mascota
            (Sqlite3.connect base_vacia [] teclado_renombrar)))))).

Definition mundo_renombrado : Mundo :=
  snd (ejecutar Op6_actualizar_propietario mundo_antes_de_renombrar).


(** ** What the workflows keep true of the store *)

(** The text is the ISO form of a date: it parses as [%Y-%m-%d] and is
    what [strftime("%Y-%m-%d")] writes for the date read. *)
Definition es_fecha_iso (s : string) : bool :=
  match DateFmt.strptime_Ymd s with
  | Some d => String.eqb (DateFmt.strftime_Ymd d) s
  | None => false
  end.

(** No pet row has a negative age and every visit row carries an ISO
    date. *)
Definition base_sana (b : BaseDatos) : Prop :=
  (forall m, In m (mascotas b) -> 0 <= fm_edad m) /\
  (forall c, In c (consultas b) -> es_fecha_iso (fc_fecha c) = true).

Definition asig_m_sana (a : asig_mascota) : Prop :=
  match a with
  | Set_m_edad v => 0 <= v
  | _ => True
  end.

Definition asig_c_sana (a : asig_consulta) : Prop :=
  match a with
  | Set_c_fecha (FechaDate d) => fecha_valida d
  | Set_c_fecha (FechaStr s) => es_fecha_iso s = true
  | _ => True
  end.

(** The statement writes no negative age and no date that is not ISO. *)
Definition sentencia_sana (s : sentencia) : Prop :=
  match s with
  | INSERT_mascotas _ _ _ edad _ => 0 <= edad
  | UPDATE_mascotas set_clause _ => Forall asig_m_sana set_clause
  | INSERT_consultas fecha _ _ _ => es_fecha_iso fecha = true
  | UPDATE_consultas set_clause _ => Forall asig_c_sana set_clause
  | _ => True
  end.

Definition mundo_sano (w : Mundo) : Prop :=
  base_sana (db w) /\ base_sana (confirmada w) /\
  foreign_keys w = false /\ Forall sentencia_sana (sql_log w).

(** A computation keeps [mundo_sano], however it ends, and a value it
    returns satisfies [Q]. *)
Definition conserva {A : Type} (c : M A) (Q : A -> Prop) : Prop :=
  forall w, mundo_sano w ->
            mundo_sano (snd (c w)) /\ forall a, fst (c w) = Ret a -> Q a.

(** Descending order of dates between adjacent visits of a listing. *)
Definition fecha_desc (a b : Consulta) : Prop :=
  date_geb (c_fecha a) (c_fecha b) = true.


(** Text order of the [fecha] column between adjacent rows of a result
    set, latest first. *)
Definition texto_desc (x y : FilaConsulta * string) : Prop :=
  String.leb (fc_fecha (fst y)) (fc_fecha (fst x)) = true.

(** A pet is registered at the menu; the first age typed is negative. *)
Definition teclado_registro : list string :=
  [ "Rex"; "dog"; "lab"; "-3"; "3"; "Ana"; "s"; "Ana"; "555-1111"; "Calle 1";
    "1"; "15-10-2024"; "vacuna"; "sano";
    "1"; "01-05-2024"; "checkup"; "healthy" ].

Definition mundo_registro : Mundo :=
  snd (ejecutar Op2_registrar_consulta
    (snd (ejecutar Op2_registrar_consulta
    (snd (ejecutar Op1_registrar_mascota
            (Sqlite3.connect base_vacia [] teclado_registro)))))).


(** The text has neither [%] nor [_], the wildcards of LIKE. *)
Fixpoint sin_comodines (s : string) : bool :=
  match s with
  | EmptyString => true
  | String c s' => negb (Ascii.eqb c "%") && negb (Ascii.eqb c "_") && sin_comodines s'
  end.

Definition es_lectura (c : llamada) : bool :=
  match c with
  | Ll_get_propietario_by_nombre _ | Ll_get_propietario_by_id _ | Ll_get_all_propietarios
  | Ll_get_all_mascotas | Ll_get_mascota_by_id _
  | Ll_get_consultas_by_mascota_id _ | Ll_get_consulta_by_id _ => true
  | _ => false
  end.

(** ** Keys *)

(** No two rows of a table share an id and no two owners a name: the
    PRIMARY KEY and UNIQUE constraints of [create_tables]. *)
Definition claves_unicas (b : BaseDatos) : Prop :=
  NoDup (map fp_id (propietarios b)) /\ NoDup (map fp_nombre (propietarios b)) /\
  NoDup (map fm_id (mascotas b)) /\ NoDup (map fc_id (consultas b)).

(** No row carries an id above the largest id its table ever gave out
    ([sqlite_sequence], kept because of AUTOINCREMENT). *)
Definition secuencia_al_dia (b : BaseDatos) : Prop :=
  (forall r, In r (propietarios b) -> fp_id r <= seq_propietarios b) /\
  (forall r, In r (mascotas b) -> fm_id r <= seq_mascotas b) /\
  (forall r, In r (consultas b) -> fc_id r <= seq_consultas b).

Definition base_ordenada (b : BaseDatos) : Prop :=
  claves_unicas b /\ secuencia_al_dia b.

(** The keys and the sequences are in order in what the connection
    reads and in what was last committed. *)
Definition almacen_ordenado (w : Mundo) : Prop :=
  base_ordenada (db w) /\ base_ordenada (confirmada w).

(** [w'] comes after [w]: the store is still in order if it was, and
    the lines left to type are the last of the lines that were left. *)
Definition sigue (w w' : Mundo) : Prop :=
  (almacen_ordenado w -> almacen_ordenado w') /\
  exists leidas, stdin w = (leidas ++ stdin w')%list.

(** A computation only moves forward, however it ends. *)
Definition avanza {A : Type} (c : M A) : Prop :=
  forall w, sigue w (snd (c w)).

(** ** How a computation may end *)

(** From a healthy store, the only exception that a computation can end
    with is the end of the input. *)
Definition solo_fin_de_entrada {A : Type} (c : M A) : Prop :=
  forall w, mundo_sano w -> forall e, fst (c w) = Raise e -> e = EOFError.

(** ** [main] *)

(** What the line typed at the menu selects.  The line is compared as
    typed ([opcion == '1'] and so on), without [strip]. *)
Inductive seleccion : Type :=
| Sel_opcion (o : opcion)
| Sel_salir
| Sel_invalida.

Definition seleccionar (opcion : string) : seleccion :=
  if String.eqb opcion "1" then Sel_opcion Op1_registrar_mascota
  else if String.eqb opcion "2" then Sel_opcion Op2_registrar_consulta
  else if String.eqb opcion "3" then Sel_opcion Op3_listar_propietarios
  else if String.eqb opcion "4" then Sel_opcion Op4_listar_mascotas
  else if String.eqb opcion "5" then Sel_opcion Op5_historia_clinica
  else if String.eqb opcion "6" then Sel_opcion Op6_actualizar_propietario
  else if String.eqb opcion "7" then Sel_opcion Op7_actualizar_mascota
  else if String.eqb opcion "8" then Sel_opcion Op8_actualizar_consulta
  else if String.eqb opcion "9" then Sel_opcion Op9_eliminar_propietario
  else if String.eqb opcion "10" then Sel_opcion Op10_eliminar_mascota
  else if String.eqb opcion "11" then Sel_opcion Op11_eliminar_consulta
  else if String.eqb opcion "12" then Sel_salir
  else Sel_invalida.

(** How [main] leaves its loop: by option 12 ([break]), or by an
    exception, which [except Exception] catches. *)
Inductive fin_main : Type :=
| Fin_salir
| Fin_excepcion (e : excepcion).

(** The [while True] of [main] on an open connection, for at most
    [turnos] turns; [None] when the turns run out with the loop still
    going. *)
Fixpoint main_bucle (turnos : nat) (w : Mundo) : option (fin_main * Mundo) :=
  match turnos with
  | O => None
  | S n =>
      match UIUtils.input w with
      | (Raise e, w1) => Some (Fin_excepcion e, w1)
      | (Ret opcion, w1) =>
          match seleccionar opcion with
          | Sel_salir => Some (Fin_salir, w1)
          | Sel_invalida => main_bucle n w1
          | Sel_opcion o =>
              match ejecutar o w1 with
              | (Raise e, w2) => Some (Fin_excepcion e, w2)
              | (Ret _, w2) => main_bucle n w2
              end
          end
      end
  end.

(** [close_connection]: closing the connection discards a transaction
    left open. *)
Definition close_connection (w : Mundo) : Mundo := con_db (confirmada w) w.

(** [main] once [SistemaVeterinaria()] has connected: the loop, then
    [finally: close_connection()]. *)
Definition main (turnos : nat) (w : Mundo) : option (fin_main * Mundo) :=
  match main_bucle turnos w with
  | Some (f, w') => Some (f, close_connection w')
  | None => None
  end.

(** A session at the menu: an option that does not exist, a pet
    registered with its new owner, a visit registered, the listing of
    the pets, and the exit. *)
Definition teclado_sesion : list string :=
  [ "0"; "1"; "Rex"; "dog"; "lab"; "3"; "Ana"; "s"; "Ana"; "555-1111"; "Calle 1";
    "2"; "1"; "15-10-2024"; "vacuna"; "sano"; "4"; "12"; "1" ].

Definition mundo_sesion : Mundo := Sqlite3.connect base_vacia [] teclado_sesion.

(** The scenario of the specification as a store: owner Ana (id 1), her
    dog Rex (id 1) and one visit of Rex on 2024-05-01 (id 1). *)
Definition base_escenario : BaseDatos :=
  mkBaseDatos [mkFilaPropietario 1 "Ana" "555-1111" "Calle 1"]
    [mkFilaMascota 1 "Rex" "dog" "lab" 3 (Some 1)]
    [mkFilaConsulta 1 "2024-05-01" "checkup" "healthy" (Some 1)]
    1 1 1.

(** A visit row whose text is not a [%Y-%m-%d] date, for the pet Rex. *)
Definition base_fecha_ilegible : BaseDatos :=
  mkBaseDatos [mkFilaPropietario 1 "Ana" "555-1111" "Calle 1"]
    [mkFilaMascota 1 "Rex" "dog" "lab" 3 (Some 1)]
    [mkFilaConsulta 1 "01/05/2024" "checkup" "healthy" (Some 1)]
    1 1 1.

(** A visit row left behind: its pet row is gone. *)
Definition base_consulta_huerfana : BaseDatos :=
  mkBaseDatos [mkFilaPropietario 1 "Ana" "555-1111" "Calle 1"] []
    [mkFilaConsulta 1 "2024-05-01" "checkup" "healthy" (Some 1)]
    1 1 1.

(** Two owners, Ana (id 1) and Bob (id 2), and nothing else. *)
Definition base_dos_propietarios : BaseDatos :=
  mkBaseDatos [mkFilaPropietario 1 "Ana" "555-1111" "Calle 1";
               mkFilaPropietario 2 "Bob" "555-2222" "Calle 2"] [] [] 2 0 0.

(** * Properties *)

(** ** The engine calls step by step *)

Import Sqlite3 DatabaseManager.

(** A call to [falla] either raises the injected fault or returns; either
    way it only consumes the head of [fallos]. *)
Lemma falla_cases (w : Mundo) :
  (exists e, fallos w = Some e :: tl (fallos w) /\
             falla w = (Raise (Sqlite3Error e), con_fallos (tl (fallos w)) w)) \/
  (falla w = (Ret tt, con_fallos (tl (fallos w)) w) /\
   forall e f, fallos w <> Some e :: f).
Proof.
  unfold falla. destruct (fallos w) as [|[e|] f] eqn:E; simpl.
  - right. split; [|congruence].
    destruct w; simpl in *; subst; reflexivity.
  - left; exists e; split; reflexivity.
  - right; split; [reflexivity | congruence].
Qed.

Lemma falla_sin_fallos (w : Mundo) :
  fallos w = [] -> falla w = (Ret tt, w).
Proof. unfold falla; intros ->; reflexivity. Qed.

Lemma falla_con_fallo (w : Mundo) (e : sqlite_error) (f : list (option sqlite_error)) :
  fallos w = Some e :: f -> falla w = (Raise (Sqlite3Error e), con_fallos f w).
Proof. unfold falla; intros ->; reflexivity. Qed.

Lemma falla_sin_fallo (w : Mundo) (f : list (option sqlite_error)) :
  fallos w = None :: f -> falla w = (Ret tt, con_fallos f w).
Proof. unfold falla; intros ->; reflexivity. Qed.

(** Unfolds the monad of a store operation down to its engine calls. *)
Ltac desplegar :=
  unfold fetchone, fetchall, sqlite_raise, of_py in *;
  unfold try_except_sqlite3, bind, ret, raise,
    anotar, leer, escribir, pragma_foreign_keys, commit in *.

(** Splits on the outcome of the next [falla] in the goal. *)
Ltac caso_falla :=
  match goal with
  | |- context [falla ?w] =>
      let e := fresh "e" in
      let He := fresh "Hfalla" in
      let Hf := fresh "Hfallos" in
      destruct (falla_cases w) as [[e [Hf He]] | [He Hf]];
      rewrite He; cbn [fst snd db confirmada foreign_keys fallos sql_log stdin
                          con_db con_confirmada con_fallos con_sql_log con_stdin]
  end.

(** ** Duplicate owner names (C2) *)

Lemma nombre_en_iff (nombre : string) (l : list FilaPropietario) :
  nombre_en nombre l = true <-> exists r, In r l /\ fp_nombre r = nombre.
Proof.
  unfold nombre_en. rewrite existsb_exists.
  split; intros [r [Hin Hr]]; exists r; split; auto.
  - now apply String.eqb_eq.
  - now apply String.eqb_eq.
Qed.

Lemma insert_propietario_duplicado (w : Mundo) (p : Propietario) (r : FilaPropietario) :
  In r (propietarios (db w)) ->
  fp_nombre r = p_nombre p ->
  fst (insert_propietario p w) = Ret None /\
  db (snd (insert_propietario p w)) = db w /\
  confirmada (snd (insert_propietario p w)) = confirmada w.
Proof.
  intros Hin Hnombre.
  assert (Hdup : nombre_en (p_nombre p) (propietarios (db w)) = true)
    by (apply nombre_en_iff; eauto).
  unfold insert_propietario, execute_INSERT_propietarios. desplegar.
  caso_falla.
  - destruct e; auto.
  - destruct (nuevo_rowid _ _); cbn.
    + rewrite Hdup. cbn. auto.
    + auto.
Qed.

(** C2. Inserting an owner whose name is the name of an owner row already
    in the store returns [None] (no id is assigned) and leaves the tables
    exactly as they were, whatever faults may strike. *)
Theorem C2_insert_propietario_duplicado :
  forall (w : Mundo) (p : Propietario) (r : FilaPropietario),
    In r (propietarios (db w)) ->
    fp_nombre r = p_nombre p ->
    fst (insert_propietario p w) = Ret None /\
    db (snd (insert_propietario p w)) = db w /\
    confirmada (snd (insert_propietario p w)) = confirmada w.
Proof. exact insert_propietario_duplicado. Qed.

Lemma C2_insert_propietario_duplicado_witness :
  fst (insert_propietario (Propietario_init "Ana" "555-2222" "Calle 2" None) mundo_ana)
    = Ret None /\
  db (snd (insert_propietario (Propietario_init "Ana" "555-2222" "Calle 2" None) mundo_ana))
    = db mundo_ana /\
  confirmada (snd (insert_propietario (Propietario_init "Ana" "555-2222" "Calle 2" None)
                     mundo_ana))
    = confirmada mundo_ana.
Proof.
  apply (C2_insert_propietario_duplicado mundo_ana
           (Propietario_init "Ana" "555-2222" "Calle 2" None)
           (mkFilaPropietario 1 "Ana" "555-1111" "Calle 1")).
  - simpl. left. reflexivity.
  - reflexivity.
Defined.

(** ** Updates that touch nothing (C4) *)

Lemma filter_ninguna {A : Type} (f : A -> bool) (l : list A) :
  (forall x, In x l -> f x = false) -> filter f l = [].
Proof.
  induction l as [|x l IH]; intros H; cbn; [reflexivity|].
  rewrite (H x (or_introl eq_refl)). apply IH. intros y Hy. apply H. now right.
Qed.

Lemma update_propietario_vacio (w : Mundo) (id : option Z) :
  fst (update_propietario id [] w) = Ret false /\
  db (snd (update_propietario id [] w)) = db w.
Proof.
  unfold update_propietario, execute_UPDATE_propietarios. desplegar.
  caso_falla; auto.
Qed.

Lemma update_mascota_vacio (w : Mundo) (id : option Z) :
  fst (update_mascota id [] w) = Ret false /\
  db (snd (update_mascota id [] w)) = db w.
Proof.
  unfold update_mascota, execute_UPDATE_mascotas. desplegar.
  caso_falla; auto.
Qed.

Lemma update_consulta_vacio (w : Mundo) (id : option Z) :
  fst (update_consulta id [] w) = Ret false /\
  db (snd (update_consulta id [] w)) = db w.
Proof.
  unfold update_consulta, execute_UPDATE_consultas. desplegar. cbn [map].
  caso_falla; auto.
Qed.

Lemma update_propietario_sin_fila (b : BaseDatos) (fk : bool)
    (f : list (option sqlite_error)) (log : list sentencia) (t : list string)
    (i : Z) (new_data : list asig_propietario) :
  (forall r, In r (propietarios b) -> fp_id r <> i) ->
  fst (update_propietario (Some i) new_data (sesion b fk f log t)) = Ret false /\
  db (snd (update_propietario (Some i) new_data (sesion b fk f log t))) = b.
Proof.
  intros Hno.
  unfold update_propietario, execute_UPDATE_propietarios. desplegar.
  caso_falla; [auto|].
  destruct new_data as [|a nd]; [auto|].
  rewrite filter_ninguna.
  - cbn. caso_falla; auto.
  - intros r Hr. cbn. apply Z.eqb_neq. intro E. apply (Hno r Hr). auto.
Qed.

Lemma update_mascota_sin_fila (b : BaseDatos) (fk : bool)
    (f : list (option sqlite_error)) (log : list sentencia) (t : list string)
    (i : Z) (new_data : list asig_mascota) :
  (forall r, In r (mascotas b) -> fm_id r <> i) ->
  fst (update_mascota (Some i) new_data (sesion b fk f log t)) = Ret false /\
  db (snd (update_mascota (Some i) new_data (sesion b fk f log t))) = b.
Proof.
  intros Hno.
  unfold update_mascota, execute_UPDATE_mascotas. desplegar.
  caso_falla; [auto|].
  destruct new_data as [|a nd]; [auto|].
  rewrite filter_ninguna.
  - cbn. caso_falla; auto.
  - intros r Hr. cbn. apply Z.eqb_neq. intro E. apply (Hno r Hr). auto.
Qed.

Lemma update_consulta_sin_fila (b : BaseDatos) (fk : bool)
    (f : list (option sqlite_error)) (log : list sentencia) (t : list string)
    (i : Z) (new_data : list asig_consulta) :
  (forall r, In r (consultas b) -> fc_id r <> i) ->
  fst (update_consulta (Some i) new_data (sesion b fk f log t)) = Ret false /\
  db (snd (update_consulta (Some i) new_data (sesion b fk f log t))) = b.
Proof.
  intros Hno.
  unfold update_consulta, execute_UPDATE_consultas. desplegar.
  caso_falla; [auto|].
  destruct new_data as [|a nd]; [cbn; auto|]. cbn [map].
  rewrite filter_ninguna.
  - cbn. caso_falla; auto.
  - intros r Hr. cbn. apply Z.eqb_neq. intro E. apply (Hno r Hr). auto.
Qed.



(** ** Pet reads join the owners table (C9) *)

Lemma ref_eqb_true (ref : option Z) (id : Z) :
  ref_eqb ref id = true <-> ref = Some id.
Proof.
  destruct ref as [r|]; cbn.
  - rewrite Z.eqb_eq. split; congruence.
  - split; discriminate.
Qed.

(** The rows of the join: a pet row paired with the name of an owner row
    whose id the pet references. *)
Lemma in_mascotas_JOIN (b : BaseDatos) (m : FilaMascota) (n : string) :
  In (m, n) (mascotas_JOIN_propietarios b) <->
  In m (mascotas b) /\
  exists p, In p (propietarios b) /\ fm_id_propietario m = Some (fp_id p) /\ n = fp_nombre p.
Proof.
  unfold mascotas_JOIN_propietarios. rewrite in_flat_map. split.
  - intros [m' [Hm' Hin]]. apply in_map_iff in Hin. destruct Hin as [p [Heq Hp]].
    inversion Heq; subst. apply filter_In in Hp. destruct Hp as [Hp Href].
    apply ref_eqb_true in Href. split; [assumption|]. exists p. auto.
  - intros [Hm [p [Hp [Href ->]]]]. exists m. split; [assumption|].
    apply in_map_iff. exists p. split; [reflexivity|].
    apply filter_In. split; [assumption|]. now apply ref_eqb_true.
Qed.

Lemma NoDup_map_inj {A B : Type} (f : A -> B) (l : list A) (x y : A) :
  NoDup (map f l) -> In x l -> In y l -> f x = f y -> x = y.
Proof.
  induction l as [|a l IH]; cbn; intros Hnd Hx Hy Hf; [contradiction|].
  inversion Hnd as [|? ? Hnotin Hnd']; subst.
  destruct Hx as [-> | Hx], Hy as [-> | Hy]; auto.
  - exfalso. apply Hnotin. rewrite Hf. now apply in_map.
  - exfalso. apply Hnotin. rewrite <- Hf. now apply in_map.
Qed.

(** A pet row without an owner row contributes nothing to the join. *)
Lemma huerfana_fuera_del_JOIN (b : BaseDatos) (m : FilaMascota) :
  In m (mascotas b) ->
  NoDup (map fm_id (mascotas b)) ->
  (forall p, In p (propietarios b) -> fm_id_propietario m <> Some (fp_id p)) ->
  forall f, In f (mascotas_JOIN_propietarios b) -> fm_id (fst f) <> fm_id m.
Proof.
  intros Hm Hnd Hhuerfana [m' n] Hin Hid. cbn in Hid.
  apply in_mascotas_JOIN in Hin. destruct Hin as [Hm' [p [Hp [Href _]]]].
  assert (m' = m) by (eapply NoDup_map_inj; eauto). subst m'.
  exact (Hhuerfana p Hp Href).
Qed.

(** C9. A pet row whose [id_propietario] matches no owner row is still in
    the table, yet [get_mascota_by_id] on its id returns [None] and
    [get_all_mascotas] returns a list without it; the reads change
    nothing.  The ids of the pet rows are distinct (PRIMARY KEY). *)
Theorem C9_mascota_huerfana_invisible :
  forall (w : Mundo) (m : FilaMascota),
    In m (mascotas (db w)) ->
    NoDup (map fm_id (mascotas (db w))) ->
    (forall p, In p (propietarios (db w)) -> fm_id_propietario m <> Some (fp_id p)) ->
    fst (get_mascota_by_id (Some (fm_id m)) w) = Ret None /\
    (exists l, fst (get_all_mascotas w) = Ret l /\
               forall x, In x l -> m_id x <> Some (fm_id m)) /\
    In m (mascotas (db (snd (get_mascota_by_id (Some (fm_id m)) w)))) /\
    In m (mascotas (db (snd (get_all_mascotas w)))).
Proof.
  intros w m Hm Hnd Hhuerfana.
  pose proof (huerfana_fuera_del_JOIN (db w) m Hm Hnd Hhuerfana) as Hjoin.
  assert (Hfiltro : filter (fun f => ref_eqb (Some (fm_id m)) (fm_id (fst f)))
                           (mascotas_JOIN_propietarios (db w)) = []).
  { apply filter_ninguna. intros f Hf. cbn. apply Z.eqb_neq.
    intro E. apply (Hjoin f Hf). auto. }
  repeat split.
  - unfold get_mascota_by_id, execute_SELECT_mascotas_JOIN_id. desplegar.
    caso_falla; [reflexivity|]. rewrite Hfiltro. caso_falla; reflexivity.
  - unfold get_all_mascotas, execute_SELECT_mascotas_JOIN. desplegar.
    caso_falla; [exists []; split; [reflexivity | intros x []]|].
    caso_falla; [exists []; split; [reflexivity | intros x []]|].
    eexists; split; [reflexivity|].
    intros x Hx. apply in_map_iff in Hx. destruct Hx as [f [<- Hf]].
    cbn. intro E. apply (Hjoin f Hf). congruence.
  - unfold get_mascota_by_id, execute_SELECT_mascotas_JOIN_id. desplegar.
    caso_falla; [assumption|]. rewrite Hfiltro. caso_falla; assumption.
  - unfold get_all_mascotas, execute_SELECT_mascotas_JOIN. desplegar.
    caso_falla; [assumption|]. caso_falla; assumption.
Qed.

Lemma C9_mascota_huerfana_invisible_witness :
  fst (get_mascota_by_id (Some 1) mundo_huerfana) = Ret None /\
  (exists l, fst (get_all_mascotas mundo_huerfana) = Ret l /\
             forall x, In x l -> m_id x <> Some 1) /\
  In (mkFilaMascota 1 "Rex" "dog" "lab" 3 (Some 1))
     (mascotas (db (snd (get_mascota_by_id (Some 1) mundo_huerfana)))) /\
  In (mkFilaMascota 1 "Rex" "dog" "lab" 3 (Some 1))
     (mascotas (db (snd (get_all_mascotas mundo_huerfana)))).
Proof.
  apply (C9_mascota_huerfana_invisible mundo_huerfana
           (mkFilaMascota 1 "Rex" "dog" "lab" 3 (Some 1))).
  - simpl. left. reflexivity.
  - simpl. constructor; [simpl; intros [] | constructor].
  - simpl. intros p [].
Defined.

(** ** Persistence faults never leave the store (C10) *)

(** Runs a store operation on an explicit world, case by case. *)
Ltac por_casos :=
  repeat (cbn;
          match goal with
          | |- context [match ?x with _ => _ end] =>
              lazymatch x with
              | match _ with _ => _ end => fail
              | (match _ with _ => _ end) _ => fail
              | _ => destruct x eqn:?
              end
          end);
  cbn; try reflexivity; try discriminate; try congruence.

Ltac abrir_llamada :=
  unfold llamar, insert_propietario, get_propietario_by_nombre, get_propietario_by_id,
    get_all_propietarios, update_propietario, delete_propietario, insert_mascota,
    get_all_mascotas, get_mascota_by_id, update_mascota, delete_mascota,
    insert_consulta, get_consultas_by_mascota_id, get_consulta_by_id,
    update_consulta, delete_consulta,
    execute_INSERT_propietarios, execute_SELECT_propietarios_LIKE,
    execute_SELECT_propietarios_id, execute_SELECT_propietarios,
    execute_UPDATE_propietarios, execute_DELETE_propietarios,
    execute_INSERT_mascotas, execute_SELECT_mascotas_JOIN,
    execute_SELECT_mascotas_JOIN_id, execute_UPDATE_mascotas, execute_DELETE_mascotas,
    execute_INSERT_consultas, execute_SELECT_consultas_JOIN_mascota,
    execute_SELECT_consultas_JOIN_id, execute_UPDATE_consultas,
    execute_DELETE_consultas;
  desplegar; unfold falla.

(** No store operation lets a [sqlite3.Error] through. *)
Lemma llamar_no_propaga (c : llamada) (w : Mundo) (e : sqlite_error) :
  fst (llamar c w) <> Raise (Sqlite3Error e).
Proof.
  destruct w as [b cf fk fl lg tc].
  destruct c; abrir_llamada; por_casos.
Qed.

(** A fault on the first engine call of an operation ([execute]). *)
Lemma llamar_fallo_execute (c : llamada) (w : Mundo) (e : sqlite_error)
    (f : list (option sqlite_error)) :
  fallos w = Some e :: f -> fst (llamar c w) = Ret (centinela c).
Proof.
  destruct w as [b cf fk fl lg tc]. cbn. intros ->.
  destruct c; abrir_llamada; por_casos.
Qed.

(** A fault on the second engine call ([commit], [fetchone], [fetchall]). *)
Lemma llamar_fallo_segundo (c : llamada) (w : Mundo) (e : sqlite_error)
    (f : list (option sqlite_error)) :
  fallos w = None :: Some e :: f -> fst (llamar c w) = Ret (centinela c).
Proof.
  destruct w as [b cf fk fl lg tc]. cbn. intros ->.
  destruct c; abrir_llamada; por_casos.
Qed.

(** The reads of owners and pets and every write always return. *)
Lemma llamar_devuelve (c : llamada) (w : Mundo) :
  (forall i, c <> Ll_get_consultas_by_mascota_id i) ->
  (forall i, c <> Ll_get_consulta_by_id i) ->
  exists r, fst (llamar c w) = Ret r.
Proof.
  intros H1 H2.
  destruct w as [b cf fk fl lg tc].
  destruct c; try (exfalso; eapply H1; reflexivity); try (exfalso; eapply H2; reflexivity);
    abrir_llamada; por_casos; eexists; reflexivity.
Qed.

(** C10. No store operation propagates a [sqlite3.Error]: when a
    persistence fault strikes the [execute], or the [commit] or fetch that
    follows it, the operation returns its sentinel ([None], [False] or
    [[]]).  So a lookup of an id that no row carries, an insert of a
    duplicate owner name and a faulted call all give the same value. *)
Theorem C10_fallos_devuelven_centinela :
  forall (c : llamada) (w : Mundo),
    (forall e, fst (llamar c w) <> Raise (Sqlite3Error e)) /\
    (forall e f, fallos w = Some e :: f -> fst (llamar c w) = Ret (centinela c)) /\
    (forall e f, fallos w = None :: Some e :: f ->
                 fst (llamar c w) = Ret (centinela c)) /\
    (forall (w' : Mundo) (i : Z) e f,
        (forall r, In r (propietarios (db w')) -> fp_id r <> i) ->
        fallos w = Some e :: f ->
        fst (get_propietario_by_id (Some i) w') = fst (get_propietario_by_id (Some i) w)) /\
    (forall (w' : Mundo) (p : Propietario) (r : FilaPropietario) e f,
        In r (propietarios (db w')) -> fp_nombre r = p_nombre p ->
        fallos w = Some e :: f ->
        fst (insert_propietario p w') = fst (insert_propietario p w)).
Proof.
  intros c w.
  split; [apply llamar_no_propaga|].
  split; [apply llamar_fallo_execute|].
  split; [apply llamar_fallo_segundo|].
  split.
  - intros w' i e f Hno Hf.
    assert (Hw : fst (get_propietario_by_id (Some i) w) = Ret None).
    { destruct w as [b cf fk fl lg tc]. cbn in Hf. subst fl.
      abrir_llamada; por_casos. }
    rewrite Hw.
    unfold get_propietario_by_id, execute_SELECT_propietarios_id. desplegar.
    caso_falla; [reflexivity|].
    rewrite filter_ninguna.
    + caso_falla; reflexivity.
    + intros r Hr. cbn. apply Z.eqb_neq. intro E. apply (Hno r Hr). auto.
  - intros w' p r e f Hin Hn Hf.
    rewrite (proj1 (insert_propietario_duplicado w' p r Hin Hn)).
    destruct w as [b cf fk fl lg tc]. cbn in Hf. subst fl.
    abrir_llamada; por_casos.
Qed.

Lemma C10_fallos_devuelven_centinela_witness :
  fst (llamar (Ll_delete_consulta (Some 1)) mundo_con_fallo) = Ret (D_bool false) /\
  fst (get_propietario_by_id (Some 1) mundo_huerfana)
    = fst (get_propietario_by_id (Some 1) mundo_con_fallo).
Proof.
  destruct (C10_fallos_devuelven_centinela (Ll_delete_consulta (Some 1)) mundo_con_fallo)
    as (_ & Hexecute & _ & Hnotfound & _).
  split.
  - apply (Hexecute OperationalError []). reflexivity.
  - apply (Hnotfound mundo_huerfana 1 OperationalError []).
    + simpl. intros r [].
    + reflexivity.
Defined.

(** ** Deleting an owner (C1) *)

(** Without foreign-key enforcement the delete of an owner touches the
    owners table only. *)
Lemma delete_propietario_sin_cascada (b : BaseDatos) (f : list (option sqlite_error))
    (log : list sentencia) (t : list string) (id : option Z) :
  mascotas (db (snd (delete_propietario id (sesion b false f log t)))) = mascotas b /\
  consultas (db (snd (delete_propietario id (sesion b false f log t)))) = consultas b.
Proof.
  unfold delete_propietario, execute_DELETE_propietarios. desplegar.
  caso_falla; [auto|].
  destruct (filter _ _); cbn; caso_falla; auto.
Qed.

(** A connection opened by the program never enforces foreign keys: no
    engine call of the source changes the pragma. *)
Lemma connect_sin_foreign_keys (b : BaseDatos) (f : list (option sqlite_error))
    (t : list string) :
  foreign_keys (connect b f t) = false.
Proof. reflexivity. Qed.

(** C1, on the code. In the scenario of the specification (owner 1 with
    one pet that has one visit) [delete_propietario] returns [True] and
    removes one row, not 1 + 1 + 1: the pet row and the visit row stay,
    the pet is no longer found by id (its read joins the owners), and the
    visit is still found by id. *)
Theorem C1_delete_propietario_no_cascada :
  foreign_keys mundo_escenario = false /\
  fst (delete_propietario (Some 1) mundo_escenario) = Ret true /\
  total_filas (db mundo_escenario)
    - total_filas (db (snd (delete_propietario (Some 1) mundo_escenario))) = 1 /\
  mascotas (db (snd (delete_propietario (Some 1) mundo_escenario)))
    = [mkFilaMascota 1 "Rex" "dog" "lab" 3 (Some 1)] /\
  fst (get_mascota_by_id (Some 1) (snd (delete_propietario (Some 1) mundo_escenario)))
    = Ret None /\
  fst (get_consulta_by_id (Some 1) (snd (delete_propietario (Some 1) mundo_escenario)))
    = Ret (Some (mkConsulta (Some 1) (mkdate 2024 5 1) "checkup" "healthy"
                            (Some 1) (Some "Rex"))).
Proof. vm_compute. repeat split; reflexivity. Qed.

(** The same delete on a connection that enforces foreign keys removes
    the three rows, and neither the pet nor the visit is found. *)
Lemma delete_propietario_con_foreign_keys :
  fst (delete_propietario (Some 1) mundo_escenario_fk) = Ret true /\
  total_filas (db mundo_escenario_fk)
    - total_filas (db (snd (delete_propietario (Some 1) mundo_escenario_fk))) = 3 /\
  fst (get_mascota_by_id (Some 1) (snd (delete_propietario (Some 1) mundo_escenario_fk)))
    = Ret None /\
  fst (get_consulta_by_id (Some 1) (snd (delete_propietario (Some 1) mundo_escenario_fk)))
    = Ret None.
Proof. vm_compute. repeat split; reflexivity. Qed.

(** ** Lookup by name (C5) *)

(** C5, on the code. With the single owner ["Ana"] in the store, the
    lookup of ["A%"] returns Ana, although no stored name equals ["A%"],
    with or without regard to letter case. *)
Theorem C5_get_propietario_by_nombre_comodin :
  fst (get_propietario_by_nombre "A%" mundo_ana)
    = Ret (Some (mkPropietario (Some 1) "Ana" "555-1111" "Calle 1")) /\
  (forall r, In r (propietarios (db mundo_ana)) ->
             PyStr.lower (fp_nombre r) <> PyStr.lower "A%").
Proof.
  split; [reflexivity|].
  intros r [<- | []]. vm_compute. discriminate.
Qed.

(** ** Renaming an owner (C3) *)

(** C3, on the code. At the menu, after owners ["Bob"] (id 1) and ["B%"]
    (id 2) exist, renaming owner 1 to ["B%"] is not stopped by the name
    check (the lookup of ["B%"] returns owner 1 itself): the workflow
    issues the UPDATE, which the UNIQUE constraint then refuses. *)
Theorem C3_actualizar_propietario_invoca_update :
  In (mkFilaPropietario 2 "B%" "555-0002" "Calle 2")
     (propietarios (db mundo_antes_de_renombrar)) /\
  stdin mundo_antes_de_renombrar = ["1"; "B%"; ""; ""] /\
  sql_log mundo_renombrado
    = UPDATE_propietarios [Set_p_nombre "B%"] (Some 1)
      :: SELECT_propietarios_LIKE "B%"
      :: SELECT_propietarios_id (Some 1)
      :: sql_log mundo_antes_de_renombrar /\
  db mundo_renombrado = db mundo_antes_de_renombrar.
Proof. vm_compute. repeat split; try reflexivity. right. left. reflexivity. Qed.

(** ** Reading a visit back (C7) *)

(** C7, on the code. On a fresh store a visit for pet 7, which does not
    exist, is inserted with id 1, and reading visit 1 back returns
    [None]: the read joins the pets table. *)
Theorem C7_consulta_sin_mascota_no_se_lee :
  fst (insert_consulta (mkConsulta None (mkdate 2024 5 1) "checkup" "healthy" (Some 7) None)
         (connect base_vacia [] []))
    = Ret (Some (mkConsulta (Some 1) (mkdate 2024 5 1) "checkup" "healthy" (Some 7) None)) /\
  fst (get_consulta_by_id (Some 1)
         (snd (insert_consulta
                 (mkConsulta None (mkdate 2024 5 1) "checkup" "healthy" (Some 7) None)
                 (connect base_vacia [] []))))
    = Ret None.
Proof. vm_compute. split; reflexivity. Qed.

(** ** Dates and their ISO text *)

Import DateFmt.

(** A decimal digit character is the image of one of ten values. *)
Lemma digito_forma (n : Z) :
  exists k : nat, (k < 10)%nat /\ digito n = ascii_of_nat (48 + k) /\ Z.of_nat k = n mod 10.
Proof.
  exists (Z.to_nat (n mod 10)).
  pose proof (Z.mod_pos_bound n 10 ltac:(lia)) as Hb.
  split; [lia|]. split; [reflexivity|]. lia.
Qed.

(** Case analysis over the ten digit values. *)
Ltac diez_casos k Hk :=
  do 10 (destruct k as [|k]; [try (vm_compute; reflexivity)|]); [exfalso; lia].

Lemma isdigit_digito (n : Z) : PyStr.isdigit (digito n) = true.
Proof.
  destruct (digito_forma n) as [k [Hk [-> _]]]. diez_casos k Hk.
Qed.

Lemma digit_val_digito (n : Z) : PyStr.digit_val (digito n) = n mod 10.
Proof.
  destruct (digito_forma n) as [k [Hk [-> <-]]]. diez_casos k Hk.
Qed.

Lemma digito_no_guion (n : Z) : Ascii.eqb (digito n) "-" = false.
Proof.
  destruct (digito_forma n) as [k [Hk [-> _]]]. diez_casos k Hk.
Qed.

Lemma digito_no_espacio (n : Z) : Ascii.eqb (digito n) " " = false.
Proof.
  destruct (digito_forma n) as [k [Hk [-> _]]]. diez_casos k Hk.
Qed.

Lemma digito_cero (n : Z) : Ascii.eqb (digito n) "0" = (n mod 10 =? 0).
Proof.
  destruct (digito_forma n) as [k [Hk [-> <-]]]. diez_casos k Hk.
Qed.

(** Digit characters are ordered as their values. *)
Lemma compare_digito (a b : Z) :
  Ascii.compare (digito a) (digito b) = (a mod 10 ?= b mod 10).
Proof.
  destruct (digito_forma a) as [k [Hk [-> <-]]].
  destruct (digito_forma b) as [j [Hj [-> <-]]].
  do 10 (destruct k as [|k];
         [do 10 (destruct j as [|j]; [vm_compute; reflexivity|]); exfalso; lia|]).
  exfalso; lia.
Qed.

Lemma split_digito (n : Z) (s : string) :
  PyStr.split "-" (String (digito n) s) =
  match PyStr.split "-" s with
  | w :: ws => String (digito n) w :: ws
  | [] => [String (digito n) EmptyString]
  end.
Proof. cbn [PyStr.split]. rewrite digito_no_guion. reflexivity. Qed.

Lemma split_guion (s : string) :
  PyStr.split "-" (String "-" s) = EmptyString :: PyStr.split "-" s.
Proof. reflexivity. Qed.

Lemma campo_Y_cuatro_digitos (y : Z) :
  0 <= y < 10000 -> campo_Y (cuatro_digitos y EmptyString) = Some y.
Proof.
  intros Hy. unfold cuatro_digitos, dos_digitos, campo_Y.
  rewrite !isdigit_digito, !digit_val_digito. cbn [andb]. f_equal.
  Z.div_mod_to_equations. lia.
Qed.

Lemma dos_digitos_valor (n : Z) :
  0 <= n < 100 ->
  10 * ((n / 10) mod 10) + n mod 10 = n.
Proof.
  intros Hn. Z.div_mod_to_equations. lia.
Qed.

Lemma campo_m_dos_digitos (m : Z) :
  1 <= m <= 12 -> campo_m (dos_digitos m EmptyString) = Some m.
Proof.
  intros Hm. unfold dos_digitos, campo_m.
  rewrite !isdigit_digito, !digit_val_digito. cbn [andb].
  rewrite dos_digitos_valor by lia.
  replace (1 <=? m) with true by (symmetry; apply Z.leb_le; lia).
  replace (m <=? 12) with true by (symmetry; apply Z.leb_le; lia).
  reflexivity.
Qed.

Lemma campo_d_dos_digitos (d : Z) :
  1 <= d <= 31 -> campo_d (dos_digitos d EmptyString) = Some d.
Proof.
  intros Hd. unfold dos_digitos, campo_d.
  rewrite digito_no_espacio, !isdigit_digito, !digit_val_digito. cbn [andb].
  rewrite dos_digitos_valor by lia.
  replace (1 <=? d) with true by (symmetry; apply Z.leb_le; lia).
  replace (d <=? 31) with true by (symmetry; apply Z.leb_le; lia).
  reflexivity.
Qed.

Lemma dias_del_mes_cota (y m : Z) : 28 <= dias_del_mes y m <= 31.
Proof.
  unfold dias_del_mes.
  destruct (m =? 2); [destruct (es_bisiesto y); lia|].
  destruct ((m =? 4) || (m =? 6) || (m =? 9) || (m =? 11)); lia.
Qed.

Lemma fecha_valida_cotas (d : date) :
  fecha_valida d ->
  1 <= year d <= 9999 /\ 1 <= month d <= 12 /\ 1 <= day d <= 31.
Proof.
  unfold fecha_valida, fecha_validab. intros H.
  repeat (apply andb_prop in H; destruct H as [H ?]).
  pose proof (dias_del_mes_cota (year d) (month d)).
  repeat match goal with
         | H : (_ <=? _) = true |- _ => apply Z.leb_le in H
         end.
  lia.
Qed.

Lemma split_Ymd (d : date) :
  PyStr.split "-" (strftime_Ymd d) =
  [cuatro_digitos (year d) EmptyString; dos_digitos (month d) EmptyString;
   dos_digitos (day d) EmptyString].
Proof.
  unfold strftime_Ymd, cuatro_digitos, dos_digitos.
  repeat (rewrite split_digito || rewrite split_guion). reflexivity.
Qed.

Lemma split_dmY (d : date) :
  PyStr.split "-" (strftime_dmY d) =
  [dos_digitos (day d) EmptyString; dos_digitos (month d) EmptyString;
   cuatro_digitos (year d) EmptyString].
Proof.
  unfold strftime_dmY, cuatro_digitos, dos_digitos.
  repeat (rewrite split_digito || rewrite split_guion). reflexivity.
Qed.

(** The text that [insert_consulta] writes parses back to the same date. *)
Lemma strptime_strftime_Ymd (d : date) :
  fecha_valida d -> strptime_Ymd (strftime_Ymd d) = Some d.
Proof.
  intros Hv. pose proof (fecha_valida_cotas d Hv) as (Hy & Hm & Hd).
  unfold strptime_Ymd. rewrite split_Ymd.
  rewrite campo_Y_cuatro_digitos, campo_m_dos_digitos, campo_d_dos_digitos by lia.
  unfold construir. destruct d as [y m dd]. cbn in *.
  unfold fecha_valida in Hv. rewrite Hv. reflexivity.
Qed.

(** What [strptime] returns is a date that [date(...)] accepted. *)
Lemma strptime_dmY_valida (s : string) (d : date) :
  strptime_dmY s = Some d -> fecha_valida d.
Proof.
  unfold strptime_dmY, construir.
  destruct (PyStr.split "-" s) as [|a [|b [|c [|]]]]; try discriminate.
  destruct (campo_Y c), (campo_m b), (campo_d a); try discriminate.
  destruct (fecha_validab _) eqn:E; [|discriminate].
  intros H; inversion H; subst. exact E.
Qed.

Lemma strptime_Ymd_valida (s : string) (d : date) :
  strptime_Ymd s = Some d -> fecha_valida d.
Proof.
  unfold strptime_Ymd, construir.
  destruct (PyStr.split "-" s) as [|a [|b [|c [|]]]]; try discriminate.
  destruct (campo_Y a), (campo_m b), (campo_d c); try discriminate.
  destruct (fecha_validab _) eqn:E; [|discriminate].
  intros H; inversion H; subst. exact E.
Qed.

(** Two-digit fields are ordered as their values. *)
Lemma compare_dos_digitos (x y : Z) (k k' : string) :
  0 <= x < 100 -> 0 <= y < 100 ->
  String.compare (dos_digitos x k) (dos_digitos y k') =
  match x ?= y with
  | Eq => String.compare k k'
  | c => c
  end.
Proof.
  intros Hx Hy. unfold dos_digitos. cbn [String.compare].
  rewrite !compare_digito.
  destruct (Z.compare_spec ((x / 10) mod 10) ((y / 10) mod 10)) as [E1|E1|E1];
    destruct (Z.compare_spec (x mod 10) (y mod 10)) as [E2|E2|E2];
    destruct (Z.compare_spec x y) as [E|E|E];
    try reflexivity; exfalso; clear k k'; Z.div_mod_to_equations; lia.
Qed.

Lemma cuatro_como_dos (n : Z) (k : string) :
  cuatro_digitos n k = dos_digitos (n / 100) (dos_digitos n k).
Proof.
  unfold cuatro_digitos, dos_digitos.
  replace (n / 100 / 10) with (n / 1000); [reflexivity|].
  Z.div_mod_to_equations. lia.
Qed.

Lemma dos_digitos_bajos (n : Z) (k : string) :
  dos_digitos n k = dos_digitos (n mod 100) k.
Proof.
  unfold dos_digitos, digito.
  replace ((n mod 100 / 10) mod 10) with ((n / 10) mod 10)
    by (Z.div_mod_to_equations; lia).
  replace ((n mod 100) mod 10) with (n mod 10)
    by (Z.div_mod_to_equations; lia).
  reflexivity.
Qed.

(** Four-digit fields are ordered as their values. *)
Lemma compare_cuatro_digitos (x y : Z) (k k' : string) :
  0 <= x < 10000 -> 0 <= y < 10000 ->
  String.compare (cuatro_digitos x k) (cuatro_digitos y k') =
  match x ?= y with
  | Eq => String.compare k k'
  | c => c
  end.
Proof.
  intros Hx Hy. rewrite !cuatro_como_dos.
  rewrite (dos_digitos_bajos x k), (dos_digitos_bajos y k').
  rewrite compare_dos_digitos by (Z.div_mod_to_equations; lia).
  rewrite compare_dos_digitos by (Z.div_mod_to_equations; lia).
  destruct (Z.compare_spec (x / 100) (y / 100)) as [E1|E1|E1];
    destruct (Z.compare_spec (x mod 100) (y mod 100)) as [E2|E2|E2];
    destruct (Z.compare_spec x y) as [E|E|E];
    try reflexivity; exfalso; clear k k'; Z.div_mod_to_equations; lia.
Qed.

(** The ISO text of dates is ordered, byte by byte, as the dates are. *)
Lemma compare_strftime_Ymd (a b : date) :
  fecha_valida a -> fecha_valida b ->
  String.compare (strftime_Ymd a) (strftime_Ymd b) = date_compare a b.
Proof.
  intros Ha Hb.
  pose proof (fecha_valida_cotas a Ha) as (Hya & Hma & Hda).
  pose proof (fecha_valida_cotas b Hb) as (Hyb & Hmb & Hdb).
  unfold strftime_Ymd, date_compare.
  rewrite compare_cuatro_digitos by lia.
  destruct (year a ?= year b); try reflexivity.
  cbn [String.compare]. change (Ascii.compare "-" "-") with Eq. cbn match.
  rewrite compare_dos_digitos by lia.
  destruct (month a ?= month b); try reflexivity.
  cbn [String.compare]. change (Ascii.compare "-" "-") with Eq. cbn match.
  rewrite compare_dos_digitos by lia.
  cbn [String.compare]. destruct (day a ?= day b); reflexivity.
Qed.

Lemma leb_strftime_Ymd (a b : date) :
  fecha_valida a -> fecha_valida b ->
  String.leb (strftime_Ymd a) (strftime_Ymd b) = date_geb b a.
Proof.
  intros Ha Hb. unfold String.leb, date_geb.
  rewrite (compare_strftime_Ymd a b Ha Hb).
  assert (Hanti : date_compare b a = CompOpp (date_compare a b)).
  { unfold date_compare.
    rewrite (Z.compare_antisym (year a) (year b)),
            (Z.compare_antisym (month a) (month b)),
            (Z.compare_antisym (day a) (day b)).
    destruct (year a ?= year b), (month a ?= month b), (day a ?= day b); reflexivity. }
  rewrite Hanti. destruct (date_compare a b); reflexivity.
Qed.

(** ** Preservation of the store invariant *)

Lemma es_fecha_iso_elim (s : string) :
  es_fecha_iso s = true ->
  exists d, fecha_valida d /\ s = strftime_Ymd d /\ strptime_Ymd s = Some d.
Proof.
  unfold es_fecha_iso. destruct (strptime_Ymd s) as [d|] eqn:E; [|discriminate].
  intros H. apply String.eqb_eq in H. exists d.
  split; [eapply strptime_Ymd_valida; eassumption|]. auto.
Qed.

Lemma es_fecha_iso_strftime (d : date) :
  fecha_valida d -> es_fecha_iso (strftime_Ymd d) = true.
Proof.
  intros Hv. unfold es_fecha_iso. rewrite strptime_strftime_Ymd by assumption.
  apply String.eqb_refl.
Qed.

Lemma conserva_ret {A : Type} (a : A) (Q : A -> Prop) :
  Q a -> conserva (ret a) Q.
Proof. intros HQ w Hw. cbn. split; [assumption|]. intros b E. inversion E; subst; auto. Qed.

Lemma conserva_raise {A : Type} (e : excepcion) (Q : A -> Prop) :
  conserva (raise e) Q.
Proof. intros w Hw. cbn. split; [assumption|]. discriminate. Qed.

Lemma conserva_bind {A B : Type} (c : M A) (k : A -> M B) (Q : A -> Prop) (R : B -> Prop) :
  conserva c Q -> (forall a, Q a -> conserva (k a) R) -> conserva (bind c k) R.
Proof.
  intros Hc Hk w Hw. unfold bind.
  destruct (Hc w Hw) as [Hw' HQ]. destruct (c w) as [[a|e] w']; cbn in *.
  - apply (Hk a (HQ a eq_refl) w' Hw').
  - split; [assumption|]. discriminate.
Qed.

Lemma conserva_debil {A : Type} (c : M A) (Q R : A -> Prop) :
  conserva c Q -> (forall a, Q a -> R a) -> conserva c R.
Proof.
  intros Hc HQR w Hw. destruct (Hc w Hw) as [Hw' HQ]. split; auto.
Qed.

Lemma conserva_try {A : Type} (c : M A) (h : sqlite_error -> M A) (Q : A -> Prop) :
  conserva c Q -> (forall e, conserva (h e) Q) -> conserva (try_except_sqlite3 c h) Q.
Proof.
  intros Hc Hh w Hw. unfold try_except_sqlite3.
  destruct (Hc w Hw) as [Hw' HQ]. destruct (c w) as [[a|[e| |]] w']; cbn in *.
  - split; assumption.
  - apply (Hh e w' Hw').
  - split; [assumption|]. discriminate.
  - split; [assumption|]. discriminate.
Qed.

Lemma conserva_of_py {A : Type} (r : py A) (Q : A -> Prop) :
  (forall a, r = Ret a -> Q a) -> conserva (of_py r) Q.
Proof. intros H w Hw. cbn. split; assumption. Qed.

Lemma mundo_sano_con_fallos (f : list (option sqlite_error)) (w : Mundo) :
  mundo_sano w -> mundo_sano (con_fallos f w).
Proof. unfold mundo_sano. cbn. auto. Qed.

Lemma mundo_sano_con_stdin (l : list string) (w : Mundo) :
  mundo_sano w -> mundo_sano (con_stdin l w).
Proof. unfold mundo_sano. cbn. auto. Qed.

Lemma mundo_sano_con_sql_log (s : sentencia) (w : Mundo) :
  sentencia_sana s -> mundo_sano w -> mundo_sano (con_sql_log (s :: sql_log w) w).
Proof. unfold mundo_sano. cbn. intros Hs (H1 & H2 & H3 & H4). auto. Qed.

Lemma mundo_sano_con_db (b : BaseDatos) (w : Mundo) :
  base_sana b -> mundo_sano w -> mundo_sano (con_db b w).
Proof. unfold mundo_sano. cbn. intros Hb (H1 & H2 & H3 & H4). auto. Qed.

Lemma conserva_falla : conserva falla (fun _ => True).
Proof.
  intros w Hw. destruct (falla_cases w) as [[e [_ ->]] | [-> _]]; cbn;
    (split; [now apply mundo_sano_con_fallos | auto]).
Qed.

Lemma conserva_anotar (s : sentencia) :
  sentencia_sana s -> conserva (anotar s) (fun _ => True).
Proof.
  intros Hs w Hw. cbn. split; [now apply mundo_sano_con_sql_log | auto].
Qed.

Lemma conserva_leer : conserva leer base_sana.
Proof.
  intros w Hw. cbn. split; [assumption|]. intros b E. inversion E; subst. apply Hw.
Qed.

Lemma conserva_escribir (b : BaseDatos) :
  base_sana b -> conserva (escribir b) (fun _ => True).
Proof.
  intros Hb w Hw. cbn. split; [now apply mundo_sano_con_db | auto].
Qed.

Lemma conserva_pragma : conserva pragma_foreign_keys (fun fk => fk = false).
Proof.
  intros w Hw. cbn. split; [assumption|]. intros b E. inversion E; subst. apply Hw.
Qed.

Lemma conserva_commit : conserva commit (fun _ => True).
Proof.
  intros w Hw. unfold commit.
  destruct (falla_cases w) as [[e [_ ->]] | [-> _]]; cbn; (split; [|auto]);
    destruct Hw as (H1 & H2 & H3 & H4); unfold mundo_sano; cbn; auto.
Qed.

Lemma conserva_fetchone {A : Type} (filas : list A) :
  conserva (fetchone filas) (fun _ => True).
Proof.
  unfold fetchone. eapply conserva_bind; [apply conserva_falla|].
  intros _ _. now apply conserva_ret.
Qed.

Lemma conserva_fetchall {A : Type} (filas : list A) (Q : list A -> Prop) :
  Q filas -> conserva (fetchall filas) Q.
Proof.
  intros HQ. unfold fetchall. eapply conserva_bind; [apply conserva_falla|].
  intros _ _. now apply conserva_ret.
Qed.

Lemma base_sana_incl (b b' : BaseDatos) :
  incl (mascotas b') (mascotas b) ->
  incl (consultas b') (consultas b) ->
  base_sana b -> base_sana b'.
Proof.
  intros Hm Hc [H1 H2]. split.
  - intros m Hin. apply H1, Hm, Hin.
  - intros c Hin. apply H2, Hc, Hin.
Qed.

(** One step of a preservation proof, following the shape of the code. *)
Ltac paso_conserva :=
  lazymatch goal with
  | |- conserva (bind _ _) _ => eapply conserva_bind; [| intros ? ?]
  | |- conserva (ret _) ?Q =>
      first [ is_evar Q; apply (conserva_ret _ (fun _ => True)); exact I
            | apply conserva_ret; auto ]
  | |- conserva (raise _) _ => apply conserva_raise
  | |- conserva (sqlite_raise _) _ => apply conserva_raise
  | |- conserva falla _ => apply conserva_falla
  | |- conserva (anotar _) _ => apply conserva_anotar
  | |- conserva leer _ => apply conserva_leer
  | |- conserva pragma_foreign_keys _ => apply conserva_pragma
  | |- conserva commit _ => apply conserva_commit
  | |- conserva (escribir _) _ => apply conserva_escribir
  | |- conserva (fetchone _) _ => apply conserva_fetchone
  | |- conserva (fetchall _) _ => apply conserva_fetchall; auto
  | |- conserva (try_except_sqlite3 _ _) _ => apply conserva_try; [| intros ?]
  | |- conserva (of_py _) ?Q =>
      first [ is_evar Q; apply (conserva_of_py _ (fun _ => True)); auto
            | apply conserva_of_py ]
  | |- conserva (let _ := _ in _) _ => cbv zeta
  | |- conserva (match ?x with _ => _ end) _ => destruct x eqn:?
  end.

Ltac conservar := repeat paso_conserva.

(** Closes the side conditions left by [conservar]. *)
Ltac cerrar_sana :=
  first
    [ solve [cbn; auto]
    | solve [eapply base_sana_incl; [| |eassumption]; cbn;
             unfold sin_consultas_de;
             repeat match goal with
                    | |- incl (if ?x then _ else _) _ => destruct x
                    end;
             auto using incl_refl, incl_filter]
    | idtac ].

Lemma conserva_INSERT_propietarios (n t d : string) :
  conserva (execute_INSERT_propietarios n t d) (fun _ => True).
Proof. unfold execute_INSERT_propietarios. conservar; cerrar_sana. Qed.

Lemma conserva_SELECT_propietarios_LIKE (patron : string) :
  conserva (execute_SELECT_propietarios_LIKE patron) (fun _ => True).
Proof. unfold execute_SELECT_propietarios_LIKE. conservar; cerrar_sana. Qed.

Lemma conserva_SELECT_propietarios_id (id : option Z) :
  conserva (execute_SELECT_propietarios_id id) (fun _ => True).
Proof. unfold execute_SELECT_propietarios_id. conservar; cerrar_sana. Qed.

Lemma conserva_SELECT_propietarios :
  conserva execute_SELECT_propietarios (fun _ => True).
Proof. unfold execute_SELECT_propietarios. conservar; cerrar_sana. Qed.

Lemma conserva_UPDATE_propietarios (sc : list asig_propietario) (id : option Z) :
  conserva (execute_UPDATE_propietarios sc id) (fun _ => True).
Proof. unfold execute_UPDATE_propietarios. conservar; cerrar_sana. Qed.

Lemma conserva_DELETE_propietarios (id : option Z) :
  conserva (execute_DELETE_propietarios id) (fun _ => True).
Proof. unfold execute_DELETE_propietarios. conservar; cerrar_sana. Qed.

Lemma aplicar_m_edad (sc : list asig_mascota) (r : FilaMascota) :
  Forall asig_m_sana sc -> 0 <= fm_edad r -> 0 <= fm_edad (fold_left aplicar_m sc r).
Proof.
  intros Hsc. revert r. induction Hsc as [|a sc Ha _ IH]; intros r Hr; cbn; [assumption|].
  apply IH. destruct a; cbn in *; assumption.
Qed.

Lemma conserva_INSERT_mascotas (n e r : string) (edad : Z) (idp : option Z) :
  0 <= edad -> conserva (execute_INSERT_mascotas n e r edad idp) (fun _ => True).
Proof.
  intros Hedad. unfold execute_INSERT_mascotas. conservar; cerrar_sana.
  match goal with H : base_sana _ |- _ => destruct H as [Hm Hc] end.
  split; cbn; [|assumption].
  intros m Hin. apply in_app_or in Hin. destruct Hin as [Hin | [<- | []]]; cbn; auto.
Qed.

Lemma conserva_SELECT_mascotas_JOIN :
  conserva execute_SELECT_mascotas_JOIN (fun _ => True).
Proof. unfold execute_SELECT_mascotas_JOIN. conservar; cerrar_sana. Qed.

Lemma conserva_SELECT_mascotas_JOIN_id (id : option Z) :
  conserva (execute_SELECT_mascotas_JOIN_id id) (fun _ => True).
Proof. unfold execute_SELECT_mascotas_JOIN_id. conservar; cerrar_sana. Qed.

Lemma conserva_UPDATE_mascotas (sc : list asig_mascota) (id : option Z) :
  Forall asig_m_sana sc -> conserva (execute_UPDATE_mascotas sc id) (fun _ => True).
Proof.
  intros Hsc. unfold execute_UPDATE_mascotas. conservar; cerrar_sana.
  match goal with H : base_sana _ |- _ => destruct H as [Hm Hc] end.
  split; cbn [mascotas consultas]; [|assumption].
  intros m Hin. apply in_map_iff in Hin. destruct Hin as [r [<- Hr]].
  destruct (ref_eqb id (fm_id r)); [|auto].
  apply aplicar_m_edad; auto.
Qed.

Lemma conserva_DELETE_mascotas (id : option Z) :
  conserva (execute_DELETE_mascotas id) (fun _ => True).
Proof.
  unfold execute_DELETE_mascotas. conservar; cerrar_sana.
Qed.

Lemma conserva_INSERT_consultas (fecha m d : string) (idm : option Z) :
  es_fecha_iso fecha = true ->
  conserva (execute_INSERT_consultas fecha m d idm) (fun _ => True).
Proof.
  intros Hf. unfold execute_INSERT_consultas. conservar; cerrar_sana.
  match goal with H : base_sana _ |- _ => destruct H as [Hm Hc] end.
  split; cbn [mascotas consultas]; [assumption|].
  intros c Hin. apply in_app_or in Hin. destruct Hin as [Hin | [<- | []]]; cbn; auto.
Qed.

Lemma conserva_SELECT_consultas_JOIN_mascota (id : option Z) :
  conserva (execute_SELECT_consultas_JOIN_mascota id) (fun _ => True).
Proof. unfold execute_SELECT_consultas_JOIN_mascota. conservar; cerrar_sana. Qed.

Lemma conserva_SELECT_consultas_JOIN_id (id : option Z) :
  conserva (execute_SELECT_consultas_JOIN_id id) (fun _ => True).
Proof. unfold execute_SELECT_consultas_JOIN_id. conservar; cerrar_sana. Qed.

Lemma aplicar_c_fecha (sc : list asig_consulta) (r : FilaConsulta) :
  Forall asig_c_sana sc ->
  es_fecha_iso (fc_fecha r) = true ->
  es_fecha_iso (fc_fecha (fold_left aplicar_c sc r)) = true.
Proof.
  intros Hsc. revert r. induction Hsc as [|a sc Ha _ IH]; intros r Hr; cbn; [assumption|].
  apply IH. destruct a as [[d|s]| |]; cbn in *; auto using es_fecha_iso_strftime.
Qed.

Lemma conserva_UPDATE_consultas (sc : list asig_consulta) (id : option Z) :
  Forall asig_c_sana sc -> conserva (execute_UPDATE_consultas sc id) (fun _ => True).
Proof.
  intros Hsc. unfold execute_UPDATE_consultas. conservar; cerrar_sana.
  match goal with H : base_sana _ |- _ => destruct H as [Hm Hc] end.
  split; cbn [mascotas consultas]; [assumption|].
  intros c Hin. apply in_map_iff in Hin. destruct Hin as [r [<- Hr]].
  destruct (ref_eqb id (fc_id r)); [|auto].
  apply aplicar_c_fecha; auto.
Qed.

Lemma conserva_DELETE_consultas (id : option Z) :
  conserva (execute_DELETE_consultas id) (fun _ => True).
Proof. unfold execute_DELETE_consultas. conservar; cerrar_sana. Qed.

(** The engine calls, for the proofs about [DatabaseManager]. *)
Ltac paso_motor :=
  first
    [ apply conserva_INSERT_propietarios
    | apply conserva_SELECT_propietarios_LIKE
    | apply conserva_SELECT_propietarios_id
    | apply conserva_SELECT_propietarios
    | apply conserva_UPDATE_propietarios
    | apply conserva_DELETE_propietarios
    | apply conserva_INSERT_mascotas
    | apply conserva_SELECT_mascotas_JOIN
    | apply conserva_SELECT_mascotas_JOIN_id
    | apply conserva_UPDATE_mascotas
    | apply conserva_DELETE_mascotas
    | apply conserva_INSERT_consultas
    | apply conserva_SELECT_consultas_JOIN_mascota
    | apply conserva_SELECT_consultas_JOIN_id
    | apply conserva_UPDATE_consultas
    | apply conserva_DELETE_consultas
    | paso_conserva ].

Ltac conservar_motor := repeat paso_motor.

Lemma conserva_insert_propietario (p : Propietario) :
  conserva (insert_propietario p) (fun _ => True).
Proof. unfold insert_propietario. conservar_motor; cerrar_sana. Qed.

Lemma conserva_get_propietario_by_nombre (nombre : string) :
  conserva (get_propietario_by_nombre nombre) (fun _ => True).
Proof. unfold get_propietario_by_nombre. conservar_motor; cerrar_sana. Qed.

Lemma conserva_get_propietario_by_id (id : option Z) :
  conserva (get_propietario_by_id id) (fun _ => True).
Proof. unfold get_propietario_by_id. conservar_motor; cerrar_sana. Qed.

Lemma conserva_get_all_propietarios :
  conserva get_all_propietarios (fun _ => True).
Proof. unfold get_all_propietarios. conservar_motor; cerrar_sana. Qed.

Lemma conserva_update_propietario (id : option Z) (nd : list asig_propietario) :
  conserva (update_propietario id nd) (fun _ => True).
Proof. unfold update_propietario. conservar_motor; cerrar_sana. Qed.

Lemma conserva_delete_propietario (id : option Z) :
  conserva (delete_propietario id) (fun _ => True).
Proof. unfold delete_propietario. conservar_motor; cerrar_sana. Qed.

Lemma conserva_insert_mascota (m : Mascota) :
  0 <= m_edad m -> conserva (insert_mascota m) (fun _ => True).
Proof. intros H. unfold insert_mascota. conservar_motor; cerrar_sana. Qed.

Lemma conserva_get_all_mascotas :
  conserva get_all_mascotas (fun _ => True).
Proof. unfold get_all_mascotas. conservar_motor; cerrar_sana. Qed.

Lemma conserva_get_mascota_by_id (id : option Z) :
  conserva (get_mascota_by_id id) (fun _ => True).
Proof. unfold get_mascota_by_id. conservar_motor; cerrar_sana. Qed.

Lemma conserva_update_mascota (id : option Z) (nd : list asig_mascota) :
  Forall asig_m_sana nd -> conserva (update_mascota id nd) (fun _ => True).
Proof. intros H. unfold update_mascota. conservar_motor; cerrar_sana. Qed.

Lemma conserva_delete_mascota (id : option Z) :
  conserva (delete_mascota id) (fun _ => True).
Proof. unfold delete_mascota. conservar_motor; cerrar_sana. Qed.

Lemma conserva_insert_consulta (c : Consulta) :
  fecha_valida (c_fecha c) -> conserva (insert_consulta c) (fun _ => True).
Proof.
  intros H. unfold insert_consulta. conservar_motor; cerrar_sana.
  now apply es_fecha_iso_strftime.
Qed.

Lemma conserva_get_consultas_by_mascota_id (id : option Z) :
  conserva (get_consultas_by_mascota_id id) (fun _ => True).
Proof.
  unfold get_consultas_by_mascota_id. conservar_motor; cerrar_sana.
Qed.

Lemma conserva_get_consulta_by_id (id : option Z) :
  conserva (get_consulta_by_id id) (fun _ => True).
Proof.
  unfold get_consulta_by_id. conservar_motor; cerrar_sana.
Qed.

Lemma fecha_a_texto_sana (nd : list asig_consulta) :
  Forall asig_c_sana nd -> Forall asig_c_sana (map fecha_a_texto nd).
Proof.
  induction 1 as [|a nd Ha _ IH]; cbn; constructor; [|assumption].
  destruct a as [[d|s]| |]; cbn in *; auto using es_fecha_iso_strftime.
Qed.

Lemma conserva_update_consulta (id : option Z) (nd : list asig_consulta) :
  Forall asig_c_sana nd -> conserva (update_consulta id nd) (fun _ => True).
Proof.
  intros H. unfold update_consulta. conservar_motor; cerrar_sana.
  now apply fecha_a_texto_sana.
Qed.

Lemma conserva_delete_consulta (id : option Z) :
  conserva (delete_consulta id) (fun _ => True).
Proof. unfold delete_consulta. conservar_motor; cerrar_sana. Qed.

(** The console only consumes [stdin]. *)
Lemma conserva_input : conserva UIUtils.input (fun _ => True).
Proof.
  intros w Hw. unfold UIUtils.input. destruct (stdin w); cbn.
  - split; [assumption | auto].
  - split; [now apply mundo_sano_con_stdin | auto].
Qed.

Lemma conserva_get_int_input : conserva UIUtils.get_int_input (fun _ => True).
Proof.
  intros w Hw. unfold UIUtils.get_int_input. cbn.
  split; [now apply mundo_sano_con_stdin | auto].
Qed.

Lemma conserva_confirm_action : conserva UIUtils.confirm_action (fun _ => True).
Proof.
  intros w Hw. unfold UIUtils.confirm_action. cbn.
  split; [now apply mundo_sano_con_stdin | auto].
Qed.

Lemma get_date_input_desde_valida (lineas : list string) (d : date) :
  fst (UIUtils.get_date_input_desde lineas) = Ret d -> fecha_valida d.
Proof.
  induction lineas as [|l resto IH]; cbn; [discriminate|].
  destruct (strptime_dmY (PyStr.strip l)) as [d'|] eqn:E; cbn.
  - intros H; inversion H; subst. eapply strptime_dmY_valida; eassumption.
  - exact IH.
Qed.

Lemma conserva_get_date_input : conserva UIUtils.get_date_input fecha_valida.
Proof.
  intros w Hw. unfold UIUtils.get_date_input. cbn.
  split; [now apply mundo_sano_con_stdin|].
  intros d. apply get_date_input_desde_valida.
Qed.

(** The age read at registration is never negative. *)
Lemma leer_edad_desde_no_negativa (lineas : list string) (edad : Z) :
  fst (SistemaVeterinaria.leer_edad_desde lineas) = Ret edad -> 0 <= edad.
Proof.
  induction lineas as [|l resto IH]; cbn; [discriminate|].
  destruct (PyStr.int l) as [v|]; [|exact IH].
  destruct (v <? 0) eqn:E; [exact IH|].
  cbn. intros H; inversion H; subst. apply Z.ltb_ge in E. exact E.
Qed.

Lemma conserva_leer_edad :
  conserva SistemaVeterinaria.leer_edad (fun edad => 0 <= edad).
Proof.
  intros w Hw. unfold SistemaVeterinaria.leer_edad. cbn.
  split; [now apply mundo_sano_con_stdin|].
  intros d. apply leer_edad_desde_no_negativa.
Qed.

(** The age offered to [update_mascota] is never negative. *)
Lemma edad_nueva_sana (edad_str : string) :
  Forall asig_m_sana (SistemaVeterinaria.edad_nueva edad_str).
Proof.
  unfold SistemaVeterinaria.edad_nueva.
  destruct (PyStr.int edad_str) as [v|]; [|constructor].
  destruct (v <? 0) eqn:E; constructor; [|constructor].
  cbn. now apply Z.ltb_ge in E.
Qed.

(** The store operations and the console, for the proofs about the
    workflows. *)
Ltac paso_flujo :=
  first
    [ apply conserva_insert_propietario
    | apply conserva_get_propietario_by_nombre
    | apply conserva_get_propietario_by_id
    | apply conserva_get_all_propietarios
    | apply conserva_update_propietario
    | apply conserva_delete_propietario
    | apply conserva_insert_mascota
    | apply conserva_get_all_mascotas
    | apply conserva_get_mascota_by_id
    | apply conserva_update_mascota
    | apply conserva_delete_mascota
    | apply conserva_insert_consulta
    | apply conserva_get_consultas_by_mascota_id
    | apply conserva_get_consulta_by_id
    | apply conserva_update_consulta
    | apply conserva_delete_consulta
    | apply conserva_input
    | apply conserva_get_int_input
    | apply conserva_get_date_input
    | apply conserva_confirm_action
    | apply conserva_leer_edad
    | paso_conserva ].

Ltac conservar_flujo := repeat paso_flujo.

Import SistemaVeterinaria.

Lemma conserva__get_propietario_or_create (owner_name : string) :
  conserva (_get_propietario_or_create owner_name) (fun _ => True).
Proof. unfold _get_propietario_or_create. conservar_flujo; cerrar_sana. Qed.

Lemma conserva__get_mascota : conserva _get_mascota (fun _ => True).
Proof. unfold _get_mascota. conservar_flujo; cerrar_sana. Qed.

Lemma conserva__get_propietario : conserva _get_propietario (fun _ => True).
Proof. unfold _get_propietario. conservar_flujo; cerrar_sana. Qed.

Lemma conserva__get_consulta : conserva _get_consulta (fun _ => True).
Proof. unfold _get_consulta. conservar_flujo; cerrar_sana. Qed.

Lemma conserva_registrar_mascota : conserva registrar_mascota (fun _ => True).
Proof.
  unfold registrar_mascota. conservar_flujo; cerrar_sana.
  apply conserva__get_propietario_or_create.
Qed.

Ltac paso_menu :=
  first
    [ apply conserva__get_propietario_or_create
    | apply conserva__get_mascota
    | apply conserva__get_propietario
    | apply conserva__get_consulta
    | paso_flujo ].

Ltac conservar_menu := repeat paso_menu.

Lemma conserva_registrar_consulta : conserva registrar_consulta (fun _ => True).
Proof.
  unfold registrar_consulta.
  eapply conserva_bind; [apply conserva__get_mascota|]. intros [m|] _; [|conservar_menu].
  eapply conserva_bind; [apply conserva_get_date_input|]. intros fecha Hfecha.
  eapply conserva_bind; [apply conserva_input|]. intros motivo _.
  eapply conserva_bind; [apply conserva_input|]. intros diagnostico _.
  eapply conserva_bind.
  - apply (conserva_of_py _ (fun c => fecha_valida (c_fecha c))).
    cbn. intros c E. inversion E; subst. exact Hfecha.
  - intros c Hc. eapply conserva_bind; [now apply conserva_insert_consulta|].
    intros; now apply conserva_ret.
Qed.

Lemma conserva_listar_propietarios : conserva listar_propietarios (fun _ => True).
Proof. unfold listar_propietarios. conservar_menu; cerrar_sana. Qed.

Lemma conserva_listar_mascotas : conserva listar_mascotas (fun _ => True).
Proof. unfold listar_mascotas. conservar_menu; cerrar_sana. Qed.

Lemma conserva_historia_clinica : conserva historia_clinica (fun _ => True).
Proof. unfold historia_clinica. conservar_menu; cerrar_sana. Qed.

Lemma conserva_actualizar_propietario : conserva actualizar_propietario (fun _ => True).
Proof. unfold actualizar_propietario. conservar_menu; cerrar_sana. Qed.

Lemma Forall_app_intro {A : Type} (P : A -> Prop) (l l' : list A) :
  Forall P l -> Forall P l' -> Forall P (l ++ l')%list.
Proof. intros. apply Forall_app. split; assumption. Qed.

Lemma conserva_actualizar_mascota : conserva actualizar_mascota (fun _ => True).
Proof.
  unfold actualizar_mascota.
  eapply conserva_bind; [apply conserva__get_mascota|]. intros [m|] _; [|conservar_menu].
  eapply conserva_bind; [apply conserva_input|]. intros linea_n _.
  eapply conserva_bind; [apply conserva_input|]. intros linea_e _.
  eapply conserva_bind; [apply conserva_input|]. intros linea_r _.
  eapply conserva_bind; [apply conserva_input|]. intros linea_a _.
  cbv zeta.
  match goal with
  | |- conserva (bind _ (fun cambiar => bind (if cambiar then _ else ret ?d4) _)) _ =>
      assert (Hd4 : Forall asig_m_sana d4)
  end.
  { repeat match goal with
           | |- Forall _ (if ?c then _ else _) => destruct c
           | |- Forall _ (_ ++ _)%list => apply Forall_app_intro
           | |- Forall _ (edad_nueva _) => apply edad_nueva_sana
           | |- Forall _ (_ :: _) => constructor; cbn; auto
           | |- Forall _ [] => constructor
           end. }
  eapply conserva_bind; [apply conserva_confirm_action|]. intros cambiar _.
  eapply conserva_bind.
  - instantiate (1 := Forall asig_m_sana).
    destruct cambiar; [|now apply conserva_ret].
    eapply conserva_bind; [apply conserva_input|]. intros linea_p _.
    eapply conserva_bind; [apply conserva_get_propietario_by_nombre|].
    intros [np|] _; apply conserva_ret; [|assumption].
    apply Forall_app_intro; [assumption|]. constructor; cbn; auto.
  - intros d5 Hd5. destruct d5 as [|a d5]; [now apply conserva_ret|].
    eapply conserva_bind; [now apply conserva_update_mascota|].
    intros; now apply conserva_ret.
Qed.

Lemma conserva_actualizar_consulta : conserva actualizar_consulta (fun _ => True).
Proof.
  unfold actualizar_consulta.
  eapply conserva_bind; [apply conserva__get_consulta|]. intros [c|] _; [|conservar_menu].
  eapply conserva_bind; [apply conserva_input|]. intros linea_f _.
  eapply conserva_bind; [apply conserva_input|]. intros linea_m _.
  eapply conserva_bind; [apply conserva_input|]. intros linea_d _.
  cbv zeta.
  match goal with
  | |- conserva (match ?d3 with [] => _ | _ :: _ => _ end) _ =>
      assert (Hd3 : Forall asig_c_sana d3)
  end.
  { repeat match goal with
           | |- Forall _ (if ?c then _ else _) => destruct c
           | |- Forall _ (match ?c with Some _ => _ | None => _ end) => destruct c eqn:?
           | |- Forall _ (_ ++ _)%list => apply Forall_app_intro
           | |- Forall _ (_ :: _) => constructor; cbn; auto
           | |- Forall _ [] => constructor
           end; eapply strptime_dmY_valida; eassumption. }
  match goal with
  | |- conserva (match ?d3 with [] => _ | _ :: _ => _ end) _ =>
      remember d3 as nd eqn:End; clear End;
      destruct nd as [|a resto]; [now apply conserva_ret|]
  end.
  eapply conserva_bind; [now apply conserva_update_consulta|].
  intros; now apply conserva_ret.
Qed.

Lemma conserva_eliminar_propietario : conserva eliminar_propietario (fun _ => True).
Proof. unfold eliminar_propietario. conservar_menu; cerrar_sana. Qed.

Lemma conserva_eliminar_mascota : conserva eliminar_mascota (fun _ => True).
Proof. unfold eliminar_mascota. conservar_menu; cerrar_sana. Qed.

Lemma conserva_eliminar_consulta : conserva eliminar_consulta (fun _ => True).
Proof. unfold eliminar_consulta. conservar_menu; cerrar_sana. Qed.

(** Every turn of the menu keeps the invariant. *)
Lemma conserva_ejecutar (o : opcion) : conserva (ejecutar o) (fun _ => True).
Proof.
  destruct o; cbn [ejecutar];
    auto using conserva_registrar_mascota, conserva_registrar_consulta,
      conserva_listar_propietarios, conserva_listar_mascotas, conserva_historia_clinica,
      conserva_actualizar_propietario, conserva_actualizar_mascota,
      conserva_actualizar_consulta, conserva_eliminar_propietario,
      conserva_eliminar_mascota, conserva_eliminar_consulta.
Qed.

(** The invariant holds in every state the program reaches. *)
Lemma alcanzable_sano (w : Mundo) : alcanzable w -> mundo_sano w.
Proof.
  induction 1 as [faults teclado | w o _ IH | w faults teclado _ IH].
  - unfold mundo_sano, base_sana. cbn. repeat split; try constructor; intros ? [].
  - apply (conserva_ejecutar o w IH).
  - destruct IH as (H1 & H2 & H3 & H4). unfold mundo_sano. cbn.
    repeat split; try apply H2; constructor.
Qed.

(** ** Ages are never negative (C8) *)

Lemma alcanzable_mundo_registro : alcanzable mundo_registro.
Proof. unfold mundo_registro. repeat apply alc_turno. apply alc_inicio. Qed.

(** C8. In every state the program reaches, no pet row has a negative
    age, and no INSERT or UPDATE on [mascotas] was ever issued with one:
    at registration a negative age typed is skipped and the next one is
    read, and in the update workflow a negative age is left out of the
    mapping. *)
Theorem C8_edad_no_negativa :
  forall w : Mundo,
    alcanzable w ->
    (forall m, In m (mascotas (db w)) -> 0 <= fm_edad m) /\
    (forall m, In m (mascotas (confirmada w)) -> 0 <= fm_edad m) /\
    (forall n e r edad idp,
        In (INSERT_mascotas n e r edad idp) (sql_log w) -> 0 <= edad) /\
    (forall sc id edad,
        In (UPDATE_mascotas sc id) (sql_log w) -> In (Set_m_edad edad) sc -> 0 <= edad) /\
    (forall l resto v,
        PyStr.int l = Some v -> v < 0 ->
        leer_edad_desde (l :: resto) = leer_edad_desde resto) /\
    (forall s v, PyStr.int s = Some v -> v < 0 -> edad_nueva s = []).
Proof.
  intros w Hw. destruct (alcanzable_sano w Hw) as ([Hm _] & [Hm' _] & _ & Hlog).
  rewrite Forall_forall in Hlog.
  split; [exact Hm|]. split; [exact Hm'|].
  split; [|split; [|split]].
  - intros n e r edad idp Hin. exact (Hlog _ Hin).
  - intros sc id edad Hin Hed. pose proof (Hlog _ Hin) as Hsc. cbn in Hsc.
    rewrite Forall_forall in Hsc. exact (Hsc _ Hed).
  - intros l resto v Hint Hneg. cbn. rewrite Hint.
    replace (v <? 0) with true by (symmetry; apply Z.ltb_lt; exact Hneg). reflexivity.
  - intros s v Hint Hneg. unfold edad_nueva. rewrite Hint.
    replace (v <? 0) with true by (symmetry; apply Z.ltb_lt; exact Hneg). reflexivity.
Qed.

Lemma C8_edad_no_negativa_witness :
  alcanzable mundo_registro /\
  mascotas (db mundo_registro) = [mkFilaMascota 1 "Rex" "dog" "lab" 3 (Some 1)] /\
  (forall m, In m (mascotas (db mundo_registro)) -> 0 <= fm_edad m).
Proof.
  split; [exact alcanzable_mundo_registro|].
  split; [reflexivity|].
  exact (proj1 (C8_edad_no_negativa mundo_registro alcanzable_mundo_registro)).
Defined.

(** ** Visit listings are in descending date order (C6) *)

Lemma insertar_desc_In (x y : FilaConsulta * string) (l : list (FilaConsulta * string)) :
  In y (insertar_desc x l) -> y = x \/ In y l.
Proof.
  induction l as [|z l IH]; cbn.
  - intros [<- | []]. now left.
  - destruct (String.leb _ _); cbn.
    + intros [<- | H]; auto.
    + intros [<- | H]; [right; now left|].
      destruct (IH H); auto.
Qed.

Lemma ORDER_BY_In (y : FilaConsulta * string) (l : list (FilaConsulta * string)) :
  In y (ORDER_BY_fecha_DESC l) -> In y l.
Proof.
  induction l as [|x l IH]; cbn; [auto|].
  intros H. apply insertar_desc_In in H. destruct H as [-> | H]; auto.
Qed.

Lemma insertar_desc_Sorted (x : FilaConsulta * string) (l : list (FilaConsulta * string)) :
  Sorted texto_desc l -> Sorted texto_desc (insertar_desc x l).
Proof.
  induction 1 as [|y l Hs IH Hhd]; cbn.
  - constructor; constructor.
  - destruct (String.leb (fc_fecha (fst y)) (fc_fecha (fst x))) eqn:E.
    + constructor; [constructor; assumption|]. constructor. exact E.
    + constructor; [assumption|].
      assert (Hxy : texto_desc y x).
      { unfold texto_desc.
        destruct (String.leb_total (fc_fecha (fst y)) (fc_fecha (fst x))) as [H'|H'];
          [congruence | exact H']. }
      destruct l as [|z l]; cbn.
      * constructor. exact Hxy.
      * destruct (String.leb (fc_fecha (fst z)) (fc_fecha (fst x))).
        -- constructor. exact Hxy.
        -- constructor. inversion Hhd; assumption.
Qed.

(** The result of ORDER BY is in descending text order. *)
Lemma ORDER_BY_Sorted (l : list (FilaConsulta * string)) :
  Sorted texto_desc (ORDER_BY_fecha_DESC l).
Proof.
  induction l as [|x l IH]; cbn; [constructor|].
  now apply insertar_desc_Sorted.
Qed.

Lemma in_consultas_JOIN (b : BaseDatos) (f : FilaConsulta * string) :
  In f (consultas_JOIN_mascotas b) -> In (fst f) (consultas b).
Proof.
  unfold consultas_JOIN_mascotas. rewrite in_flat_map.
  intros [c [Hc Hin]]. apply in_map_iff in Hin. destruct Hin as [m [<- _]]. exact Hc.
Qed.

(** Rows with ISO dates all go through [Consulta.__init__], and the
    dates of the objects are the dates the texts stand for. *)
Lemma consultas_de_filas_iso (rows : list (FilaConsulta * string)) :
  (forall r, In r rows -> es_fecha_iso (fc_fecha (fst r)) = true) ->
  exists l, consultas_de_filas rows = Ret l /\
            Forall2 (fun r c => fecha_valida (c_fecha c) /\
                                fc_fecha (fst r) = strftime_Ymd (c_fecha c)) rows l.
Proof.
  induction rows as [|r rows IH]; intros Hiso; cbn.
  - exists []. split; [reflexivity | constructor].
  - destruct (es_fecha_iso_elim _ (Hiso r (or_introl eq_refl))) as [d (Hv & Hs & Hp)].
    destruct IH as [l [Hl HF]]; [intros; apply Hiso; now right|].
    unfold consulta_de_fila, Consulta_init. rewrite Hp, Hl.
    eexists. split; [reflexivity|]. constructor; [|exact HF]. cbn. auto.
Qed.

Lemma Sorted_Forall2 {A B : Type} (P : A -> B -> Prop) (R : A -> A -> Prop)
    (S : B -> B -> Prop) (l : list A) (l' : list B) :
  (forall a a' b b', P a b -> P a' b' -> R a a' -> S b b') ->
  Forall2 P l l' -> Sorted R l -> Sorted S l'.
Proof.
  intros HPS HF. induction HF as [|a b l l' Hab HF IH]; intros Hs; [constructor|].
  inversion Hs as [|? ? Hs' Hhd]; subst.
  constructor; [auto|].
  destruct HF as [|a' b' l l' Hab' HF]; constructor.
  inversion Hhd; subst. eapply HPS; eassumption.
Qed.

(** Whenever every visit row carries an ISO date, the listing returns
    and is in descending date order. *)
Lemma consultas_ordenadas_si_iso (w : Mundo) (mascota_id : option Z) :
  (forall c, In c (consultas (db w)) -> es_fecha_iso (fc_fecha c) = true) ->
  exists l, fst (get_consultas_by_mascota_id mascota_id w) = Ret l /\
            Sorted fecha_desc l.
Proof.
  intros Hiso.
  unfold get_consultas_by_mascota_id, execute_SELECT_consultas_JOIN_mascota. desplegar.
  caso_falla; [exists []; split; [reflexivity | constructor]|].
  caso_falla; [exists []; split; [reflexivity | constructor]|].
  match goal with
  | |- context [consultas_de_filas ?rows] =>
      destruct (consultas_de_filas_iso rows) as [l [Hl HF]];
      [| rewrite Hl; exists l; split; [reflexivity|];
         refine (Sorted_Forall2 _ texto_desc fecha_desc _ _ _ HF (ORDER_BY_Sorted _)) ]
  end.
  - intros r Hr. apply ORDER_BY_In in Hr. apply filter_In in Hr. destruct Hr as [Hr _].
    apply Hiso. now apply in_consultas_JOIN.
  - intros a a' c c' [Hv Ha] [Hv' Ha'] Hle. unfold texto_desc in Hle. unfold fecha_desc.
    rewrite Ha, Ha', leb_strftime_Ymd in Hle by assumption. exact Hle.
Qed.



(** ** What does hold of reading a visit back *)

Lemma max_rowid_cota (ids : list Z) (x : Z) : In x ids -> x <= max_rowid ids.
Proof.
  unfold max_rowid.
  induction ids as [|y ids IH]; cbn [fold_right In]; [contradiction|].
  intros [-> | H]; [apply Z.le_max_l|].
  specialize (IH H). etransitivity; [exact IH | apply Z.le_max_r].
Qed.

Lemma nuevo_rowid_fresco (seq : Z) (ids : list Z) (id x : Z) :
  nuevo_rowid seq ids = Some id -> In x ids -> x <> id.
Proof.
  unfold nuevo_rowid. destruct (_ <=? MAX_ROWID); [|discriminate].
  intros H Hin. inversion H; subst. pose proof (max_rowid_cota ids x Hin). lia.
Qed.

Lemma flat_map_app_dist {A B : Type} (f : A -> list B) (l l' : list A) :
  flat_map f (l ++ l') = (flat_map f l ++ flat_map f l')%list.
Proof. induction l as [|a l IH]; cbn; [reflexivity|]. now rewrite IH, app_assoc. Qed.

(** On a connection without faults, a visit with a valid date for a pet
    whose row is in the store reads back, by the id that the insert
    assigned, with the same date. *)
Lemma insert_consulta_ida_y_vuelta (b : BaseDatos) (fk : bool) (log : list sentencia)
    (t : list string) (c c' : Consulta) (m : FilaMascota) :
  fecha_valida (c_fecha c) ->
  In m (mascotas b) ->
  c_mascota_id c = Some (fm_id m) ->
  fst (insert_consulta c (sesion b fk [] log t)) = Ret (Some c') ->
  exists c'',
    fst (get_consulta_by_id (c_id c') (snd (insert_consulta c (sesion b fk [] log t))))
      = Ret (Some c'') /\
    c_fecha c'' = c_fecha c.
Proof.
  intros Hv Hm Hid.
  unfold insert_consulta, execute_INSERT_consultas. desplegar.
  unfold falla. cbn.
  destruct (nuevo_rowid (seq_consultas b) (map fc_id (consultas b))) as [id|] eqn:Hid';
    [|cbn; discriminate].
  destruct (fk && negb (existe_mascota (c_mascota_id c) b)); cbn; [discriminate|].
  intros H. inversion H; subst c'; clear H. cbn [c_id].
  unfold get_consulta_by_id, execute_SELECT_consultas_JOIN_id. desplegar.
  unfold falla. cbn.
  unfold consultas_JOIN_mascotas. cbn [consultas mascotas].
  rewrite flat_map_app_dist, filter_app.
  rewrite (filter_ninguna _ (flat_map _ (consultas b))).
  - cbn [flat_map app]. rewrite app_nil_r. cbn [fc_id_mascota]. rewrite Hid.
    assert (Hne : exists m' resto,
               filter (fun m0 => ref_eqb (Some (fm_id m)) (fm_id m0)) (mascotas b)
               = m' :: resto).
    { destruct (filter _ (mascotas b)) as [|m' resto] eqn:E; [|eauto].
      exfalso. assert (Hin : In m (filter (fun m0 => ref_eqb (Some (fm_id m)) (fm_id m0))
                                          (mascotas b))).
      { apply filter_In. split; [assumption|]. cbn. apply Z.eqb_refl. }
      rewrite E in Hin. destruct Hin. }
    destruct Hne as [m' [resto ->]]. cbn [map filter fst fc_id ref_eqb].
    rewrite Z.eqb_refl. cbn [hd_error].
    unfold consulta_de_fila, Consulta_init. cbn [fst fc_fecha].
    rewrite strptime_strftime_Ymd by assumption. cbn.
    eexists. split; reflexivity.
  - intros f Hf. apply in_flat_map in Hf. destruct Hf as [x [Hx Hf]].
    apply in_map_iff in Hf. destruct Hf as [m0 [<- _]]. cbn.
    apply Z.eqb_neq. intro E.
    apply (nuevo_rowid_fresco _ _ id (fc_id x) Hid'); [now apply in_map | auto].
Qed.

(** ** What does hold of the lookup by name *)

(** [%] matches the empty run or one more character. *)
Lemma like_porcentaje (p t : string) :
  like (String "%" p) t =
  like p t || match t with
              | EmptyString => false
              | String _ t' => like (String "%" p) t'
              end.
Proof. destruct t; reflexivity. Qed.

(** Every text matches itself as a pattern. *)
Lemma like_refl (s : string) : like s s = true.
Proof.
  induction s as [|c s IH]; [reflexivity|].
  destruct (Ascii.eqb c "%") eqn:E.
  - apply Ascii.eqb_eq in E. subst c.
    rewrite like_porcentaje. apply orb_true_iff. right.
    rewrite like_porcentaje, IH. reflexivity.
  - cbn [like]. rewrite E. unfold nocase_eqb.
    rewrite Ascii.eqb_refl, orb_true_r, IH. reflexivity.
Qed.

(** Without wildcards in the pattern, LIKE is equality up to the case of
    ASCII letters. *)
Lemma like_sin_comodines (pat s : string) :
  sin_comodines pat = true ->
  like pat s = String.eqb (PyStr.lower pat) (PyStr.lower s).
Proof.
  revert s. induction pat as [|c pat IH]; intros s Hsc.
  - destruct s; reflexivity.
  - cbn in Hsc. apply andb_prop in Hsc. destruct Hsc as [Hsc Hpat].
    apply andb_prop in Hsc. destruct Hsc as [Hp Hu].
    apply negb_true_iff in Hp, Hu.
    cbn [like]. rewrite Hp. destruct s as [|d s]; [reflexivity|].
    rewrite Hu. cbn [orb PyStr.lower String.eqb]. unfold nocase_eqb.
    rewrite (IH s Hpat).
    destruct (Ascii.eqb (PyStr.lower_char c) (PyStr.lower_char d)); reflexivity.
Qed.

(** On a connection without faults, the name of a stored owner always
    finds an owner. *)
Lemma get_propietario_by_nombre_existente (w : Mundo) (r : FilaPropietario) :
  fallos w = [] ->
  In r (propietarios (db w)) ->
  exists p, fst (get_propietario_by_nombre (fp_nombre r) w) = Ret (Some p).
Proof.
  intros Hf Hin.
  unfold get_propietario_by_nombre, execute_SELECT_propietarios_LIKE. desplegar.
  rewrite falla_sin_fallos by (cbn; assumption). cbn.
  rewrite falla_sin_fallos by (cbn; assumption). cbn.
  destruct (filter _ _) as [|r' l] eqn:E.
  - exfalso. assert (Hin' : In r (filter (fun r0 => like (fp_nombre r) (fp_nombre r0))
                                         (propietarios (db w)))).
    { apply filter_In. split; [assumption | apply like_refl]. }
    rewrite E in Hin'. destruct Hin'.
  - cbn. eexists. reflexivity.
Qed.

(** On a connection without faults, a query without wildcards finds an
    owner exactly when a stored name equals it up to the case of ASCII
    letters, and the owner found has such a name. *)
Lemma get_propietario_by_nombre_sin_comodines (w : Mundo) (nombre : string) :
  fallos w = [] ->
  sin_comodines nombre = true ->
  (forall p, fst (get_propietario_by_nombre nombre w) = Ret (Some p) ->
             PyStr.lower (p_nombre p) = PyStr.lower nombre /\
             exists r, In r (propietarios (db w)) /\ p = propietario_de_fila r) /\
  (fst (get_propietario_by_nombre nombre w) = Ret None ->
   forall r, In r (propietarios (db w)) ->
             PyStr.lower (fp_nombre r) <> PyStr.lower nombre) /\
  (exists o, fst (get_propietario_by_nombre nombre w) = Ret o).
Proof.
  intros Hf Hsc.
  unfold get_propietario_by_nombre, execute_SELECT_propietarios_LIKE. desplegar.
  rewrite falla_sin_fallos by (cbn; assumption). cbn.
  rewrite falla_sin_fallos by (cbn; assumption). cbn.
  destruct (filter _ _) as [|r' l] eqn:E; cbn.
  - split; [discriminate|]. split; [|eauto].
    intros _ r Hin Heq.
    assert (Hin' : In r (filter (fun r0 => like nombre (fp_nombre r0))
                                (propietarios (db w)))).
    { apply filter_In. split; [assumption|].
      rewrite like_sin_comodines by assumption. apply String.eqb_eq. auto. }
    rewrite E in Hin'. destruct Hin'.
  - split; [|split; [discriminate | eauto]].
    intros p H. inversion H; subst p; clear H.
    assert (Hin' : In r' (filter (fun r0 => like nombre (fp_nombre r0))
                                 (propietarios (db w))))
      by (rewrite E; now left).
    apply filter_In in Hin'. destruct Hin' as [Hin' Hl].
    rewrite like_sin_comodines in Hl by assumption. apply String.eqb_eq in Hl.
    split; [cbn; auto | eauto].
Qed.

(** ** What does hold of renaming an owner *)

(** The reads leave the tables alone and log one SELECT. *)
Lemma get_propietario_by_nombre_solo_lee (nombre : string) (w : Mundo) :
  db (snd (get_propietario_by_nombre nombre w)) = db w /\
  confirmada (snd (get_propietario_by_nombre nombre w)) = confirmada w /\
  stdin (snd (get_propietario_by_nombre nombre w)) = stdin w /\
  sql_log (snd (get_propietario_by_nombre nombre w))
    = SELECT_propietarios_LIKE nombre :: sql_log w.
Proof.
  unfold get_propietario_by_nombre, execute_SELECT_propietarios_LIKE. desplegar.
  caso_falla; [auto|]. caso_falla; [auto|]. destruct (hd_error _); cbn; auto.
Qed.

(** The guard of the update workflow: when the lookup of the new name
    returns an owner with another id, the workflow ends there, in the
    state the lookup left: nothing but the two SELECTs was executed. *)
Lemma actualizar_propietario_rechaza (w w1 w2 : Mundo) (p e : Propietario)
    (linea : string) (resto : list string) :
  _get_propietario w = (Ret (Some p), w1) ->
  stdin w1 = linea :: resto ->
  PyStr.truthy (PyStr.strip linea) = true ->
  get_propietario_by_nombre (PyStr.strip linea) (con_stdin resto w1) = (Ret (Some e), w2) ->
  otro_id (p_id e) (p_id p) = true ->
  actualizar_propietario w = (Ret tt, w2) /\
  db w2 = db w1 /\
  sql_log w2 = SELECT_propietarios_LIKE (PyStr.strip linea) :: sql_log w1.
Proof.
  intros Hget Hin Htruthy Hlook Hotro.
  split.
  - unfold actualizar_propietario, bind at 1. rewrite Hget.
    unfold bind at 1. unfold UIUtils.input at 1. rewrite Hin. cbv zeta.
    rewrite Htruthy. unfold bind at 1. unfold bind at 1. rewrite Hlook.
    rewrite Hotro. reflexivity.
  - pose proof (get_propietario_by_nombre_solo_lee (PyStr.strip linea) (con_stdin resto w1))
      as (Hdb & _ & _ & Hlog).
    rewrite Hlook in Hdb, Hlog. cbn in Hdb, Hlog. auto.
Qed.

Lemma nombres_unicos_inj (l : list FilaPropietario) (x y : FilaPropietario) :
  nombres_unicos l = true ->
  In x l -> In y l -> fp_nombre x = fp_nombre y -> x = y.
Proof.
  induction l as [|a l IH]; cbn; [contradiction|].
  intros H Hx Hy Hn. apply andb_prop in H. destruct H as [Hno Hu].
  apply negb_true_iff in Hno.
  assert (Hfuera : forall z, In z l -> fp_nombre z <> fp_nombre a).
  { intros z Hz E. assert (nombre_en (fp_nombre a) l = true)
      by (apply nombre_en_iff; eauto). congruence. }
  destruct Hx as [-> | Hx], Hy as [-> | Hy]; auto.
  - exfalso. apply (Hfuera y Hy). auto.
  - exfalso. apply (Hfuera x Hx). auto.
Qed.

Lemma aplicar_p_id (sc : list asig_propietario) (r : FilaPropietario) :
  fp_id (fold_left aplicar_p sc r) = fp_id r.
Proof.
  revert r. induction sc as [|a sc IH]; intros r; cbn; [reflexivity|].
  rewrite IH. destruct a; reflexivity.
Qed.

Lemma aplicar_p_nombre (sc : list asig_propietario) (r : FilaPropietario) (n : string) :
  (forall v, In (Set_p_nombre v) sc -> v = n) ->
  (exists v, In (Set_p_nombre v) sc) ->
  fp_nombre (fold_left aplicar_p sc r) = n.
Proof.
  intros Hall Hex.
  assert (Hgen : forall sc r, (forall v, In (Set_p_nombre v) sc -> v = n) ->
                              (fp_nombre r = n \/ exists v, In (Set_p_nombre v) sc) ->
                              fp_nombre (fold_left aplicar_p sc r) = n).
  { clear. induction sc as [|a sc IH]; intros r Hall H; cbn.
    - destruct H as [H | [v []]]; assumption.
    - apply IH; [intros v Hv; apply Hall; now right|].
      destruct a as [v|v|v]; cbn.
      + left. apply Hall. now left.
      + destruct H as [H | [v' [H | H]]]; [now left | discriminate | right; eauto].
      + destruct H as [H | [v' [H | H]]]; [now left | discriminate | right; eauto]. }
  apply Hgen; auto.
Qed.

(** The store refuses a rename to the name of another owner row: the
    UPDATE violates the UNIQUE constraint and nothing changes. *)
Lemma update_propietario_nombre_ajeno (b : BaseDatos) (fk : bool)
    (f : list (option sqlite_error)) (log : list sentencia) (t : list string)
    (i : Z) (new_data : list asig_propietario) (n : string) (r : FilaPropietario) :
  In r (propietarios b) -> fp_nombre r = n -> fp_id r <> i ->
  (forall v, In (Set_p_nombre v) new_data -> v = n) ->
  (exists v, In (Set_p_nombre v) new_data) ->
  fst (update_propietario (Some i) new_data (sesion b fk f log t)) = Ret false /\
  db (snd (update_propietario (Some i) new_data (sesion b fk f log t))) = b.
Proof.
  intros Hr Hn Hid Hall Hex.
  unfold update_propietario, execute_UPDATE_propietarios, sesion. desplegar.
  caso_falla; [auto|].
  destruct new_data as [|a nd]; [auto|]. cbv iota.
  set (new_data := a :: nd) in *.
  cbn [db confirmada fallos sql_log con_db con_confirmada con_fallos con_sql_log].
  destruct (filter _ (propietarios b)) as [|r0 l0] eqn:Ef.
  - cbn. caso_falla; auto.
  - match goal with
    | |- context [nombres_unicos ?nuevas] =>
        destruct (nombres_unicos nuevas) eqn:Eu; [exfalso | cbn; auto]
    end.
    assert (H0 : In r0 (filter (fun r1 => ref_eqb (Some i) (fp_id r1)) (propietarios b)))
      by (rewrite Ef; now left).
    apply filter_In in H0. destruct H0 as [H0 Hi0]. cbn in Hi0. apply Z.eqb_eq in Hi0.
    set (upd := fun r1 : FilaPropietario =>
                  if ref_eqb (Some i) (fp_id r1) then fold_left aplicar_p new_data r1
                  else r1) in *.
    assert (Hr' : In (upd r) (map upd (propietarios b))) by now apply in_map.
    assert (Hr0' : In (upd r0) (map upd (propietarios b))) by now apply in_map.
    assert (Eupd_r : upd r = r).
    { unfold upd. cbn. replace (i =? fp_id r) with false; [reflexivity|].
      symmetry. apply Z.eqb_neq. auto. }
    assert (Eupd_r0 : upd r0 = fold_left aplicar_p new_data r0).
    { unfold upd. cbn. rewrite Hi0, Z.eqb_refl. reflexivity. }
    assert (Eq : upd r = upd r0).
    { apply (nombres_unicos_inj _ _ _ Eu Hr' Hr0').
      rewrite Eupd_r, Eupd_r0, (aplicar_p_nombre new_data r0 n Hall Hex). exact Hn. }
    rewrite Eupd_r, Eupd_r0 in Eq. apply Hid.
    rewrite Eq, aplicar_p_id. symmetry. exact Hi0.
Qed.

(** ** The delete of an owner, in general *)

(** In every state the program reaches, foreign keys are not enforced. *)
Lemma alcanzable_sin_foreign_keys (w : Mundo) :
  alcanzable w -> foreign_keys w = false.
Proof. intros Hw. apply (alcanzable_sano w Hw). Qed.

Lemma filter_id_unica (l : list FilaPropietario) (r : FilaPropietario) :
  NoDup (map fp_id l) -> In r l ->
  filter (fun x => ref_eqb (Some (fp_id r)) (fp_id x)) l = [r].
Proof.
  induction l as [|a l IH]; cbn [map In filter]; intros Hnd Hin; [contradiction|].
  inversion Hnd as [|? ? Hnotin Hnd']; subst.
  destruct Hin as [-> | Hin].
  - cbn [ref_eqb]. rewrite Z.eqb_refl. f_equal.
    apply filter_ninguna. intros x Hx. cbn. apply Z.eqb_neq. intro E.
    apply Hnotin. rewrite E. now apply in_map.
  - cbn [ref_eqb]. replace (fp_id r =? fp_id a) with false; [now apply IH|].
    symmetry. apply Z.eqb_neq. intro E. apply Hnotin. rewrite <- E. now apply in_map.
Qed.

(** Without foreign-key enforcement and without faults, the delete of an
    owner whose row is in the store returns [True] and removes that one
    row, however many pets and visits hang from it. *)
Lemma delete_propietario_quita_una_fila (b : BaseDatos) (log : list sentencia)
    (t : list string) (r : FilaPropietario) :
  NoDup (map fp_id (propietarios b)) ->
  In r (propietarios b) ->
  fst (delete_propietario (Some (fp_id r)) (sesion b false [] log t)) = Ret true /\
  total_filas b
    - total_filas (db (snd (delete_propietario (Some (fp_id r)) (sesion b false [] log t))))
    = 1.
Proof.
  intros Hnd Hin.
  unfold delete_propietario, execute_DELETE_propietarios, sesion. desplegar.
  unfold falla. cbn [fallos db confirmada foreign_keys sql_log con_sql_log con_db fst snd].
  rewrite (filter_id_unica _ r Hnd Hin).
  cbn [fst snd db con_db con_confirmada fallos List.length Z.of_nat].
  split; [reflexivity|].
  unfold total_filas. cbn -[Z.of_nat Z.sub filter].
  pose proof (filter_length (fun x => ref_eqb (Some (fp_id r)) (fp_id x)) (propietarios b))
    as Hlen.
  rewrite (filter_id_unica _ r Hnd Hin) in Hlen. cbn [List.length ref_eqb] in Hlen.
  lia.
Qed.

(** ** Writes read back *)

Lemma filter_fresco {A : Type} (f : A -> Z) (l : list A) (id : Z) :
  (forall x, In x l -> f x <> id) ->
  filter (fun x => ref_eqb (Some id) (f x)) l = [].
Proof.
  intros H. apply filter_ninguna. intros x Hx. cbn. apply Z.eqb_neq.
  intro E. apply (H x Hx). auto.
Qed.

Lemma nuevo_rowid_disponible (seq : Z) (ids : list Z) :
  Z.max seq (max_rowid ids) < MAX_ROWID ->
  nuevo_rowid seq ids = Some (Z.max seq (max_rowid ids) + 1).
Proof.
  intros H. unfold nuevo_rowid.
  replace (_ <=? MAX_ROWID) with true; [reflexivity|].
  symmetry. apply Z.leb_le. lia.
Qed.

Lemma nombre_en_false (nombre : string) (l : list FilaPropietario) :
  (forall r, In r l -> fp_nombre r <> nombre) -> nombre_en nombre l = false.
Proof.
  intros H. destruct (nombre_en nombre l) eqn:E; [|reflexivity].
  apply nombre_en_iff in E. destruct E as [r [Hr Hn]]. exfalso. exact (H r Hr Hn).
Qed.

(** On a connection without faults, an owner with a name that no row
    carries is inserted under an id above every id in the table, as one
    more row at the end; pets and visits are as they were, and the read
    by that id returns the owner with the id. *)
Lemma insert_propietario_y_lectura (b : BaseDatos) (fk : bool) (log : list sentencia)
    (t : list string) (p : Propietario) :
  (forall r, In r (propietarios b) -> fp_nombre r <> p_nombre p) ->
  Z.max (seq_propietarios b) (max_rowid (map fp_id (propietarios b))) < MAX_ROWID ->
  exists id,
    let nuevo := mkPropietario (Some id) (p_nombre p) (p_telefono p) (p_direccion p) in
    let w' := snd (insert_propietario p (sesion b fk [] log t)) in
    fst (insert_propietario p (sesion b fk [] log t)) = Ret (Some nuevo) /\
    (forall r, In r (propietarios b) -> fp_id r < id) /\
    propietarios (db w')
      = (propietarios b
         ++ [mkFilaPropietario id (p_nombre p) (p_telefono p) (p_direccion p)])%list /\
    mascotas (db w') = mascotas b /\ consultas (db w') = consultas b /\
    fst (get_propietario_by_id (Some id) w') = Ret (Some nuevo).
Proof.
  intros Hnombre Hid.
  exists (Z.max (seq_propietarios b) (max_rowid (map fp_id (propietarios b))) + 1).
  cbv zeta.
  assert (Hfresco : forall r, In r (propietarios b) ->
            fp_id r < Z.max (seq_propietarios b) (max_rowid (map fp_id (propietarios b))) + 1).
  { intros r Hr. pose proof (max_rowid_cota (map fp_id (propietarios b)) (fp_id r)
                               (in_map fp_id _ _ Hr)). lia. }
  unfold insert_propietario, execute_INSERT_propietarios, sesion. desplegar.
  unfold falla. cbn [fallos db confirmada sql_log con_sql_log con_db con_confirmada fst snd].
  rewrite (nuevo_rowid_disponible _ _ Hid), (nombre_en_false _ _ Hnombre).
  cbn [fst snd db con_db con_confirmada fallos propietarios mascotas consultas].
  repeat split; auto.
  unfold get_propietario_by_id, execute_SELECT_propietarios_id. desplegar.
  unfold falla. cbn [fallos db confirmada sql_log con_sql_log con_db con_confirmada fst snd
                       propietarios].
  rewrite filter_app, filter_fresco.
  - cbn. rewrite Z.eqb_refl. reflexivity.
  - intros x Hx. specialize (Hfresco x Hx). lia.
Qed.

(** Rows of a join that carry the key of one left row: that row paired
    with each of its matches. *)
Lemma filter_flat_map_id {A B : Type} (ida : A -> Z) (g : A -> list B)
    (l : list A) (c : A) :
  NoDup (map ida l) -> In c l ->
  filter (fun f : A * B => ref_eqb (Some (ida c)) (ida (fst f)))
         (flat_map (fun a => map (fun x => (a, x)) (g a)) l)
  = map (fun x => (c, x)) (g c).
Proof.
  assert (Hsi : forall a, ida a = ida c ->
            filter (fun f : A * B => ref_eqb (Some (ida c)) (ida (fst f)))
                   (map (fun x => (a, x)) (g a)) = map (fun x => (a, x)) (g a)).
  { intros a E. induction (g a) as [|x xs IH]; cbn; [reflexivity|].
    rewrite E, Z.eqb_refl. f_equal. exact IH. }
  assert (Hno : forall a, ida a <> ida c ->
            filter (fun f : A * B => ref_eqb (Some (ida c)) (ida (fst f)))
                   (map (fun x => (a, x)) (g a)) = []).
  { intros a E. apply filter_ninguna. intros f Hf. apply in_map_iff in Hf.
    destruct Hf as [x [<- _]]. cbn. apply Z.eqb_neq. auto. }
  induction l as [|a l IH]; cbn [map flat_map In]; intros Hnd Hin; [contradiction|].
  inversion Hnd as [|? ? Hnotin Hnd']; subst.
  rewrite filter_app. destruct Hin as [-> | Hin].
  - rewrite (Hsi c eq_refl).
    rewrite (filter_ninguna _ (flat_map _ l)); [apply app_nil_r|].
    intros f Hf. apply in_flat_map in Hf. destruct Hf as [a [Ha Hf]].
    apply in_map_iff in Hf. destruct Hf as [x [<- _]]. cbn. apply Z.eqb_neq.
    intro E. apply Hnotin. rewrite E. now apply in_map.
  - rewrite Hno, (IH Hnd' Hin); [reflexivity|].
    intro E. apply Hnotin. rewrite E. now apply in_map.
Qed.

Lemma consultas_JOIN_forma (b : BaseDatos) :
  consultas_JOIN_mascotas b
  = flat_map (fun c => map (fun x => (c, x))
                           (map fm_nombre
                                (filter (fun m => ref_eqb (fc_id_mascota c) (fm_id m))
                                        (mascotas b))))
             (consultas b).
Proof.
  unfold consultas_JOIN_mascotas. apply flat_map_ext. intros c.
  now rewrite map_map.
Qed.

Lemma mascotas_JOIN_forma (b : BaseDatos) :
  mascotas_JOIN_propietarios b
  = flat_map (fun m => map (fun x => (m, x))
                           (map fp_nombre
                                (filter (fun p => ref_eqb (fm_id_propietario m) (fp_id p))
                                        (propietarios b))))
             (mascotas b).
Proof.
  unfold mascotas_JOIN_propietarios. apply flat_map_ext. intros c.
  now rewrite map_map.
Qed.

(** The rows that [WHERE c.id = ?] keeps of the visits join. *)
Lemma consultas_JOIN_por_id (b : BaseDatos) (c : FilaConsulta) :
  NoDup (map fc_id (consultas b)) -> In c (consultas b) ->
  filter (fun f => ref_eqb (Some (fc_id c)) (fc_id (fst f))) (consultas_JOIN_mascotas b)
  = map (fun m => (c, fm_nombre m))
        (filter (fun m => ref_eqb (fc_id_mascota c) (fm_id m)) (mascotas b)).
Proof.
  intros Hnd Hin. rewrite consultas_JOIN_forma.
  rewrite (filter_flat_map_id fc_id _ _ c Hnd Hin). now rewrite map_map.
Qed.

(** The rows that [WHERE m.id = ?] keeps of the pets join. *)
Lemma mascotas_JOIN_por_id (b : BaseDatos) (m : FilaMascota) :
  NoDup (map fm_id (mascotas b)) -> In m (mascotas b) ->
  filter (fun f => ref_eqb (Some (fm_id m)) (fm_id (fst f))) (mascotas_JOIN_propietarios b)
  = map (fun p => (m, fp_nombre p))
        (filter (fun p => ref_eqb (fm_id_propietario m) (fp_id p)) (propietarios b)).
Proof.
  intros Hnd Hin. rewrite mascotas_JOIN_forma.
  rewrite (filter_flat_map_id fm_id _ _ m Hnd Hin). now rewrite map_map.
Qed.

(** On a connection without faults, a pet row with its owner row in the
    store is read by id with all its columns and the owner's name. *)
Lemma get_mascota_by_id_presente (w : Mundo) (m : FilaMascota) (o : FilaPropietario) :
  fallos w = [] ->
  NoDup (map fm_id (mascotas (db w))) ->
  NoDup (map fp_id (propietarios (db w))) ->
  In m (mascotas (db w)) -> In o (propietarios (db w)) ->
  fm_id_propietario m = Some (fp_id o) ->
  fst (get_mascota_by_id (Some (fm_id m)) w)
  = Ret (Some (mkMascota (Some (fm_id m)) (fm_nombre m) (fm_especie m) (fm_raza m)
                         (fm_edad m) (Some (fp_id o)) (Some (fp_nombre o)))).
Proof.
  intros Hf Hndm Hndp Hm Ho Href.
  unfold get_mascota_by_id, execute_SELECT_mascotas_JOIN_id. desplegar.
  rewrite falla_sin_fallos by (cbn; assumption). cbn [fst snd db con_sql_log].
  rewrite falla_sin_fallos by (cbn; assumption). cbn [fst snd].
  rewrite (mascotas_JOIN_por_id _ m Hndm Hm), Href, (filter_id_unica _ o Hndp Ho).
  cbn. unfold mascota_de_fila, Mascota_init. cbn. rewrite Href. reflexivity.
Qed.


Lemma filter_no_vacio {A : Type} (f : A -> bool) (l : list A) (x : A) :
  In x l -> f x = true -> exists y resto, filter f l = y :: resto /\ In y l /\ f y = true.
Proof.
  intros Hin Hf. destruct (filter f l) as [|y resto] eqn:E.
  - exfalso. assert (H : In x (filter f l)) by (apply filter_In; auto).
    rewrite E in H. destruct H.
  - exists y, resto. split; [reflexivity|].
    assert (H : In y (filter f l)) by (rewrite E; now left).
    apply filter_In in H. exact H.
Qed.

(** On a connection without faults, a visit row whose pet row is in the
    store is read by id through [Consulta.__init__]: with the date its
    text stands for when the text is a [%Y-%m-%d] date, and with
    [ValueError], which the method does not catch, when it is not. *)
Lemma get_consulta_by_id_presente (w : Mundo) (c : FilaConsulta) (m : FilaMascota) :
  fallos w = [] ->
  NoDup (map fc_id (consultas (db w))) ->
  In c (consultas (db w)) -> In m (mascotas (db w)) ->
  fc_id_mascota c = Some (fm_id m) ->
  match strptime_Ymd (fc_fecha c) with
  | Some d =>
      exists m',
        In m' (mascotas (db w)) /\ fm_id m' = fm_id m /\
        fst (get_consulta_by_id (Some (fc_id c)) w)
        = Ret (Some (mkConsulta (Some (fc_id c)) d (fc_motivo c) (fc_diagnostico c)
                                (Some (fm_id m)) (Some (fm_nombre m'))))
  | None => fst (get_consulta_by_id (Some (fc_id c)) w) = Raise ValueError
  end.
Proof.
  intros Hf Hnd Hc Hm Href.
  unfold get_consulta_by_id, execute_SELECT_consultas_JOIN_id. desplegar.
  rewrite falla_sin_fallos by (cbn; assumption). cbn [fst snd db con_sql_log].
  rewrite falla_sin_fallos by (cbn; assumption). cbn [fst snd].
  rewrite (consultas_JOIN_por_id _ c Hnd Hc), Href.
  destruct (filter_no_vacio (fun m0 => ref_eqb (Some (fm_id m)) (fm_id m0)) _ m Hm)
    as [m' [resto [-> [Hm' Hid']]]]; [cbn; apply Z.eqb_refl|].
  cbn in Hid'. apply Z.eqb_eq in Hid'.
  cbn [map hd_error]. unfold consulta_de_fila, Consulta_init. cbn [fst snd].
  destruct (strptime_Ymd (fc_fecha c)); cbn.
  - rewrite Href. exists m'. auto.
  - reflexivity.
Qed.

(** The objects of a listing come from its rows, one by one. *)
Lemma consultas_de_filas_ids (rows : list (FilaConsulta * string)) (l : list Consulta) :
  consultas_de_filas rows = Ret l ->
  forall x, In x l -> exists f, In f rows /\ c_id x = Some (fc_id (fst f)).
Proof.
  revert l. induction rows as [|f rows IH]; cbn [consultas_de_filas]; intros l H.
  - inversion H; subst. intros x [].
  - unfold consulta_de_fila, Consulta_init in H.
    destruct (strptime_Ymd (fc_fecha (fst f))) as [d|]; [|discriminate H].
    destruct (consultas_de_filas rows) as [cs|e] eqn:Ecs; [|discriminate H].
    inversion H; subst. intros x [<- | Hx].
    + exists f. split; [now left | reflexivity].
    + destruct (IH cs eq_refl x Hx) as [g [Hg Hid]]. exists g. split; [now right | exact Hid].
Qed.

(** A visit row whose [id_mascota] matches no pet row is not found by
    id and appears in no listing, though it is still in the table. *)
Lemma consulta_huerfana_fuera (w : Mundo) (c : FilaConsulta) :
  In c (consultas (db w)) ->
  NoDup (map fc_id (consultas (db w))) ->
  (forall m, In m (mascotas (db w)) -> fc_id_mascota c <> Some (fm_id m)) ->
  fst (get_consulta_by_id (Some (fc_id c)) w) = Ret None /\
  (forall mascota_id l,
      fst (get_consultas_by_mascota_id mascota_id w) = Ret l ->
      forall x, In x l -> c_id x <> Some (fc_id c)) /\
  In c (consultas (db (snd (get_consulta_by_id (Some (fc_id c)) w)))).
Proof.
  intros Hc Hnd Hhuerfana.
  assert (Hvacio : filter (fun m => ref_eqb (fc_id_mascota c) (fm_id m)) (mascotas (db w)) = []).
  { apply filter_ninguna. intros m Hm.
    destruct (ref_eqb (fc_id_mascota c) (fm_id m)) eqn:E; [|reflexivity].
    apply ref_eqb_true in E. exfalso. exact (Hhuerfana m Hm E). }
  assert (Hjoin : forall f, In f (consultas_JOIN_mascotas (db w)) -> fc_id (fst f) <> fc_id c).
  { intros f Hf E.
    assert (Hin : In f (filter (fun f0 => ref_eqb (Some (fc_id c)) (fc_id (fst f0)))
                               (consultas_JOIN_mascotas (db w)))).
    { apply filter_In. split; [assumption|]. cbn. apply Z.eqb_eq. auto. }
    rewrite (consultas_JOIN_por_id _ c Hnd Hc), Hvacio in Hin. destruct Hin. }
  split; [|split].
  - unfold get_consulta_by_id, execute_SELECT_consultas_JOIN_id. desplegar.
    caso_falla; [reflexivity|].
    rewrite (consultas_JOIN_por_id _ c Hnd Hc), Hvacio. cbn [map].
    caso_falla; reflexivity.
  - intros id l.
    unfold get_consultas_by_mascota_id, execute_SELECT_consultas_JOIN_mascota. desplegar.
    caso_falla; [intros H; inversion H; subst; intros x []|].
    caso_falla; [intros H; inversion H; subst; intros x []|].
    match goal with |- context [consultas_de_filas ?rows] => set (filas := rows) end.
    assert (Hfilas : forall f, In f filas -> fc_id (fst f) <> fc_id c).
    { intros f Hf. apply ORDER_BY_In in Hf. apply filter_In in Hf. apply Hjoin, Hf. }
    destruct (consultas_de_filas filas) as [cs|[e'| |]] eqn:Ecs; cbn;
      intros H; inversion H; subst; [|intros x []].
    intros x Hx. destruct (consultas_de_filas_ids _ _ Ecs x Hx) as [f [Hf Hid]].
    rewrite Hid. intro E. inversion E. apply (Hfilas f Hf). auto.
  - unfold get_consulta_by_id, execute_SELECT_consultas_JOIN_id. desplegar.
    caso_falla; [assumption|].
    rewrite (consultas_JOIN_por_id _ c Hnd Hc), Hvacio. cbn [map].
    caso_falla; assumption.
Qed.

Lemma aplicar_c_id (sc : list asig_consulta) (r : FilaConsulta) :
  fc_id (fold_left aplicar_c sc r) = fc_id r /\
  fc_id_mascota (fold_left aplicar_c sc r) = fc_id_mascota r.
Proof.
  revert r. induction sc as [|a sc IH]; intros r; cbn; [auto|].
  destruct (IH (aplicar_c r a)) as [-> ->]. destruct a; auto.
Qed.

Lemma aplicar_c_fecha_final (sc : list asig_consulta) (r : FilaConsulta) (s : string) :
  (forall v, In (Set_c_fecha v) sc -> texto_fecha v = s) ->
  (fc_fecha r = s \/ exists v, In (Set_c_fecha v) sc) ->
  fc_fecha (fold_left aplicar_c sc r) = s.
Proof.
  revert r. induction sc as [|a sc IH]; intros r Hall H; cbn.
  - destruct H as [H | [v []]]; assumption.
  - apply IH; [intros v Hv; apply Hall; now right|].
    destruct a as [v|v|v]; cbn.
    + left. apply Hall. now left.
    + destruct H as [H | [v' [H | H]]]; [now left | discriminate | right; eauto].
    + destruct H as [H | [v' [H | H]]]; [now left | discriminate | right; eauto].
Qed.

Lemma map_upd_ids {A : Type} (ida : A -> Z) (upd : A -> A) (i : option Z) (l : list A) :
  (forall x, ida (upd x) = ida x) ->
  map ida (map (fun r => if ref_eqb i (ida r) then upd r else r) l) = map ida l.
Proof.
  intros H. rewrite map_map. apply map_ext. intros x.
  destruct (ref_eqb i (ida x)); auto.
Qed.

(** What [update_consulta] does, on a connection without faults, to a
    visit row that exists: it returns [True] and rewrites that row. *)
Lemma update_consulta_efecto (b : BaseDatos) (fk : bool) (log : list sentencia)
    (t : list string) (c : FilaConsulta) (nd : list asig_consulta) :
  In c (consultas b) -> nd <> [] ->
  update_consulta (Some (fc_id c)) nd (sesion b fk [] log t)
  = (Ret true,
     sesion (mkBaseDatos (propietarios b) (mascotas b)
               (map (fun r => if ref_eqb (Some (fc_id c)) (fc_id r)
                              then fold_left aplicar_c (map fecha_a_texto nd) r else r)
                    (consultas b))
               (seq_propietarios b) (seq_mascotas b) (seq_consultas b))
            fk [] (UPDATE_consultas (map fecha_a_texto nd) (Some (fc_id c)) :: log) t).
Proof.
  intros Hc Hnd.
  unfold update_consulta, execute_UPDATE_consultas, sesion. desplegar.
  unfold falla. cbn [fallos db confirmada sql_log con_sql_log con_db con_confirmada fst snd].
  destruct nd as [|a nd]; [congruence|]. cbn [map].
  cbn [fallos db confirmada sql_log con_sql_log con_db con_confirmada fst snd].
  destruct (filter_no_vacio (fun r => ref_eqb (Some (fc_id c)) (fc_id r)) _ c Hc)
    as [y [resto [-> _]]]; [cbn; apply Z.eqb_refl|].
  cbn. reflexivity.
Qed.

(** On a connection without faults, [update_consulta] with a date (of a
    four-digit year) under ['fecha'] returns [True] for a visit that is
    in the store with its pet, and the visit then reads back by its id
    with that date. *)
Lemma update_consulta_fecha_y_lectura (b : BaseDatos) (fk : bool) (log : list sentencia)
    (t : list string) (c : FilaConsulta) (m : FilaMascota) (d : date)
    (nd : list asig_consulta) :
  NoDup (map fc_id (consultas b)) ->
  In c (consultas b) -> In m (mascotas b) ->
  fc_id_mascota c = Some (fm_id m) ->
  fecha_valida d -> 1000 <= year d ->
  In (Set_c_fecha (FechaDate d)) nd ->
  (forall v, In (Set_c_fecha v) nd -> v = FechaDate d) ->
  fst (update_consulta (Some (fc_id c)) nd (sesion b fk [] log t)) = Ret true /\
  exists c',
    fst (get_consulta_by_id (Some (fc_id c))
           (snd (update_consulta (Some (fc_id c)) nd (sesion b fk [] log t))))
      = Ret (Some c') /\
    c_fecha c' = d /\ c_id c' = Some (fc_id c).
Proof.
  intros Hnd Hc Hm Href Hd _ Hin Hall.
  rewrite update_consulta_efecto; [|assumption | intro E; rewrite E in Hin; destruct Hin].
  split; [reflexivity|]. cbn [snd].
  set (upd := fun r => if ref_eqb (Some (fc_id c)) (fc_id r)
                       then fold_left aplicar_c (map fecha_a_texto nd) r else r).
  set (c2 := fold_left aplicar_c (map fecha_a_texto nd) c).
  assert (Hc2 : upd c = c2).
  { unfold upd. cbn. rewrite Z.eqb_refl. reflexivity. }
  assert (Hid2 : fc_id c2 = fc_id c) by apply aplicar_c_id.
  assert (Href2 : fc_id_mascota c2 = Some (fm_id m))
    by (unfold c2; rewrite (proj2 (aplicar_c_id _ _)); exact Href).
  assert (Hfecha2 : fc_fecha c2 = strftime_Ymd d).
  { apply aplicar_c_fecha_final.
    - intros v Hv. apply in_map_iff in Hv. destruct Hv as [a [Ha Hina]].
      destruct a as [[d'|s]| |]; cbn in Ha; try discriminate.
      + inversion Ha; subst. cbn. specialize (Hall _ Hina). inversion Hall; subst. reflexivity.
      + specialize (Hall _ Hina). discriminate.
    - right. exists (FechaStr (strftime_Ymd d)).
      apply in_map_iff. exists (Set_c_fecha (FechaDate d)). split; [reflexivity | assumption]. }
  match goal with
  | |- context [get_consulta_by_id _ ?w] =>
      pose proof (get_consulta_by_id_presente w c2 m) as Hget
  end.
  cbn [fallos db sesion consultas mascotas] in Hget.
  rewrite Hid2 in Hget.
  rewrite Hfecha2, strptime_strftime_Ymd in Hget by assumption.
  destruct Hget as (m' & _ & _ & Hget); auto.
  - unfold upd.
    rewrite (map_upd_ids fc_id (fold_left aplicar_c (map fecha_a_texto nd)));
      [assumption | intros x; apply aplicar_c_id].
  - rewrite <- Hc2. apply in_map. assumption.
  - rewrite Hget. eexists. split; [reflexivity|]. cbn. auto.
Qed.

Lemma aplicar_p_sin_clave (sc : list asig_propietario) (r : FilaPropietario) :
  ((forall v, ~ In (Set_p_nombre v) sc) -> fp_nombre (fold_left aplicar_p sc r) = fp_nombre r) /\
  ((forall v, ~ In (Set_p_telefono v) sc) ->
   fp_telefono (fold_left aplicar_p sc r) = fp_telefono r) /\
  ((forall v, ~ In (Set_p_direccion v) sc) ->
   fp_direccion (fold_left aplicar_p sc r) = fp_direccion r).
Proof.
  revert r. induction sc as [|a sc IH]; intros r; cbn [fold_left]; [auto|].
  destruct (IH (aplicar_p r a)) as (Hn & Ht & Hd).
  repeat split; intros H.
  - rewrite Hn by (intros v Hv; apply (H v); now right).
    destruct a as [v|v|v]; cbn; auto. exfalso. apply (H v). now left.
  - rewrite Ht by (intros v Hv; apply (H v); now right).
    destruct a as [v|v|v]; cbn; auto. exfalso. apply (H v). now left.
  - rewrite Hd by (intros v Hv; apply (H v); now right).
    destruct a as [v|v|v]; cbn; auto. exfalso. apply (H v). now left.
Qed.

(** Partial update: when [update_propietario] returns [True], the row
    with that id keeps every column whose key is not in [new_data], and
    no other row of any table changes. *)
Lemma update_propietario_parcial (b : BaseDatos) (fk : bool)
    (f : list (option sqlite_error)) (log : list sentencia)
    (t : list string) (i : Z) (nd : list asig_propietario) (r : FilaPropietario) :
  fst (update_propietario (Some i) nd (sesion b fk f log t)) = Ret true ->
  In r (propietarios b) ->
  let b' := db (snd (update_propietario (Some i) nd (sesion b fk f log t))) in
  mascotas b' = mascotas b /\ consultas b' = consultas b /\
  (fp_id r <> i -> In r (propietarios b')) /\
  (fp_id r = i ->
   exists r', In r' (propietarios b') /\ fp_id r' = i /\
     ((forall v, ~ In (Set_p_nombre v) nd) -> fp_nombre r' = fp_nombre r) /\
     ((forall v, ~ In (Set_p_telefono v) nd) -> fp_telefono r' = fp_telefono r) /\
     ((forall v, ~ In (Set_p_direccion v) nd) -> fp_direccion r' = fp_direccion r)).
Proof.
  cbv zeta.
  unfold update_propietario, execute_UPDATE_propietarios, sesion. desplegar.
  caso_falla; [cbn; discriminate|].
  destruct nd as [|a nd]; [cbn; discriminate|]. cbv iota.
  set (sc := a :: nd) in *.
  cbn [db confirmada fallos sql_log con_db con_confirmada con_fallos con_sql_log].
  destruct (filter _ (propietarios b)) as [|r0 l0] eqn:Ef.
  - cbn. caso_falla; cbn; discriminate.
  - destruct (nombres_unicos _) eqn:Eu; [|cbn; discriminate].
    cbn [fst snd db con_db]. caso_falla; [cbn; discriminate|].
    cbn [fst snd db con_db con_confirmada con_fallos propietarios mascotas consultas].
    intros _ Hr. split; [reflexivity|]. split; [reflexivity|]. split.
    + intros Hne.
      apply in_map_iff. exists r. split; [|assumption].
      cbn. replace (i =? fp_id r) with false; [reflexivity|].
      symmetry. apply Z.eqb_neq. auto.
    + intros He. exists (fold_left aplicar_p sc r). split; [|split].
      * apply in_map_iff. exists r. split; [|assumption].
        cbn. rewrite He, Z.eqb_refl. reflexivity.
      * rewrite aplicar_p_id. exact He.
      * apply aplicar_p_sin_clave.
Qed.

(** An id that no visit row has reads as [None], faults or not. *)
Lemma get_consulta_by_id_ausente (w : Mundo) (i : Z) :
  (forall c, In c (consultas (db w)) -> fc_id c <> i) ->
  fst (get_consulta_by_id (Some i) w) = Ret None.
Proof.
  intros Hno.
  assert (Hvacio : filter (fun f : FilaConsulta * string => ref_eqb (Some i) (fc_id (fst f)))
                     (consultas_JOIN_mascotas (db w)) = []).
  { apply filter_ninguna. intros g Hg. cbn. apply Z.eqb_neq. intro E.
    apply (Hno (fst g)); [now apply in_consultas_JOIN | auto]. }
  unfold get_consulta_by_id, execute_SELECT_consultas_JOIN_id. desplegar.
  caso_falla; [reflexivity|].
  cbn [db con_sql_log con_fallos]. rewrite Hvacio.
  caso_falla; reflexivity.
Qed.


(** ** The console loops *)

(** The text that the prompt of [actualizar_consulta] shows parses back
    to the same date. *)
Lemma strptime_strftime_dmY (d : date) :
  fecha_valida d -> strptime_dmY (strftime_dmY d) = Some d.
Proof.
  intros Hv. pose proof (fecha_valida_cotas d Hv) as (Hy & Hm & Hd).
  unfold strptime_dmY. rewrite split_dmY.
  rewrite campo_Y_cuatro_digitos, campo_m_dos_digitos, campo_d_dos_digitos by lia.
  unfold construir. destruct d as [y m dd]. cbn in *.
  unfold fecha_valida in Hv. rewrite Hv. reflexivity.
Qed.

Lemma isspace_digito (n : Z) : PyStr.isspace (digito n) = false.
Proof.
  destruct (digito_forma n) as [k [Hk [-> _]]]. diez_casos k Hk.
Qed.

Lemma rstrip_con_cons (esp : ascii -> bool) (c : ascii) (s : string) :
  esp c = false -> PyStr.rstrip_con esp s = s ->
  PyStr.rstrip_con esp (String c s) = String c s.
Proof.
  intros Hc Hs. cbn [PyStr.rstrip_con]. rewrite Hs, Hc. destruct s; reflexivity.
Qed.

(** [strip] leaves the text of a date alone. *)
Lemma strip_strftime_dmY (d : date) :
  PyStr.strip (strftime_dmY d) = strftime_dmY d.
Proof.
  unfold PyStr.strip, strftime_dmY, cuatro_digitos, dos_digitos.
  cbn [PyStr.lstrip_con]. rewrite isspace_digito.
  repeat (apply rstrip_con_cons; [first [apply isspace_digito | reflexivity]|]).
  reflexivity.
Qed.

(** [get_int_input] returns the first line that [int()] accepts and
    consumes the lines up to it. *)
Lemma get_int_input_desde_salta (pre : list string) (l : string) (post : list string)
    (v : Z) :
  Forall (fun x => PyStr.int x = None) pre -> PyStr.int l = Some v ->
  UIUtils.get_int_input_desde (pre ++ l :: post) = (Ret v, post).
Proof.
  intros Hpre Hl. induction Hpre as [|x pre Hx _ IH]; cbn.
  - rewrite Hl. reflexivity.
  - rewrite Hx. exact IH.
Qed.

Lemma get_int_input_desde_casos (lineas : list string) :
  (Forall (fun x => PyStr.int x = None) lineas /\
   UIUtils.get_int_input_desde lineas = (Raise EOFError, [])) \/
  (exists pre l post v,
      lineas = (pre ++ l :: post)%list /\
      Forall (fun x => PyStr.int x = None) pre /\ PyStr.int l = Some v /\
      UIUtils.get_int_input_desde lineas = (Ret v, post)).
Proof.
  induction lineas as [|x lineas IH]; cbn.
  - left. split; [constructor | reflexivity].
  - destruct (PyStr.int x) as [v|] eqn:E.
    + right. exists [], x, lineas, v. cbn. repeat split; auto.
    + destruct IH as [[Hall Heq] | (pre & l & post & v & -> & Hpre & Hl & Heq)].
      * left. split; [constructor; assumption | exact Heq].
      * right. exists (x :: pre), l, post, v. cbn. repeat split; auto.
Qed.

Lemma get_date_input_desde_salta (pre : list string) (l : string) (post : list string)
    (d : date) :
  Forall (fun x => strptime_dmY (PyStr.strip x) = None) pre ->
  strptime_dmY (PyStr.strip l) = Some d ->
  UIUtils.get_date_input_desde (pre ++ l :: post) = (Ret d, post).
Proof.
  intros Hpre Hl. induction Hpre as [|x pre Hx _ IH]; cbn.
  - rewrite Hl. reflexivity.
  - rewrite Hx. exact IH.
Qed.

(** The answer of [confirm_action], once stripped and lowered. *)
Lemma confirm_action_desde_casos (lineas : list string) :
  (Forall (fun x => PyStr.lower (PyStr.strip x) <> "s" /\
                    PyStr.lower (PyStr.strip x) <> "n") lineas /\
   UIUtils.confirm_action_desde lineas = (Raise EOFError, [])) \/
  (exists pre l post,
      lineas = (pre ++ l :: post)%list /\
      Forall (fun x => PyStr.lower (PyStr.strip x) <> "s" /\
                       PyStr.lower (PyStr.strip x) <> "n") pre /\
      (PyStr.lower (PyStr.strip l) = "s" \/ PyStr.lower (PyStr.strip l) = "n") /\
      UIUtils.confirm_action_desde lineas
      = (Ret (String.eqb (PyStr.lower (PyStr.strip l)) "s"), post)).
Proof.
  induction lineas as [|x lineas IH]; cbn.
  - left. split; [constructor | reflexivity].
  - destruct (String.eqb (PyStr.lower (PyStr.strip x)) "s") eqn:Es.
    + right. exists [], x, lineas. cbn. rewrite Es.
      apply String.eqb_eq in Es. repeat split; auto.
    + destruct (String.eqb (PyStr.lower (PyStr.strip x)) "n") eqn:En; cbn.
      * right. exists [], x, lineas. cbn. rewrite Es.
        apply String.eqb_eq in En. repeat split; auto.
      * apply String.eqb_neq in Es, En.
        destruct IH as [[Hall Heq] | (pre & l & post & -> & Hpre & Hl & Heq)].
        -- left. split; [constructor; auto | exact Heq].
        -- right. exists (x :: pre), l, post. cbn. repeat split; auto.
Qed.

(** The lines left by a console loop are lines that were there. *)
Lemma get_int_input_desde_resto (lineas : list string) :
  exists pre, lineas = (pre ++ snd (UIUtils.get_int_input_desde lineas))%list.
Proof.
  induction lineas as [|x lineas [pre IH]]; cbn.
  - exists []. reflexivity.
  - destruct (PyStr.int x).
    + exists [x]. reflexivity.
    + exists (x :: pre). cbn. f_equal. exact IH.
Qed.

Lemma get_date_input_desde_resto (lineas : list string) :
  exists pre, lineas = (pre ++ snd (UIUtils.get_date_input_desde lineas))%list.
Proof.
  induction lineas as [|x lineas [pre IH]]; cbn.
  - exists []. reflexivity.
  - destruct (strptime_dmY (PyStr.strip x)).
    + exists [x]. reflexivity.
    + exists (x :: pre). cbn. f_equal. exact IH.
Qed.

Lemma confirm_action_desde_resto (lineas : list string) :
  exists pre, lineas = (pre ++ snd (UIUtils.confirm_action_desde lineas))%list.
Proof.
  induction lineas as [|x lineas [pre IH]]; cbn.
  - exists []. reflexivity.
  - destruct (_ || _).
    + exists [x]. reflexivity.
    + exists (x :: pre). cbn. f_equal. exact IH.
Qed.

Lemma leer_edad_desde_resto (lineas : list string) :
  exists pre, lineas = (pre ++ snd (leer_edad_desde lineas))%list.
Proof.
  induction lineas as [|x lineas [pre IH]]; cbn.
  - exists []. reflexivity.
  - destruct (PyStr.int x) as [v|]; [destruct (v <? 0)|].
    + exists (x :: pre). cbn. f_equal. exact IH.
    + exists [x]. reflexivity.
    + exists (x :: pre). cbn. f_equal. exact IH.
Qed.

(** [confirm_action] says yes only to a line that reads ['s']. *)
Lemma confirm_action_desde_si (lineas : list string) :
  fst (UIUtils.confirm_action_desde lineas) = Ret true ->
  exists l, In l lineas /\ PyStr.lower (PyStr.strip l) = "s".
Proof.
  destruct (confirm_action_desde_casos lineas)
    as [[_ ->] | (pre & l & post & -> & _ & _ & ->)]; cbn; [discriminate|].
  intros H. injection H as Hs. apply String.eqb_eq in Hs.
  exists l. split; [apply in_elt | exact Hs].
Qed.

(** ** The workflows of the menu, one by one *)

(** What every read leaves as it was. *)
Lemma llamar_lectura_marco (c : llamada) (w : Mundo) :
  es_lectura c = true ->
  db (snd (llamar c w)) = db w /\
  confirmada (snd (llamar c w)) = confirmada w /\
  stdin (snd (llamar c w)) = stdin w /\
  foreign_keys (snd (llamar c w)) = foreign_keys w.
Proof.
  destruct w as [b cf fk fl lg tc].
  destruct c; cbn [es_lectura]; try discriminate; intros _;
    abrir_llamada; por_casos; auto.
Qed.

(** No store operation touches the console or the pragma. *)
Lemma llamar_marco (c : llamada) (w : Mundo) :
  stdin (snd (llamar c w)) = stdin w /\
  foreign_keys (snd (llamar c w)) = foreign_keys w.
Proof.
  destruct w as [b cf fk fl lg tc].
  destruct c; abrir_llamada; por_casos; auto.
Qed.

(** Without faults to come, none is left. *)
Lemma llamar_sin_fallos (c : llamada) (w : Mundo) :
  fallos w = [] -> fallos (snd (llamar c w)) = [].
Proof.
  destruct w as [b cf fk fl lg tc]. cbn [fallos]. intros ->.
  destruct c; abrir_llamada; por_casos; auto.
Qed.

Lemma snd_llamar_get_propietario_by_id (i : option Z) (w : Mundo) :
  snd (llamar (Ll_get_propietario_by_id i) w) = snd (get_propietario_by_id i w).
Proof.
  unfold llamar, bind. destruct (get_propietario_by_id i w) as [[r|e] w']; reflexivity.
Qed.

Lemma snd_llamar_get_mascota_by_id (i : option Z) (w : Mundo) :
  snd (llamar (Ll_get_mascota_by_id i) w) = snd (get_mascota_by_id i w).
Proof.
  unfold llamar, bind. destruct (get_mascota_by_id i w) as [[r|e] w']; reflexivity.
Qed.

Lemma snd_llamar_get_consulta_by_id (i : option Z) (w : Mundo) :
  snd (llamar (Ll_get_consulta_by_id i) w) = snd (get_consulta_by_id i w).
Proof.
  unfold llamar, bind. destruct (get_consulta_by_id i w) as [[r|e] w']; reflexivity.
Qed.

(** The three lookups by a typed id: the store is as it was and the
    lines left are lines that were there. *)
Lemma _get_propietario_marco (w : Mundo) :
  db (snd (_get_propietario w)) = db w /\
  confirmada (snd (_get_propietario w)) = confirmada w /\
  exists pre, stdin w = (pre ++ stdin (snd (_get_propietario w)))%list.
Proof.
  unfold _get_propietario, bind, UIUtils.get_int_input. cbv zeta.
  destruct (get_int_input_desde_resto (stdin w)) as [pre Hpre].
  destruct (fst (UIUtils.get_int_input_desde (stdin w))) as [i|e]; cbn [fst snd].
  - pose proof (llamar_lectura_marco (Ll_get_propietario_by_id (Some i))
                  (con_stdin (snd (UIUtils.get_int_input_desde (stdin w))) w) eq_refl)
      as (H1 & H2 & H3 & _).
    rewrite snd_llamar_get_propietario_by_id in H1, H2, H3.
    destruct (get_propietario_by_id _ _) as [r w']. cbn [snd] in *.
    rewrite H1, H2, H3. cbn. eauto.
  - cbn. eauto.
Qed.

Lemma _get_mascota_marco (w : Mundo) :
  db (snd (_get_mascota w)) = db w /\
  confirmada (snd (_get_mascota w)) = confirmada w /\
  exists pre, stdin w = (pre ++ stdin (snd (_get_mascota w)))%list.
Proof.
  unfold _get_mascota, bind, UIUtils.get_int_input. cbv zeta.
  destruct (get_int_input_desde_resto (stdin w)) as [pre Hpre].
  destruct (fst (UIUtils.get_int_input_desde (stdin w))) as [i|e]; cbn [fst snd].
  - pose proof (llamar_lectura_marco (Ll_get_mascota_by_id (Some i))
                  (con_stdin (snd (UIUtils.get_int_input_desde (stdin w))) w) eq_refl)
      as (H1 & H2 & H3 & _).
    rewrite snd_llamar_get_mascota_by_id in H1, H2, H3.
    destruct (get_mascota_by_id _ _) as [r w']. cbn [snd] in *.
    rewrite H1, H2, H3. cbn. eauto.
  - cbn. eauto.
Qed.

Lemma _get_consulta_marco (w : Mundo) :
  db (snd (_get_consulta w)) = db w /\
  confirmada (snd (_get_consulta w)) = confirmada w /\
  exists pre, stdin w = (pre ++ stdin (snd (_get_consulta w)))%list.
Proof.
  unfold _get_consulta, bind, UIUtils.get_int_input. cbv zeta.
  destruct (get_int_input_desde_resto (stdin w)) as [pre Hpre].
  destruct (fst (UIUtils.get_int_input_desde (stdin w))) as [i|e]; cbn [fst snd].
  - pose proof (llamar_lectura_marco (Ll_get_consulta_by_id (Some i))
                  (con_stdin (snd (UIUtils.get_int_input_desde (stdin w))) w) eq_refl)
      as (H1 & H2 & H3 & _).
    rewrite snd_llamar_get_consulta_by_id in H1, H2, H3.
    destruct (get_consulta_by_id _ _) as [r w']. cbn [snd] in *.
    rewrite H1, H2, H3. cbn. eauto.
  - cbn. eauto.
Qed.

(** A confirmation asked on lines none of which reads ['s'] is not
    given. *)
Lemma confirm_action_sin_s (w : Mundo) :
  (forall l, In l (stdin w) -> PyStr.lower (PyStr.strip l) <> "s") ->
  fst (UIUtils.confirm_action w) <> Ret true /\
  db (snd (UIUtils.confirm_action w)) = db w /\
  confirmada (snd (UIUtils.confirm_action w)) = confirmada w.
Proof.
  intros Hno. unfold UIUtils.confirm_action. cbn. split; [|auto].
  intros H. apply confirm_action_desde_si in H. destruct H as [l [Hl Hs]].
  exact (Hno l Hl Hs).
Qed.

(** The shape shared by the three delete workflows. *)
Lemma eliminar_sin_s {A : Type} (buscar : M (option A)) (borrar : A -> M bool) (w : Mundo) :
  (db (snd (buscar w)) = db w /\
   confirmada (snd (buscar w)) = confirmada w /\
   exists pre, stdin w = (pre ++ stdin (snd (buscar w)))%list) ->
  (forall l, In l (stdin w) -> PyStr.lower (PyStr.strip l) <> "s") ->
  let flujo :=
    (x <- buscar ;;
     match x with
     | None => ret tt
     | Some a =>
         ok <- UIUtils.confirm_action ;;
         if ok then borrar a ;;; ret tt else ret tt
     end) in
  db (snd (flujo w)) = db w /\ confirmada (snd (flujo w)) = confirmada w.
Proof.
  intros (Hdb & Hcf & [pre Hpre]) Hno. cbv zeta. unfold bind, ret.
  destruct (buscar w) as [[[a|]|e] w1]; cbn [fst snd] in *; auto.
  assert (Hno1 : forall l, In l (stdin w1) -> PyStr.lower (PyStr.strip l) <> "s").
  { intros l Hl. apply Hno. rewrite Hpre. apply in_or_app. now right. }
  destruct (confirm_action_sin_s w1 Hno1) as (Hfst & Hdb1 & Hcf1).
  destruct (UIUtils.confirm_action w1) as [[[|]|e] w2]; cbn [fst snd] in *.
  - exfalso. apply Hfst. reflexivity.
  - split; congruence.
  - split; congruence.
Qed.


(** *** Registering a visit *)

Lemma NoDup_al_final {A : Type} (l : list A) (x : A) :
  NoDup l -> ~ In x l -> NoDup (l ++ [x]).
Proof.
  induction l as [|a l IH]; cbn; intros Hnd Hx.
  - constructor; [intros [] | constructor].
  - inversion Hnd as [|? ? Ha Hl]; subst. constructor.
    + intros H. apply in_app_or in H. destruct H as [H | [H | []]]; [auto|].
      apply Hx. now left.
    + apply IH; [assumption|]. intros H. apply Hx. now right.
Qed.

Lemma get_mascota_by_id_sin_fallos (i : option Z) (w : Mundo) :
  fallos w = [] ->
  snd (get_mascota_by_id i w) = con_sql_log (SELECT_mascotas_JOIN_id i :: sql_log w) w.
Proof.
  intros Hf. unfold get_mascota_by_id, execute_SELECT_mascotas_JOIN_id. desplegar.
  rewrite falla_sin_fallos by (cbn; assumption). cbn [fst snd db con_sql_log].
  rewrite falla_sin_fallos by (cbn; assumption). cbn [fst snd].
  destruct (hd_error _); reflexivity.
Qed.

(** What [insert_consulta] does on a connection without faults when a
    rowid is left and the pet row is there. *)
Lemma insert_consulta_efecto (b : BaseDatos) (fk : bool) (log : list sentencia)
    (t : list string) (c : Consulta) (m : FilaMascota) :
  In m (mascotas b) -> c_mascota_id c = Some (fm_id m) ->
  Z.max (seq_consultas b) (max_rowid (map fc_id (consultas b))) < MAX_ROWID ->
  let id := Z.max (seq_consultas b) (max_rowid (map fc_id (consultas b))) + 1 in
  insert_consulta c (sesion b fk [] log t)
  = (Ret (Some (mkConsulta (Some id) (c_fecha c) (c_motivo c) (c_diagnostico c)
                  (c_mascota_id c) (c_mascota_nombre c))),
     sesion (mkBaseDatos (propietarios b) (mascotas b)
               (consultas b ++ [mkFilaConsulta id (strftime_Ymd (c_fecha c)) (c_motivo c)
                                  (c_diagnostico c) (c_mascota_id c)])
               (seq_propietarios b) (seq_mascotas b) id)
            fk []
            (INSERT_consultas (strftime_Ymd (c_fecha c)) (c_motivo c) (c_diagnostico c)
               (c_mascota_id c) :: log) t).
Proof.
  intros Hm Href Hseq. cbv zeta.
  unfold insert_consulta, execute_INSERT_consultas, sesion. desplegar.
  unfold falla. cbn [fallos db confirmada foreign_keys sql_log con_sql_log fst snd].
  rewrite nuevo_rowid_disponible by assumption.
  replace (fk && negb (existe_mascota (c_mascota_id c) b)) with false; [reflexivity|].
  symmetry. rewrite Href. cbn [existe_mascota].
  replace (existsb (fun r => fm_id r =? fm_id m) (mascotas b)) with true;
    [apply andb_false_r|].
  symmetry. apply existsb_exists. exists m. split; [assumption | apply Z.eqb_refl].
Qed.

(** At the menu, with no faults: the id of a pet that is in the store
    with its owner, a date typed as [dd-mm-yyyy], a reason and a
    diagnosis add one visit row for that pet, with the date as ISO text
    and the other two lines as typed; the visit then reads back by its
    id with the date typed. *)
Lemma registrar_consulta_guarda (b : BaseDatos) (fk : bool) (log : list sentencia)
    (resto : list string) (l_id l_fecha motivo diagnostico : string)
    (m : FilaMascota) (o : FilaPropietario) (d : date) :
  NoDup (map fp_id (propietarios b)) ->
  NoDup (map fm_id (mascotas b)) ->
  NoDup (map fc_id (consultas b)) ->
  In m (mascotas b) -> In o (propietarios b) ->
  fm_id_propietario m = Some (fp_id o) ->
  PyStr.int l_id = Some (fm_id m) ->
  strptime_dmY (PyStr.strip l_fecha) = Some d -> 1000 <= year d ->
  Z.max (seq_consultas b) (max_rowid (map fc_id (consultas b))) < MAX_ROWID ->
  let id := Z.max (seq_consultas b) (max_rowid (map fc_id (consultas b))) + 1 in
  let w' := snd (registrar_consulta
                   (sesion b fk [] log
                      (l_id :: l_fecha :: motivo :: diagnostico :: resto))) in
  consultas (db w')
  = (consultas b ++ [mkFilaConsulta id (strftime_Ymd d) motivo diagnostico
                       (Some (fm_id m))])%list /\
  propietarios (db w') = propietarios b /\ mascotas (db w') = mascotas b /\
  confirmada w' = db w' /\ stdin w' = resto /\
  fst (get_consulta_by_id (Some id) w')
  = Ret (Some (mkConsulta (Some id) d motivo diagnostico (Some (fm_id m))
                 (Some (fm_nombre m)))).
Proof.
  intros Hndp Hndm Hndc Hm Ho Href Hint Hfecha _ Hseq. cbv zeta.
  assert (Hv : fecha_valida d) by (eapply strptime_dmY_valida; eassumption).
  set (w0 := sesion b fk [] log (l_id :: l_fecha :: motivo :: diagnostico :: resto)).
  set (w1 := con_stdin (l_fecha :: motivo :: diagnostico :: resto) w0).
  assert (E1 : _get_mascota w0
               = (Ret (Some (mkMascota (Some (fm_id m)) (fm_nombre m) (fm_especie m)
                               (fm_raza m) (fm_edad m) (Some (fp_id o))
                               (Some (fp_nombre o)))),
                  con_sql_log (SELECT_mascotas_JOIN_id (Some (fm_id m)) :: log) w1)).
  { unfold _get_mascota, bind, UIUtils.get_int_input. cbn [w0 sesion stdin
      UIUtils.get_int_input_desde]. rewrite Hint. cbn [fst snd]. fold w0. fold w1.
    rewrite (surjective_pairing (get_mascota_by_id (Some (fm_id m)) w1)).
    rewrite (get_mascota_by_id_presente w1 m o), get_mascota_by_id_sin_fallos;
      auto. }
  assert (E : registrar_consulta w0
              = (Ret tt,
                 sesion (mkBaseDatos (propietarios b) (mascotas b)
                           (consultas b ++
                            [mkFilaConsulta
                               (Z.max (seq_consultas b)
                                  (max_rowid (map fc_id (consultas b))) + 1)
                               (strftime_Ymd d) motivo diagnostico (Some (fm_id m))])
                           (seq_propietarios b) (seq_mascotas b)
                           (Z.max (seq_consultas b)
                              (max_rowid (map fc_id (consultas b))) + 1))
                        fk []
                        (INSERT_consultas (strftime_Ymd d) motivo diagnostico
                           (Some (fm_id m))
                         :: SELECT_mascotas_JOIN_id (Some (fm_id m)) :: log)
                        resto)).
  { unfold registrar_consulta, bind. rewrite E1.
    unfold UIUtils.get_date_input, UIUtils.input, of_py, Consulta_init, ret.
    subst w1 w0.
    cbn [sesion stdin con_stdin con_sql_log db confirmada foreign_keys fallos sql_log
         UIUtils.get_date_input_desde fst snd m_id].
    rewrite Hfecha.
    cbn [sesion stdin con_stdin con_sql_log db confirmada foreign_keys fallos sql_log
         fst snd].
    match goal with
    | |- context [insert_consulta ?c ?w] =>
        change w with (sesion b fk [] (SELECT_mascotas_JOIN_id (Some (fm_id m)) :: log)
                         resto);
        rewrite (insert_consulta_efecto b fk _ resto c m Hm eq_refl Hseq)
    end.
    reflexivity. }
  rewrite E.
  cbn [fst snd db confirmada stdin sesion consultas propietarios mascotas].
  repeat (split; [reflexivity|]).
  match goal with
  | |- fst (get_consulta_by_id _ ?w) = _ =>
      pose proof (get_consulta_by_id_presente w
                    (mkFilaConsulta (Z.max (seq_consultas b)
                                       (max_rowid (map fc_id (consultas b))) + 1)
                       (strftime_Ymd d) motivo diagnostico (Some (fm_id m))) m) as Hget
  end.
  cbn [sesion fallos db consultas mascotas fc_id fc_fecha fc_motivo fc_diagnostico
       fc_id_mascota] in Hget.
  rewrite strptime_strftime_Ymd in Hget by assumption.
  assert (Hnd' : NoDup (map fc_id
                   (consultas b ++
                    [mkFilaConsulta (Z.max (seq_consultas b)
                                       (max_rowid (map fc_id (consultas b))) + 1)
                       (strftime_Ymd d) motivo diagnostico (Some (fm_id m))]))).
  { rewrite map_app. cbn [map fc_id]. apply NoDup_al_final; [assumption|].
    intros E'. pose proof (max_rowid_cota _ _ E'). lia. }
  destruct (Hget eq_refl Hnd' (in_elt _ _ _) Hm eq_refl) as (m' & Hm' & Hid' & ->).
  rewrite (NoDup_map_inj fm_id (mascotas b) m' m Hndm Hm' Hm Hid'). reflexivity.
Qed.

(** The console never touches the tables. *)
Lemma input_marco (w : Mundo) :
  db (snd (UIUtils.input w)) = db w /\ confirmada (snd (UIUtils.input w)) = confirmada w.
Proof. unfold UIUtils.input. destruct (stdin w); cbn; auto. Qed.

Lemma get_date_input_marco (w : Mundo) :
  db (snd (UIUtils.get_date_input w)) = db w /\
  confirmada (snd (UIUtils.get_date_input w)) = confirmada w.
Proof. unfold UIUtils.get_date_input. cbn. auto. Qed.

Lemma confirm_action_marco (w : Mundo) :
  db (snd (UIUtils.confirm_action w)) = db w /\
  confirmada (snd (UIUtils.confirm_action w)) = confirmada w.
Proof. unfold UIUtils.confirm_action. cbn. auto. Qed.

Lemma leer_edad_marco (w : Mundo) :
  db (snd (leer_edad w)) = db w /\ confirmada (snd (leer_edad w)) = confirmada w.
Proof. unfold leer_edad. cbn. auto. Qed.

(** A pet found by id is a pet row whose owner row is in the store. *)
Lemma get_mascota_by_id_origen (i : option Z) (w : Mundo) (mas : Mascota) :
  fst (get_mascota_by_id i w) = Ret (Some mas) ->
  exists m o, In m (mascotas (db w)) /\ In o (propietarios (db w)) /\
              fm_id_propietario m = Some (fp_id o) /\
              m_id mas = Some (fm_id m) /\ m_propietario_id mas = Some (fp_id o).
Proof.
  unfold get_mascota_by_id, execute_SELECT_mascotas_JOIN_id. desplegar.
  caso_falla; [cbn; discriminate|]. cbn [fst snd db con_sql_log con_fallos].
  caso_falla; [cbn; discriminate|]. cbn [fst snd].
  destruct (filter _ _) as [|[m n] l] eqn:E; cbn; [discriminate|].
  intros H. inversion H; subst; clear H.
  assert (Hin : In (m, n) (filter (fun f : FilaMascota * string => ref_eqb i (fm_id (fst f)))
                             (mascotas_JOIN_propietarios (db w))))
    by (rewrite E; now left).
  apply filter_In in Hin. destruct Hin as [Hin _].
  apply in_mascotas_JOIN in Hin. destruct Hin as [Hm [o [Ho [Href _]]]].
  exists m, o. cbn. rewrite Href. auto.
Qed.

Lemma _get_mascota_origen (w : Mundo) (mas : Mascota) :
  fst (_get_mascota w) = Ret (Some mas) ->
  exists m o, In m (mascotas (db w)) /\ In o (propietarios (db w)) /\
              fm_id_propietario m = Some (fp_id o) /\
              m_id mas = Some (fm_id m) /\ m_propietario_id mas = Some (fp_id o).
Proof.
  unfold _get_mascota, bind, UIUtils.get_int_input. cbv zeta.
  destruct (fst (UIUtils.get_int_input_desde (stdin w))) as [i|e]; [|cbn; discriminate].
  intros H. apply get_mascota_by_id_origen in H. exact H.
Qed.

(** What an insert of a visit can do to the store, faults or not, on a
    connection with no transaction open. *)
Lemma insert_consulta_marco (c : Consulta) (w : Mundo) :
  confirmada w = db w ->
  let w' := snd (insert_consulta c w) in
  confirmada w' = db w' /\
  propietarios (db w') = propietarios (db w) /\
  mascotas (db w') = mascotas (db w) /\
  (consultas (db w') = consultas (db w) \/
   exists id, consultas (db w')
              = (consultas (db w) ++
                 [mkFilaConsulta id (strftime_Ymd (c_fecha c)) (c_motivo c)
                    (c_diagnostico c) (c_mascota_id c)])%list).
Proof.
  destruct w as [b cf fk fl lg tc]. cbn [confirmada db]. intros ->. cbv zeta.
  unfold insert_consulta, execute_INSERT_consultas. desplegar. unfold falla.
  por_casos; repeat split; eauto.
Qed.

(** Every visit that [registrar_consulta] adds is for a pet that the
    store holds with its owner, whatever faults strike: the workflow
    never leaves a visit without its pet. *)
Lemma registrar_consulta_sin_huerfanas (w : Mundo) (c : FilaConsulta) :
  confirmada w = db w ->
  In c (consultas (db (snd (registrar_consulta w)))) ->
  In c (consultas (db w)) \/
  exists m o, In m (mascotas (db w)) /\ In o (propietarios (db w)) /\
              fm_id_propietario m = Some (fp_id o) /\
              fc_id_mascota c = Some (fm_id m).
Proof.
  intros Hcf. unfold registrar_consulta, bind, of_py, Consulta_init, ret.
  pose proof (_get_mascota_marco w) as (Hdb1 & Hcf1 & _).
  pose proof (_get_mascota_origen w) as Horigen.
  destruct (_get_mascota w) as [[[mas|]|e] w1]; cbn [fst snd] in *;
    try (rewrite Hdb1; auto; fail).
  destruct (Horigen mas eq_refl) as (m & o & Hm & Ho & Href & Hid & _).
  pose proof (get_date_input_marco w1) as (Hdb2 & Hcf2).
  destruct (UIUtils.get_date_input w1) as [[fecha|e] w2]; cbn [fst snd] in *;
    [|rewrite Hdb2, Hdb1; auto].
  pose proof (input_marco w2) as (Hdb3 & Hcf3).
  destruct (UIUtils.input w2) as [[motivo|e] w3]; cbn [fst snd] in *;
    [|rewrite Hdb3, Hdb2, Hdb1; auto].
  pose proof (input_marco w3) as (Hdb4 & Hcf4).
  destruct (UIUtils.input w3) as [[diagnostico|e] w4]; cbn [fst snd] in *;
    [|rewrite Hdb4, Hdb3, Hdb2, Hdb1; auto].
  assert (Hcf' : confirmada w4 = db w4) by congruence.
  pose proof (insert_consulta_marco
                (mkConsulta None fecha motivo diagnostico (m_id mas) None) w4 Hcf')
    as (_ & _ & _ & Hc).
  cbv zeta in Hc.
  destruct (insert_consulta _ w4) as [[r|e] w5]; cbn [fst snd] in *;
    (destruct Hc as [-> | [id ->]];
     [rewrite Hdb4, Hdb3, Hdb2, Hdb1; auto|]);
    rewrite Hdb4, Hdb3, Hdb2, Hdb1;
    (intros Hin; apply in_app_or in Hin; destruct Hin as [Hin | [<- | []]];
     [auto | right; exists m, o; cbn; auto]).
Qed.

(** *** Registering a pet *)

(** An owner found by name is an owner row of the store. *)
Lemma get_propietario_by_nombre_origen (nombre : string) (w : Mundo) (p : Propietario) :
  fst (get_propietario_by_nombre nombre w) = Ret (Some p) ->
  exists r, In r (propietarios (db w)) /\ p = propietario_de_fila r.
Proof.
  unfold get_propietario_by_nombre, execute_SELECT_propietarios_LIKE. desplegar.
  caso_falla; [cbn; discriminate|]. cbn [fst snd db con_sql_log con_fallos].
  caso_falla; [cbn; discriminate|]. cbn [fst snd].
  destruct (filter _ _) as [|r l] eqn:E; cbn; [discriminate|].
  intros H. inversion H; subst; clear H.
  assert (Hin : In r (filter (fun r0 => like nombre (fp_nombre r0)) (propietarios (db w))))
    by (rewrite E; now left).
  apply filter_In in Hin. destruct Hin as [Hin _]. eauto.
Qed.

(** What an insert of an owner can do to the store, faults or not, on a
    connection with no transaction open: a row is added exactly when
    the owner comes back with its id. *)
Lemma insert_propietario_marco (p : Propietario) (w : Mundo) :
  confirmada w = db w ->
  let w' := snd (insert_propietario p w) in
  confirmada w' = db w' /\
  mascotas (db w') = mascotas (db w) /\
  consultas (db w') = consultas (db w) /\
  match fst (insert_propietario p w) with
  | Ret (Some p') =>
      exists id, p_id p' = Some id /\
                 propietarios (db w')
                 = (propietarios (db w) ++
                    [mkFilaPropietario id (p_nombre p) (p_telefono p) (p_direccion p)])%list
  | _ => db w' = db w
  end.
Proof.
  destruct w as [b cf fk fl lg tc]. cbn [confirmada db]. intros ->. cbv zeta.
  unfold insert_propietario, execute_INSERT_propietarios. desplegar. unfold falla.
  por_casos; repeat split; eauto.
Qed.

Lemma insert_mascota_marco (m : Mascota) (w : Mundo) :
  confirmada w = db w ->
  let w' := snd (insert_mascota m w) in
  confirmada w' = db w' /\
  propietarios (db w') = propietarios (db w) /\
  consultas (db w') = consultas (db w) /\
  (mascotas (db w') = mascotas (db w) \/
   exists id, mascotas (db w')
              = (mascotas (db w) ++
                 [mkFilaMascota id (m_nombre m) (m_especie m) (m_raza m) (m_edad m)
                    (m_propietario_id m)])%list).
Proof.
  destruct w as [b cf fk fl lg tc]. cbn [confirmada db]. intros ->. cbv zeta.
  unfold insert_mascota, execute_INSERT_mascotas. desplegar. unfold falla.
  por_casos; repeat split; eauto.
Qed.

Ltac cerrar_sin_dueno :=
  split; [congruence|]; split; [reflexivity|]; split; [reflexivity|];
  intros ? ?; discriminate.

(** The owner that [_get_propietario_or_create] hands over is an owner
    row of the store it leaves; pets and visits are as they were, and
    at most one owner row was added. *)
Lemma _get_propietario_or_create_marco (owner_name : string) (w : Mundo) :
  confirmada w = db w ->
  let r := _get_propietario_or_create owner_name w in
  confirmada (snd r) = db (snd r) /\
  mascotas (db (snd r)) = mascotas (db w) /\
  consultas (db (snd r)) = consultas (db w) /\
  (forall p, fst r = Ret (Some p) ->
             exists o, In o (propietarios (db (snd r))) /\ p_id p = Some (fp_id o)).
Proof.
  intros Hcf. cbv zeta. unfold _get_propietario_or_create, bind, ret.
  pose proof (get_propietario_by_nombre_solo_lee owner_name w) as (Hdb1 & Hcf1 & _).
  pose proof (get_propietario_by_nombre_origen owner_name w) as Ho1.
  destruct (get_propietario_by_nombre owner_name w) as [[[p1|]|e] w1]; cbn [fst snd] in *.
  - rewrite Hdb1, Hcf1. split; [assumption|]. split; [reflexivity|].
    split; [reflexivity|].
    intros p H. inversion H; subst. destruct (Ho1 p eq_refl) as [r [Hr ->]]. eauto.
  - pose proof (confirm_action_marco w1) as (Hdb2 & Hcf2).
    destruct (UIUtils.confirm_action w1) as [[[|]|e] w2]; cbn [fst snd] in *;
      try (rewrite Hdb2, Hdb1; cerrar_sin_dueno).
    pose proof (input_marco w2) as (Hdb3 & Hcf3).
    destruct (UIUtils.input w2) as [[linea|e] w3]; cbn [fst snd] in *;
      try (rewrite Hdb3, Hdb2, Hdb1; cerrar_sin_dueno).
    pose proof (get_propietario_by_nombre_solo_lee (PyStr.strip linea) w3)
      as (Hdb4 & Hcf4 & _).
    pose proof (get_propietario_by_nombre_origen (PyStr.strip linea) w3) as Ho4.
    destruct (get_propietario_by_nombre (PyStr.strip linea) w3) as [[[p4|]|e] w4];
      cbn [fst snd] in *;
      try (rewrite Hdb4, Hdb3, Hdb2, Hdb1; cerrar_sin_dueno).
    + rewrite Hdb4, Hdb3, Hdb2, Hdb1. split; [congruence|]. split; [reflexivity|].
      split; [reflexivity|].
      intros p H. inversion H; subst. destruct (Ho4 p eq_refl) as [r [Hr ->]].
      exists r. split; [congruence | reflexivity].
    + pose proof (input_marco w4) as (Hdb5 & Hcf5).
      destruct (UIUtils.input w4) as [[telefono|e] w5]; cbn [fst snd] in *;
        try (rewrite Hdb5, Hdb4, Hdb3, Hdb2, Hdb1; cerrar_sin_dueno).
      pose proof (input_marco w5) as (Hdb6 & Hcf6).
      destruct (UIUtils.input w5) as [[direccion|e] w6]; cbn [fst snd] in *;
        try (rewrite Hdb6, Hdb5, Hdb4, Hdb3, Hdb2, Hdb1; cerrar_sin_dueno).
      assert (Hcf' : confirmada w6 = db w6) by congruence.
      pose proof (insert_propietario_marco
                    (Propietario_init (PyStr.strip linea) telefono direccion None) w6 Hcf')
        as (Hc7 & Hm7 & Hv7 & Hp7).
      cbv zeta in *.
      destruct (insert_propietario _ w6) as [r7 w7]; cbn [fst snd] in *.
      split; [assumption|]. split; [congruence|]. split; [congruence|].
      intros p H. subst r7. destruct Hp7 as [id [Hid Hp7]].
      rewrite Hp7. eexists. split; [apply in_elt | exact Hid].
  - rewrite Hdb1. cerrar_sin_dueno.
Qed.

(** Every pet that [registrar_mascota] adds carries the id of an owner
    row that the store holds when the workflow ends, whatever faults
    strike: the workflow never leaves a pet without its owner. *)
Lemma registrar_mascota_con_propietario (w : Mundo) (m : FilaMascota) :
  confirmada w = db w ->
  In m (mascotas (db (snd (registrar_mascota w)))) ->
  In m (mascotas (db w)) \/
  exists o, In o (propietarios (db (snd (registrar_mascota w)))) /\
            fm_id_propietario m = Some (fp_id o).
Proof.
  intros Hcf. unfold registrar_mascota, bind, ret.
  pose proof (input_marco w) as (Hdb1 & Hcf1).
  destruct (UIUtils.input w) as [[nombre|e] w1]; cbn [fst snd] in *;
    [|rewrite Hdb1; auto].
  pose proof (input_marco w1) as (Hdb2 & Hcf2).
  destruct (UIUtils.input w1) as [[especie|e] w2]; cbn [fst snd] in *;
    [|rewrite Hdb2, Hdb1; auto].
  pose proof (input_marco w2) as (Hdb3 & Hcf3).
  destruct (UIUtils.input w2) as [[raza|e] w3]; cbn [fst snd] in *;
    [|rewrite Hdb3, Hdb2, Hdb1; auto].
  pose proof (leer_edad_marco w3) as (Hdb4 & Hcf4).
  destruct (leer_edad w3) as [[edad|e] w4]; cbn [fst snd] in *;
    [|rewrite Hdb4, Hdb3, Hdb2, Hdb1; auto].
  pose proof (input_marco w4) as (Hdb5 & Hcf5).
  destruct (UIUtils.input w4) as [[linea|e] w5]; cbn [fst snd] in *;
    [|rewrite Hdb5, Hdb4, Hdb3, Hdb2, Hdb1; auto].
  assert (Hcf' : confirmada w5 = db w5) by congruence.
  assert (Hm5 : mascotas (db w5) = mascotas (db w)) by congruence.
  pose proof (_get_propietario_or_create_marco (PyStr.strip linea) w5 Hcf')
    as (Hcf6 & Hm6 & _ & Ho6).
  cbv zeta in *.
  destruct (_get_propietario_or_create (PyStr.strip linea) w5) as [[[p|]|e] w6];
    cbn [fst snd] in *; try (rewrite Hm6, Hm5; auto; fail).
  destruct (Ho6 p eq_refl) as [o [Ho Hid]].
  pose proof (insert_mascota_marco
                (Mascota_init nombre especie raza edad (p_id p) None None) w6 Hcf6)
    as (_ & Hp7 & _ & Hm7).
  cbv zeta in *.
  destruct (insert_mascota _ w6) as [[r|e] w7]; cbn [fst snd] in *;
    (destruct Hm7 as [-> | [id ->]]; [rewrite Hm6, Hm5; auto|]);
    rewrite Hm6, Hm5;
    (intros Hin; apply in_app_or in Hin; destruct Hin as [Hin | [<- | []]];
     [auto | right; exists o; rewrite Hp7; cbn; auto]).
Qed.

(** ** Keys stay unique and input is only consumed *)

Lemma sigue_refl (w : Mundo) : sigue w w.
Proof. split; [auto | exists []; reflexivity]. Qed.

Lemma sigue_trans (w1 w2 w3 : Mundo) : sigue w1 w2 -> sigue w2 w3 -> sigue w1 w3.
Proof.
  intros [H1 [l1 E1]] [H2 [l2 E2]]. split; [auto|].
  exists (l1 ++ l2)%list. rewrite E1, E2. apply app_assoc.
Qed.

Lemma avanza_ret {A : Type} (a : A) : avanza (ret a).
Proof. intros w. apply sigue_refl. Qed.

Lemma avanza_bind {A B : Type} (c : M A) (k : A -> M B) :
  avanza c -> (forall a, avanza (k a)) -> avanza (bind c k).
Proof.
  intros Hc Hk w. unfold bind. specialize (Hc w).
  destruct (c w) as [[a|e] w1]; cbn [snd] in *; [|assumption].
  eapply sigue_trans; [exact Hc | apply Hk].
Qed.

Lemma avanza_of_py {A : Type} (r : py A) : avanza (of_py r).
Proof. intros w. apply sigue_refl. Qed.

(** *** The store operations *)

Lemma NoDup_map_filter {A B : Type} (f : A -> B) (g : A -> bool) (l : list A) :
  NoDup (map f l) -> NoDup (map f (filter g l)).
Proof.
  induction l as [|a l IH]; cbn; intros H; [constructor|].
  inversion H as [|? ? Ha Hl]; subst.
  destruct (g a); cbn; [|auto].
  constructor; [|auto].
  intros Hin. apply Ha. apply in_map_iff in Hin. destruct Hin as [x [Hx Hin]].
  apply filter_In in Hin. rewrite <- Hx. apply in_map. tauto.
Qed.

Lemma nombres_unicos_NoDup (l : list FilaPropietario) :
  nombres_unicos l = true -> NoDup (map fp_nombre l).
Proof.
  induction l as [|a l IH]; cbn; intros H; [constructor|].
  apply andb_prop in H. destruct H as [Ha Hl]. apply negb_true_iff in Ha.
  constructor; [|auto].
  intros Hin. apply in_map_iff in Hin. destruct Hin as [x [Hx Hin]].
  assert (nombre_en (fp_nombre a) l = true) by (apply nombre_en_iff; eauto).
  congruence.
Qed.

Lemma NoDup_map_al_final {A B : Type} (f : A -> B) (l : list A) (x : A) :
  NoDup (map f l) -> (forall y, In y l -> f y <> f x) -> NoDup (map f (l ++ [x])).
Proof.
  intros Hnd Hx. rewrite map_app. cbn [map]. apply NoDup_al_final; [assumption|].
  intros Hin. apply in_map_iff in Hin. destruct Hin as [y [Hy Hin]].
  exact (Hx y Hin Hy).
Qed.

Lemma nuevo_rowid_nuevo {A : Type} (ida : A -> Z) (seq : Z) (l : list A) (id : Z) :
  nuevo_rowid seq (map ida l) = Some id -> forall y, In y l -> ida y <> id.
Proof.
  intros H y Hy. apply (nuevo_rowid_fresco _ _ _ _ H). now apply in_map.
Qed.

Lemma aplicar_m_id (sc : list asig_mascota) (r : FilaMascota) :
  fm_id (fold_left aplicar_m sc r) = fm_id r.
Proof.
  revert r. induction sc as [|a sc IH]; intros r; cbn; [reflexivity|].
  rewrite IH. destruct a; reflexivity.
Qed.

Lemma aplicar_c_id_igual (sc : list asig_consulta) (r : FilaConsulta) :
  fc_id (fold_left aplicar_c sc r) = fc_id r.
Proof. apply aplicar_c_id. Qed.

Lemma NoDup_map_upd {A : Type} (ida : A -> Z) (upd : A -> A) (i : option Z) (l : list A) :
  (forall x, ida (upd x) = ida x) ->
  NoDup (map ida l) ->
  NoDup (map ida (map (fun r => if ref_eqb i (ida r) then upd r else r) l)).
Proof. intros H Hnd. rewrite map_upd_ids; assumption. Qed.

Lemma nuevo_rowid_mayor (seq : Z) (ids : list Z) (id : Z) :
  nuevo_rowid seq ids = Some id -> seq < id.
Proof.
  unfold nuevo_rowid. destruct (_ <=? MAX_ROWID); [|discriminate].
  intros H. inversion H; subst. lia.
Qed.

(** Closes the goals that the case analysis of a store operation leaves
    about the keys of a table. *)
Ltac cerrar_claves :=
  unfold sin_consultas_de;
  repeat match goal with
         | |- NoDup (map _ (if ?c then _ else _)) => destruct c
         end;
  first
    [ assumption
    | apply NoDup_map_filter; assumption
    | apply NoDup_map_al_final;
      [ assumption
      | first [ eapply nuevo_rowid_nuevo; eassumption
              | cbn; intros ? ? ?;
                match goal with
                | H : nombre_en _ _ = false |- _ =>
                    rewrite <- not_true_iff_false in H; apply H;
                    apply nombre_en_iff; eauto
                end ] ]
    | apply nombres_unicos_NoDup; assumption
    | apply NoDup_map_upd;
      [ intros ?;
        match goal with
        | |- fp_id (fold_left _ ?l (aplicar_p _ ?a)) = _ => apply (aplicar_p_id (a :: l))
        | |- fm_id (fold_left _ ?l (aplicar_m _ ?a)) = _ => apply (aplicar_m_id (a :: l))
        | |- fc_id (fold_left _ ?l (aplicar_c _ ?a)) = _ =>
            apply (aplicar_c_id_igual (a :: l))
        end
      | assumption ] ].

Lemma In_map_upd_cota {A : Type} (ida : A -> Z) (upd : A -> A) (i : option Z)
    (l : list A) (s : Z) :
  (forall x, ida (upd x) = ida x) ->
  (forall x, In x l -> ida x <= s) ->
  forall r, In r (map (fun r0 => if ref_eqb i (ida r0) then upd r0 else r0) l) -> ida r <= s.
Proof.
  intros Hupd Hs r Hin. apply in_map_iff in Hin. destruct Hin as [x [<- Hx]].
  destruct (ref_eqb i (ida x)); [rewrite Hupd|]; auto.
Qed.

(** The same, about the ids of a table against its sequence. *)
Ltac cerrar_secuencia :=
  unfold sin_consultas_de;
  first
    [ assumption
    | apply In_map_upd_cota;
      [ intros ?;
        match goal with
        | |- fp_id (fold_left _ ?l (aplicar_p _ ?a)) = _ => apply (aplicar_p_id (a :: l))
        | |- fm_id (fold_left _ ?l (aplicar_m _ ?a)) = _ => apply (aplicar_m_id (a :: l))
        | |- fc_id (fold_left _ ?l (aplicar_c _ ?a)) = _ =>
            apply (aplicar_c_id_igual (a :: l))
        end
      | assumption ]
    | let r := fresh "r" in
      let Hin := fresh "Hin" in
      intros r Hin;
      repeat match type of Hin with
             | In _ (if ?c then _ else _) => destruct c
             end;
      first
        [ solve [auto]
        | apply filter_In in Hin; destruct Hin as [Hin _]; solve [auto]
        | apply in_app_or in Hin; destruct Hin as [Hin | [<- | []]];
          [ match goal with
            | H : nuevo_rowid _ _ = Some _ |- _ => apply nuevo_rowid_mayor in H
            end;
            match goal with
            | Hs : forall x, In x _ -> _ <= _ |- _ => pose proof (Hs _ Hin); lia
            end
          | cbn; lia ] ] ].

(** Every store operation leaves the keys unique and the sequences up
    to date, faults or not. *)
Lemma llamar_claves (c : llamada) (w : Mundo) :
  almacen_ordenado w -> almacen_ordenado (snd (llamar c w)).
Proof.
  destruct w as [b cf fk fl lg tc].
  unfold almacen_ordenado, base_ordenada, claves_unicas, secuencia_al_dia.
  cbn [db confirmada].
  intros [[(Hb1 & Hb2 & Hb3 & Hb4) (Hb5 & Hb6 & Hb7)]
          [(Hc1 & Hc2 & Hc3 & Hc4) (Hc5 & Hc6 & Hc7)]].
  destruct c; abrir_llamada; por_casos;
    cbn [db confirmada propietarios mascotas consultas
         seq_propietarios seq_mascotas seq_consultas];
    repeat split; first [cerrar_claves | cerrar_secuencia].
Qed.

Lemma avanza_llamar (c : llamada) : avanza (llamar c).
Proof.
  intros w. split; [apply llamar_claves|].
  exists []. symmetry. apply llamar_marco.
Qed.

Lemma avanza_sub {A B : Type} (c : M A) (f : A -> B) :
  avanza (bind c (fun r => ret (f r))) -> avanza c.
Proof.
  intros H w. specialize (H w). unfold bind, ret in H.
  destruct (c w) as [[a|e] w1]; exact H.
Qed.

(** *** The console *)

Lemma avanza_consola {A : Type} (desde : list string -> py A * list string) :
  (forall lineas, exists pre, lineas = (pre ++ snd (desde lineas))%list) ->
  avanza (fun w => let r := desde (stdin w) in (fst r, con_stdin (snd r) w)).
Proof.
  intros H w. cbv zeta. cbn [snd]. split; [auto|]. cbn [stdin con_stdin]. apply H.
Qed.

Lemma avanza_input : avanza UIUtils.input.
Proof.
  intros w. unfold UIUtils.input. destruct (stdin w) as [|l resto] eqn:E; cbn [snd].
  - apply sigue_refl.
  - split; [auto|]. exists [l]. cbn. exact E.
Qed.

Lemma avanza_get_int_input : avanza UIUtils.get_int_input.
Proof. apply avanza_consola, get_int_input_desde_resto. Qed.

Lemma avanza_get_date_input : avanza UIUtils.get_date_input.
Proof. apply avanza_consola, get_date_input_desde_resto. Qed.

Lemma avanza_confirm_action : avanza UIUtils.confirm_action.
Proof. apply avanza_consola, confirm_action_desde_resto. Qed.

Lemma avanza_leer_edad : avanza leer_edad.
Proof. apply avanza_consola, leer_edad_desde_resto. Qed.

(** One step of a proof that a workflow only moves forward, following
    the shape of the code. *)
Ltac paso_avanza :=
  lazymatch goal with
  | |- avanza (bind _ _) => apply avanza_bind; [| intros ?]
  | |- avanza (ret _) => apply avanza_ret
  | |- avanza (of_py _) => apply avanza_of_py
  | |- avanza UIUtils.input => apply avanza_input
  | |- avanza UIUtils.get_int_input => apply avanza_get_int_input
  | |- avanza UIUtils.get_date_input => apply avanza_get_date_input
  | |- avanza UIUtils.confirm_action => apply avanza_confirm_action
  | |- avanza leer_edad => apply avanza_leer_edad
  | |- avanza (insert_propietario ?p) =>
      apply (avanza_sub _ D_propietario); exact (avanza_llamar (Ll_insert_propietario p))
  | |- avanza (get_propietario_by_nombre ?n) =>
      apply (avanza_sub _ D_propietario);
      exact (avanza_llamar (Ll_get_propietario_by_nombre n))
  | |- avanza (get_propietario_by_id ?i) =>
      apply (avanza_sub _ D_propietario); exact (avanza_llamar (Ll_get_propietario_by_id i))
  | |- avanza get_all_propietarios =>
      apply (avanza_sub _ D_propietarios); exact (avanza_llamar Ll_get_all_propietarios)
  | |- avanza (update_propietario ?i ?d) =>
      apply (avanza_sub _ D_bool); exact (avanza_llamar (Ll_update_propietario i d))
  | |- avanza (delete_propietario ?i) =>
      apply (avanza_sub _ D_bool); exact (avanza_llamar (Ll_delete_propietario i))
  | |- avanza (insert_mascota ?m) =>
      apply (avanza_sub _ D_mascota); exact (avanza_llamar (Ll_insert_mascota m))
  | |- avanza get_all_mascotas =>
      apply (avanza_sub _ D_mascotas); exact (avanza_llamar Ll_get_all_mascotas)
  | |- avanza (get_mascota_by_id ?i) =>
      apply (avanza_sub _ D_mascota); exact (avanza_llamar (Ll_get_mascota_by_id i))
  | |- avanza (update_mascota ?i ?d) =>
      apply (avanza_sub _ D_bool); exact (avanza_llamar (Ll_update_mascota i d))
  | |- avanza (delete_mascota ?i) =>
      apply (avanza_sub _ D_bool); exact (avanza_llamar (Ll_delete_mascota i))
  | |- avanza (insert_consulta ?c) =>
      apply (avanza_sub _ D_consulta); exact (avanza_llamar (Ll_insert_consulta c))
  | |- avanza (get_consultas_by_mascota_id ?i) =>
      apply (avanza_sub _ D_consultas);
      exact (avanza_llamar (Ll_get_consultas_by_mascota_id i))
  | |- avanza (get_consulta_by_id ?i) =>
      apply (avanza_sub _ D_consulta); exact (avanza_llamar (Ll_get_consulta_by_id i))
  | |- avanza (update_consulta ?i ?d) =>
      apply (avanza_sub _ D_bool); exact (avanza_llamar (Ll_update_consulta i d))
  | |- avanza (delete_consulta ?i) =>
      apply (avanza_sub _ D_bool); exact (avanza_llamar (Ll_delete_consulta i))
  | |- avanza (let _ := _ in _) => cbv zeta
  | |- avanza (match ?x with _ => _ end) => destruct x
  end.

Ltac avanzar := repeat paso_avanza.

(** *** The workflows *)

Lemma avanza__get_propietario_or_create (owner_name : string) :
  avanza (_get_propietario_or_create owner_name).
Proof. unfold _get_propietario_or_create. avanzar. Qed.

Lemma avanza__get_mascota : avanza _get_mascota.
Proof. unfold _get_mascota. avanzar. Qed.

Lemma avanza__get_propietario : avanza _get_propietario.
Proof. unfold _get_propietario. avanzar. Qed.

Lemma avanza__get_consulta : avanza _get_consulta.
Proof. unfold _get_consulta. avanzar. Qed.

Ltac avanzar_menu :=
  repeat first
    [ apply avanza__get_propietario_or_create
    | apply avanza__get_mascota
    | apply avanza__get_propietario
    | apply avanza__get_consulta
    | paso_avanza ].

Lemma avanza_registrar_mascota : avanza registrar_mascota.
Proof. unfold registrar_mascota. avanzar_menu. Qed.

Lemma avanza_registrar_consulta : avanza registrar_consulta.
Proof. unfold registrar_consulta. avanzar_menu. Qed.

Lemma avanza_listar_propietarios : avanza listar_propietarios.
Proof. unfold listar_propietarios. avanzar_menu. Qed.

Lemma avanza_listar_mascotas : avanza listar_mascotas.
Proof. unfold listar_mascotas. avanzar_menu. Qed.

Lemma avanza_historia_clinica : avanza historia_clinica.
Proof. unfold historia_clinica. avanzar_menu. Qed.

Lemma avanza_actualizar_propietario : avanza actualizar_propietario.
Proof. unfold actualizar_propietario. avanzar_menu. Qed.

Lemma avanza_actualizar_mascota : avanza actualizar_mascota.
Proof. unfold actualizar_mascota. avanzar_menu. Qed.

Lemma avanza_actualizar_consulta : avanza actualizar_consulta.
Proof. unfold actualizar_consulta. avanzar_menu. Qed.

Lemma avanza_eliminar_propietario : avanza eliminar_propietario.
Proof. unfold eliminar_propietario. avanzar_menu. Qed.

Lemma avanza_eliminar_mascota : avanza eliminar_mascota.
Proof. unfold eliminar_mascota. avanzar_menu. Qed.

Lemma avanza_eliminar_consulta : avanza eliminar_consulta.
Proof. unfold eliminar_consulta. avanzar_menu. Qed.

(** Every turn of the menu only moves forward. *)
Lemma avanza_ejecutar (o : opcion) : avanza (ejecutar o).
Proof.
  destruct o; cbn [ejecutar];
    auto using avanza_registrar_mascota, avanza_registrar_consulta,
      avanza_listar_propietarios, avanza_listar_mascotas, avanza_historia_clinica,
      avanza_actualizar_propietario, avanza_actualizar_mascota,
      avanza_actualizar_consulta, avanza_eliminar_propietario,
      avanza_eliminar_mascota, avanza_eliminar_consulta.
Qed.

Lemma alcanzable_ordenado (w : Mundo) : alcanzable w -> almacen_ordenado w.
Proof.
  induction 1 as [faults teclado | w o _ IH | w faults teclado _ IH].
  - unfold almacen_ordenado, base_ordenada, claves_unicas, secuencia_al_dia. cbn.
    repeat split; try constructor; intros ? [].
  - apply (avanza_ejecutar o w), IH.
  - destruct IH as [_ Hc]. split; exact Hc.
Qed.

(** In every state the program reaches, no two rows of a table share an
    id and no two owners share a name. *)
Lemma alcanzable_claves_unicas (w : Mundo) :
  alcanzable w -> claves_unicas (db w).
Proof. intros H. apply (alcanzable_ordenado w H). Qed.

Lemma alcanzable_secuencia (w : Mundo) :
  alcanzable w -> secuencia_al_dia (db w).
Proof. intros H. apply (alcanzable_ordenado w H). Qed.

(** ** How the workflows and [main] end *)

Lemma get_consulta_by_id_devuelve (w : Mundo) (i : option Z) :
  (forall c, In c (consultas (db w)) -> es_fecha_iso (fc_fecha c) = true) ->
  exists r, fst (get_consulta_by_id i w) = Ret r.
Proof.
  intros Hiso.
  unfold get_consulta_by_id, execute_SELECT_consultas_JOIN_id. desplegar.
  caso_falla; [eexists; reflexivity|]. cbn [fst snd db con_sql_log con_fallos].
  caso_falla; [eexists; reflexivity|]. cbn [fst snd].
  destruct (filter _ _) as [|f l] eqn:E; cbn; [eexists; reflexivity|].
  assert (Hin : In f (filter (fun f0 : FilaConsulta * string => ref_eqb i (fc_id (fst f0)))
                        (consultas_JOIN_mascotas (db w))))
    by (rewrite E; now left).
  apply filter_In in Hin. destruct Hin as [Hin _]. apply in_consultas_JOIN in Hin.
  destruct (es_fecha_iso_elim _ (Hiso _ Hin)) as [d (_ & _ & Hp)].
  unfold consulta_de_fila, Consulta_init. rewrite Hp. cbn. eexists. reflexivity.
Qed.

(** From a healthy store, every store operation returns: no exception
    leaves [DatabaseManager]. *)
Lemma llamar_sano_devuelve (c : llamada) (w : Mundo) :
  mundo_sano w -> exists r, fst (llamar c w) = Ret r.
Proof.
  intros ([_ Hiso] & _).
  destruct c;
    try (apply llamar_devuelve; intros; discriminate).
  - destruct (consultas_ordenadas_si_iso w mascota_id Hiso) as [l [Hl _]].
    unfold llamar, bind. destruct (get_consultas_by_mascota_id mascota_id w) as [r w'].
    cbn in *. rewrite Hl. eexists. reflexivity.
  - destruct (get_consulta_by_id_devuelve w consulta_id Hiso) as [r Hr].
    unfold llamar, bind. destruct (get_consulta_by_id consulta_id w) as [r' w'].
    cbn in *. rewrite Hr. eexists. reflexivity.
Qed.

Lemma sfe_ret {A : Type} (a : A) : solo_fin_de_entrada (ret a).
Proof. intros w _ e H. discriminate H. Qed.

Lemma sfe_of_py_ret {A : Type} (a : A) : solo_fin_de_entrada (of_py (Ret a)).
Proof. intros w _ e H. discriminate H. Qed.

Lemma sfe_bind {A B : Type} (c : M A) (k : A -> M B) (Q : A -> Prop) :
  conserva c Q -> solo_fin_de_entrada c ->
  (forall a, Q a -> solo_fin_de_entrada (k a)) ->
  solo_fin_de_entrada (bind c k).
Proof.
  intros Hc Hs Hk w Hw e. unfold bind.
  destruct (Hc w Hw) as [Hw1 HQ]. specialize (Hs w Hw).
  destruct (c w) as [[a|e1] w1]; cbn [fst snd] in *.
  - apply (Hk a (HQ a eq_refl) w1 Hw1).
  - intros H. inversion H; subst. apply Hs. reflexivity.
Qed.

(** A store operation followed by nothing that can fail. *)
Lemma sfe_bind_ret {A B : Type} (c : M A) (b : B) :
  solo_fin_de_entrada c -> solo_fin_de_entrada (bind c (fun _ => ret b)).
Proof.
  intros Hs w Hw e. unfold bind, ret. specialize (Hs w Hw).
  destruct (c w) as [[a|e1] w1]; cbn [fst] in *; [discriminate|].
  intros H. inversion H; subst. apply Hs. reflexivity.
Qed.

Lemma sfe_sub {A B : Type} (c : M A) (f : A -> B) :
  solo_fin_de_entrada (bind c (fun r => ret (f r))) -> solo_fin_de_entrada c.
Proof.
  intros H w Hw e He. apply (H w Hw). unfold bind, ret.
  destruct (c w) as [[a|e1] w1]; cbn [fst] in *; [discriminate | congruence].
Qed.

Lemma sfe_llamar (c : llamada) : solo_fin_de_entrada (llamar c).
Proof.
  intros w Hw e He. destruct (llamar_sano_devuelve c w Hw) as [r Hr]. congruence.
Qed.

Lemma sfe_input : solo_fin_de_entrada UIUtils.input.
Proof.
  intros w _ e. unfold UIUtils.input. destruct (stdin w); cbn; intros H;
    inversion H; reflexivity.
Qed.

Lemma sfe_consola {A : Type} (desde : list string -> py A * list string) :
  (forall lineas e, fst (desde lineas) = Raise e -> e = EOFError) ->
  solo_fin_de_entrada (fun w => let r := desde (stdin w) in (fst r, con_stdin (snd r) w)).
Proof. intros H w _ e. cbn. apply H. Qed.

Lemma get_int_input_desde_fin (lineas : list string) (e : excepcion) :
  fst (UIUtils.get_int_input_desde lineas) = Raise e -> e = EOFError.
Proof.
  induction lineas as [|l resto IH]; cbn.
  - intros H; inversion H; reflexivity.
  - destruct (PyStr.int l); [discriminate | exact IH].
Qed.

Lemma get_date_input_desde_fin (lineas : list string) (e : excepcion) :
  fst (UIUtils.get_date_input_desde lineas) = Raise e -> e = EOFError.
Proof.
  induction lineas as [|l resto IH]; cbn.
  - intros H; inversion H; reflexivity.
  - destruct (strptime_dmY (PyStr.strip l)); [discriminate | exact IH].
Qed.

Lemma confirm_action_desde_fin (lineas : list string) (e : excepcion) :
  fst (UIUtils.confirm_action_desde lineas) = Raise e -> e = EOFError.
Proof.
  induction lineas as [|l resto IH]; cbn.
  - intros H; inversion H; reflexivity.
  - destruct (_ || _); [discriminate | exact IH].
Qed.

Lemma leer_edad_desde_fin (lineas : list string) (e : excepcion) :
  fst (leer_edad_desde lineas) = Raise e -> e = EOFError.
Proof.
  induction lineas as [|l resto IH]; cbn.
  - intros H; inversion H; reflexivity.
  - destruct (PyStr.int l) as [v|]; [destruct (v <? 0)|]; [exact IH | discriminate | exact IH].
Qed.

(** One step of a proof about how a workflow ends, following the shape
    of the code. *)
Ltac paso_fin :=
  lazymatch goal with
  | |- solo_fin_de_entrada (bind _ (fun _ => ret _)) => apply sfe_bind_ret
  | |- solo_fin_de_entrada (bind _ _) =>
      eapply sfe_bind; [solve [conservar_menu; cerrar_sana] | | intros ? ?]
  | |- solo_fin_de_entrada (ret _) => apply sfe_ret
  | |- solo_fin_de_entrada (of_py (Ret _)) => apply sfe_of_py_ret
  | |- solo_fin_de_entrada UIUtils.input => apply sfe_input
  | |- solo_fin_de_entrada UIUtils.get_int_input =>
      apply sfe_consola, get_int_input_desde_fin
  | |- solo_fin_de_entrada UIUtils.get_date_input =>
      apply sfe_consola, get_date_input_desde_fin
  | |- solo_fin_de_entrada UIUtils.confirm_action =>
      apply sfe_consola, confirm_action_desde_fin
  | |- solo_fin_de_entrada leer_edad => apply sfe_consola, leer_edad_desde_fin
  | |- solo_fin_de_entrada (insert_propietario ?p) =>
      apply (sfe_sub _ D_propietario); exact (sfe_llamar (Ll_insert_propietario p))
  | |- solo_fin_de_entrada (get_propietario_by_nombre ?n) =>
      apply (sfe_sub _ D_propietario); exact (sfe_llamar (Ll_get_propietario_by_nombre n))
  | |- solo_fin_de_entrada (get_propietario_by_id ?i) =>
      apply (sfe_sub _ D_propietario); exact (sfe_llamar (Ll_get_propietario_by_id i))
  | |- solo_fin_de_entrada get_all_propietarios =>
      apply (sfe_sub _ D_propietarios); exact (sfe_llamar Ll_get_all_propietarios)
  | |- solo_fin_de_entrada (update_propietario ?i ?d) =>
      apply (sfe_sub _ D_bool); exact (sfe_llamar (Ll_update_propietario i d))
  | |- solo_fin_de_entrada (delete_propietario ?i) =>
      apply (sfe_sub _ D_bool); exact (sfe_llamar (Ll_delete_propietario i))
  | |- solo_fin_de_entrada (insert_mascota ?m) =>
      apply (sfe_sub _ D_mascota); exact (sfe_llamar (Ll_insert_mascota m))
  | |- solo_fin_de_entrada get_all_mascotas =>
      apply (sfe_sub _ D_mascotas); exact (sfe_llamar Ll_get_all_mascotas)
  | |- solo_fin_de_entrada (get_mascota_by_id ?i) =>
      apply (sfe_sub _ D_mascota); exact (sfe_llamar (Ll_get_mascota_by_id i))
  | |- solo_fin_de_entrada (update_mascota ?i ?d) =>
      apply (sfe_sub _ D_bool); exact (sfe_llamar (Ll_update_mascota i d))
  | |- solo_fin_de_entrada (delete_mascota ?i) =>
      apply (sfe_sub _ D_bool); exact (sfe_llamar (Ll_delete_mascota i))
  | |- solo_fin_de_entrada (insert_consulta ?c) =>
      apply (sfe_sub _ D_consulta); exact (sfe_llamar (Ll_insert_consulta c))
  | |- solo_fin_de_entrada (get_consultas_by_mascota_id ?i) =>
      apply (sfe_sub _ D_consultas); exact (sfe_llamar (Ll_get_consultas_by_mascota_id i))
  | |- solo_fin_de_entrada (get_consulta_by_id ?i) =>
      apply (sfe_sub _ D_consulta); exact (sfe_llamar (Ll_get_consulta_by_id i))
  | |- solo_fin_de_entrada (update_consulta ?i ?d) =>
      apply (sfe_sub _ D_bool); exact (sfe_llamar (Ll_update_consulta i d))
  | |- solo_fin_de_entrada (delete_consulta ?i) =>
      apply (sfe_sub _ D_bool); exact (sfe_llamar (Ll_delete_consulta i))
  | |- solo_fin_de_entrada (let _ := _ in _) => cbv zeta
  | |- solo_fin_de_entrada (match ?x with _ => _ end) => destruct x
  end.

Lemma sfe__get_propietario_or_create (owner_name : string) :
  solo_fin_de_entrada (_get_propietario_or_create owner_name).
Proof. unfold _get_propietario_or_create. repeat paso_fin. Qed.

Lemma sfe__get_mascota : solo_fin_de_entrada _get_mascota.
Proof. unfold _get_mascota. repeat paso_fin. Qed.

Lemma sfe__get_propietario : solo_fin_de_entrada _get_propietario.
Proof. unfold _get_propietario. repeat paso_fin. Qed.

Lemma sfe__get_consulta : solo_fin_de_entrada _get_consulta.
Proof. unfold _get_consulta. repeat paso_fin. Qed.

Ltac fin_menu :=
  repeat first
    [ apply sfe__get_propietario_or_create
    | apply sfe__get_mascota
    | apply sfe__get_propietario
    | apply sfe__get_consulta
    | paso_fin ].

Lemma sfe_registrar_mascota : solo_fin_de_entrada registrar_mascota.
Proof. unfold registrar_mascota. fin_menu. Qed.

Lemma sfe_registrar_consulta : solo_fin_de_entrada registrar_consulta.
Proof. unfold registrar_consulta, Consulta_init. fin_menu. Qed.

Lemma sfe_listar_propietarios : solo_fin_de_entrada listar_propietarios.
Proof. unfold listar_propietarios. fin_menu. Qed.

Lemma sfe_listar_mascotas : solo_fin_de_entrada listar_mascotas.
Proof. unfold listar_mascotas. fin_menu. Qed.

Lemma sfe_historia_clinica : solo_fin_de_entrada historia_clinica.
Proof. unfold historia_clinica. fin_menu. Qed.

Lemma sfe_actualizar_propietario : solo_fin_de_entrada actualizar_propietario.
Proof. unfold actualizar_propietario. fin_menu. Qed.

Lemma sfe_actualizar_mascota : solo_fin_de_entrada actualizar_mascota.
Proof. unfold actualizar_mascota. fin_menu. Qed.

Lemma sfe_actualizar_consulta : solo_fin_de_entrada actualizar_consulta.
Proof. unfold actualizar_consulta. fin_menu. Qed.

Lemma sfe_eliminar_propietario : solo_fin_de_entrada eliminar_propietario.
Proof. unfold eliminar_propietario. fin_menu. Qed.

Lemma sfe_eliminar_mascota : solo_fin_de_entrada eliminar_mascota.
Proof. unfold eliminar_mascota. fin_menu. Qed.

Lemma sfe_eliminar_consulta : solo_fin_de_entrada eliminar_consulta.
Proof. unfold eliminar_consulta. fin_menu. Qed.

Lemma sfe_ejecutar (o : opcion) : solo_fin_de_entrada (ejecutar o).
Proof.
  destruct o; cbn [ejecutar];
    auto using sfe_registrar_mascota, sfe_registrar_consulta,
      sfe_listar_propietarios, sfe_listar_mascotas, sfe_historia_clinica,
      sfe_actualizar_propietario, sfe_actualizar_mascota,
      sfe_actualizar_consulta, sfe_eliminar_propietario,
      sfe_eliminar_mascota, sfe_eliminar_consulta.
Qed.

(** ** The loop of [main] *)

Lemma sigue_lineas (w w' : Mundo) :
  sigue w w' -> (List.length (stdin w') <= List.length (stdin w))%nat /\
                forall l, In l (stdin w') -> In l (stdin w).
Proof.
  intros [_ [pre E]]. rewrite E. split.
  - rewrite length_app. lia.
  - intros l Hl. apply in_or_app. now right.
Qed.

Lemma main_bucle_termina (turnos : nat) (w : Mundo) :
  (List.length (stdin w) < turnos)%nat -> exists r, main_bucle turnos w = Some r.
Proof.
  revert w. induction turnos as [|n IH]; intros w Hn; [lia|].
  cbn [main_bucle]. unfold UIUtils.input.
  destruct (stdin w) as [|l resto] eqn:E; [eauto|].
  cbn [List.length] in Hn.
  destruct (seleccionar l) as [o| |].
  - pose proof (sigue_lineas _ _ (avanza_ejecutar o (con_stdin resto w))) as [Hlen _].
    destruct (ejecutar o (con_stdin resto w)) as [[u|e] w2]; [|eauto].
    apply IH. cbn [snd stdin con_stdin] in Hlen. lia.
  - eauto.
  - apply IH. cbn. lia.
Qed.

Lemma main_bucle_mas_turnos (n m : nat) (w : Mundo) (r : fin_main * Mundo) :
  main_bucle n w = Some r -> (n <= m)%nat -> main_bucle m w = Some r.
Proof.
  revert m w. induction n as [|n IH]; intros m w H Hm; [discriminate|].
  destruct m as [|m]; [lia|]. cbn [main_bucle] in *.
  destruct (UIUtils.input w) as [[l|e] w1]; [|exact H].
  destruct (seleccionar l) as [o| |].
  - destruct (ejecutar o w1) as [[u|e] w2]; [|exact H]. apply IH; [exact H | lia].
  - exact H.
  - apply IH; [exact H | lia].
Qed.

(** [main] always ends: with as many turns as lines left to type, and
    one more, the loop is over, and more turns change nothing. *)
Lemma main_termina (w : Mundo) :
  exists r, forall turnos,
      (List.length (stdin w) < turnos)%nat -> main turnos w = Some r.
Proof.
  destruct (main_bucle_termina (S (List.length (stdin w))) w) as [[f w'] Hr]; [lia|].
  exists (f, close_connection w'). intros turnos Hn. unfold main.
  rewrite (main_bucle_mas_turnos _ turnos _ _ Hr) by lia. reflexivity.
Qed.

Lemma almacen_ordenado_con_stdin (l : list string) (w : Mundo) :
  almacen_ordenado w -> almacen_ordenado (con_stdin l w).
Proof. unfold almacen_ordenado. cbn. auto. Qed.

Lemma main_bucle_conserva (turnos : nat) (w w' : Mundo) (f : fin_main) :
  mundo_sano w -> almacen_ordenado w ->
  main_bucle turnos w = Some (f, w') ->
  mundo_sano w' /\ almacen_ordenado w'.
Proof.
  revert w. induction turnos as [|n IH]; intros w Hs Ho; [discriminate|].
  cbn [main_bucle]. unfold UIUtils.input.
  destruct (stdin w) as [|l resto] eqn:E.
  - intros H. inversion H; subst. auto.
  - pose proof (mundo_sano_con_stdin resto w Hs) as Hs1.
    pose proof (almacen_ordenado_con_stdin resto w Ho) as Ho1.
    destruct (seleccionar l) as [o| |].
    + pose proof (conserva_ejecutar o _ Hs1) as [Hs2 _].
      pose proof (avanza_ejecutar o (con_stdin resto w)) as [Ho2 _].
      specialize (Ho2 Ho1).
      destruct (ejecutar o (con_stdin resto w)) as [[u|e] w2]; cbn [snd] in *.
      * apply IH; assumption.
      * intros H. inversion H; subst. auto.
    + intros H. inversion H; subst. auto.
    + apply IH; assumption.
Qed.


Lemma seleccionar_salir (l : string) : seleccionar l = Sel_salir -> l = "12".
Proof.
  unfold seleccionar.
  repeat match goal with
         | |- (if ?c then _ else _) = _ -> _ => destruct c eqn:?; [discriminate|]
         end.
  destruct (String.eqb l "12") eqn:E; [|discriminate].
  intros _. now apply String.eqb_eq.
Qed.

Lemma main_bucle_fin (turnos : nat) (w w' : Mundo) (f : fin_main) :
  mundo_sano w ->
  main_bucle turnos w = Some (f, w') ->
  (f = Fin_salir /\ In "12" (stdin w)) \/ f = Fin_excepcion EOFError.
Proof.
  revert w. induction turnos as [|n IH]; intros w Hs; [discriminate|].
  cbn [main_bucle]. unfold UIUtils.input.
  destruct (stdin w) as [|l resto] eqn:E.
  - intros H. inversion H; subst. now right.
  - pose proof (mundo_sano_con_stdin resto w Hs) as Hs1.
    destruct (seleccionar l) as [o| |] eqn:El.
    + pose proof (conserva_ejecutar o _ Hs1) as [Hs2 _].
      pose proof (sigue_lineas _ _ (avanza_ejecutar o (con_stdin resto w))) as [_ Hin].
      pose proof (sfe_ejecutar o _ Hs1) as Hfin.
      destruct (ejecutar o (con_stdin resto w)) as [[u|e] w2]; cbn [fst snd] in *.
      * intros H. destruct (IH w2 Hs2 H) as [[-> H12] | ->]; [left | now right].
        split; [reflexivity|]. right. apply (Hin _ H12).
      * intros H. inversion H; subst. right. f_equal. apply Hfin. reflexivity.
    + intros H. inversion H; subst. left. split; [reflexivity|].
      left. now apply seleccionar_salir.
    + intros H. destruct (IH _ Hs1 H) as [[-> H12] | ->]; [left | now right].
      split; [reflexivity|]. right. exact H12.
Qed.


(** ** Worked instances: the store *)

(** Closes [NoDup] of a list of concrete keys. *)
Ltac claves_distintas :=
  repeat (constructor; [cbn; intuition discriminate|]); constructor.

Lemma insert_propietario_y_lectura_witness :
  exists id,
    let p := Propietario_init "Bob" "555-2222" "Calle 2" None in
    let nuevo := mkPropietario (Some id) "Bob" "555-2222" "Calle 2" in
    let w' := snd (insert_propietario p (sesion base_escenario false [] [] [])) in
    fst (insert_propietario p (sesion base_escenario false [] [] [])) = Ret (Some nuevo) /\
    (forall r, In r (propietarios base_escenario) -> fp_id r < id) /\
    propietarios (db w')
      = (propietarios base_escenario
         ++ [mkFilaPropietario id "Bob" "555-2222" "Calle 2"])%list /\
    mascotas (db w') = mascotas base_escenario /\
    consultas (db w') = consultas base_escenario /\
    fst (get_propietario_by_id (Some id) w') = Ret (Some nuevo).
Proof.
  apply (insert_propietario_y_lectura base_escenario false [] []
           (Propietario_init "Bob" "555-2222" "Calle 2" None)).
  - intros r [<- | []]. cbn. discriminate.
  - vm_compute. reflexivity.
Defined.


(** On a connection without faults, a visit with a valid date of a
    four-digit year, for a pet whose row is in the store, reads back by
    the id that [insert_consulta] assigned with the same date. *)
Lemma insert_consulta_y_lectura (b : BaseDatos) (fk : bool) (log : list sentencia)
    (t : list string) (c c' : Consulta) (m : FilaMascota) :
  fecha_valida (c_fecha c) -> 1000 <= year (c_fecha c) ->
  In m (mascotas b) ->
  c_mascota_id c = Some (fm_id m) ->
  fst (insert_consulta c (sesion b fk [] log t)) = Ret (Some c') ->
  exists c'',
    fst (get_consulta_by_id (c_id c') (snd (insert_consulta c (sesion b fk [] log t))))
      = Ret (Some c'') /\
    c_fecha c'' = c_fecha c.
Proof. intros Hv _. now apply insert_consulta_ida_y_vuelta. Qed.

Lemma insert_consulta_y_lectura_witness :
  let c := mkConsulta None (mkdate 2024 10 15) "vacuna" "sano" (Some 1) None in
  exists c'',
    fst (get_consulta_by_id (Some 2)
           (snd (insert_consulta c (sesion base_escenario false [] [] []))))
      = Ret (Some c'') /\
    c_fecha c'' = mkdate 2024 10 15.
Proof.
  cbv zeta.
  apply (insert_consulta_y_lectura base_escenario false [] []
           (mkConsulta None (mkdate 2024 10 15) "vacuna" "sano" (Some 1) None)
           (mkConsulta (Some 2) (mkdate 2024 10 15) "vacuna" "sano" (Some 1) None)
           (mkFilaMascota 1 "Rex" "dog" "lab" 3 (Some 1))).
  - reflexivity.
  - cbn. lia.
  - cbn. left. reflexivity.
  - reflexivity.
  - reflexivity.
Defined.

Lemma update_consulta_fecha_y_lectura_witness :
  let nd := [Set_c_fecha (FechaDate (mkdate 2024 6 2)); Set_c_motivo "control"] in
  fst (update_consulta (Some 1) nd (sesion base_escenario false [] [] [])) = Ret true /\
  exists c',
    fst (get_consulta_by_id (Some 1)
           (snd (update_consulta (Some 1) nd (sesion base_escenario false [] [] []))))
      = Ret (Some c') /\
    c_fecha c' = mkdate 2024 6 2 /\ c_id c' = Some 1.
Proof.
  cbv zeta.
  apply (update_consulta_fecha_y_lectura base_escenario false [] []
           (mkFilaConsulta 1 "2024-05-01" "checkup" "healthy" (Some 1))
           (mkFilaMascota 1 "Rex" "dog" "lab" 3 (Some 1))
           (mkdate 2024 6 2)
           [Set_c_fecha (FechaDate (mkdate 2024 6 2)); Set_c_motivo "control"]).
  - cbn. claves_distintas.
  - cbn. left. reflexivity.
  - cbn. left. reflexivity.
  - reflexivity.
  - reflexivity.
  - cbn. lia.
  - cbn. left. reflexivity.
  - cbn. intros v [H | [H | []]]; [now inversion H | discriminate H].
Defined.

Lemma update_propietario_parcial_witness :
  let w := sesion base_escenario false [] [] [] in
  let b' := db (snd (update_propietario (Some 1) [Set_p_telefono "555-9999"] w)) in
  let r := mkFilaPropietario 1 "Ana" "555-1111" "Calle 1" in
  mascotas b' = mascotas base_escenario /\ consultas b' = consultas base_escenario /\
  (fp_id r <> 1 -> In r (propietarios b')) /\
  (fp_id r = 1 ->
   exists r', In r' (propietarios b') /\ fp_id r' = 1 /\
     ((forall v, ~ In (Set_p_nombre v) [Set_p_telefono "555-9999"]) ->
      fp_nombre r' = fp_nombre r) /\
     ((forall v, ~ In (Set_p_telefono v) [Set_p_telefono "555-9999"]) ->
      fp_telefono r' = fp_telefono r) /\
     ((forall v, ~ In (Set_p_direccion v) [Set_p_telefono "555-9999"]) ->
      fp_direccion r' = fp_direccion r)).
Proof.
  cbv zeta.
  apply (update_propietario_parcial base_escenario false [] [] [] 1
           [Set_p_telefono "555-9999"] (mkFilaPropietario 1 "Ana" "555-1111" "Calle 1")).
  - reflexivity.
  - cbn. left. reflexivity.
Defined.

(** The seven reads of [DatabaseManager] leave the tables, the last
    commit, the console and the pragma as they were, whatever they
    return and whatever faults strike. *)
Lemma lecturas_no_escriben (c : llamada) (w : Mundo) :
  es_lectura c = true ->
  db (snd (llamar c w)) = db w /\
  confirmada (snd (llamar c w)) = confirmada w /\
  stdin (snd (llamar c w)) = stdin w /\
  foreign_keys (snd (llamar c w)) = foreign_keys w.
Proof. apply llamar_lectura_marco. Qed.

Lemma lecturas_no_escriben_witness :
  db (snd (llamar (Ll_get_consultas_by_mascota_id (Some 1)) mundo_con_fallo))
    = db mundo_con_fallo /\
  confirmada (snd (llamar (Ll_get_consultas_by_mascota_id (Some 1)) mundo_con_fallo))
    = confirmada mundo_con_fallo /\
  stdin (snd (llamar (Ll_get_consultas_by_mascota_id (Some 1)) mundo_con_fallo))
    = stdin mundo_con_fallo /\
  foreign_keys (snd (llamar (Ll_get_consultas_by_mascota_id (Some 1)) mundo_con_fallo))
    = foreign_keys mundo_con_fallo.
Proof.
  apply (lecturas_no_escriben (Ll_get_consultas_by_mascota_id (Some 1)) mundo_con_fallo).
  reflexivity.
Defined.

(** On a connection without faults, a visit row whose text is not a
    [%Y-%m-%d] date makes [get_consulta_by_id] raise [ValueError]: the
    exception comes from [Consulta.__init__] and the method, which only
    catches [sqlite3.Error], lets it through. *)
Lemma get_consulta_by_id_fecha_ilegible (w : Mundo) (c : FilaConsulta) (m : FilaMascota) :
  fallos w = [] ->
  NoDup (map fc_id (consultas (db w))) ->
  In c (consultas (db w)) -> In m (mascotas (db w)) ->
  fc_id_mascota c = Some (fm_id m) ->
  strptime_Ymd (fc_fecha c) = None ->
  fst (get_consulta_by_id (Some (fc_id c)) w) = Raise ValueError.
Proof.
  intros Hf Hnd Hc Hm Href Hp.
  pose proof (get_consulta_by_id_presente w c m Hf Hnd Hc Hm Href) as H.
  rewrite Hp in H. exact H.
Qed.

Lemma get_consulta_by_id_fecha_ilegible_witness :
  fst (get_consulta_by_id (Some 1) (Sqlite3.connect base_fecha_ilegible [] []))
  = Raise ValueError.
Proof.
  apply (get_consulta_by_id_fecha_ilegible (Sqlite3.connect base_fecha_ilegible [] [])
           (mkFilaConsulta 1 "01/05/2024" "checkup" "healthy" (Some 1))
           (mkFilaMascota 1 "Rex" "dog" "lab" 3 (Some 1))).
  - reflexivity.
  - cbn. claves_distintas.
  - cbn. left. reflexivity.
  - cbn. left. reflexivity.
  - reflexivity.
  - reflexivity.
Defined.

(** A visit row whose pet row is not in the store is out of reach: the
    read by its id returns [None], no listing of visits carries it, and
    the row stays in the table. *)
Lemma consulta_huerfana_invisible (w : Mundo) (c : FilaConsulta) :
  In c (consultas (db w)) ->
  NoDup (map fc_id (consultas (db w))) ->
  (forall m, In m (mascotas (db w)) -> fc_id_mascota c <> Some (fm_id m)) ->
  fst (get_consulta_by_id (Some (fc_id c)) w) = Ret None /\
  (forall mascota_id l,
      fst (get_consultas_by_mascota_id mascota_id w) = Ret l ->
      forall x, In x l -> c_id x <> Some (fc_id c)) /\
  In c (consultas (db (snd (get_consulta_by_id (Some (fc_id c)) w)))).
Proof. apply consulta_huerfana_fuera. Qed.

Lemma consulta_huerfana_invisible_witness :
  let w := Sqlite3.connect base_consulta_huerfana [] [] in
  let c := mkFilaConsulta 1 "2024-05-01" "checkup" "healthy" (Some 1) in
  fst (get_consulta_by_id (Some 1) w) = Ret None /\
  (forall mascota_id l,
      fst (get_consultas_by_mascota_id mascota_id w) = Ret l ->
      forall x, In x l -> c_id x <> Some 1) /\
  In c (consultas (db (snd (get_consulta_by_id (Some 1) w)))).
Proof.
  cbv zeta.
  apply (consulta_huerfana_invisible (Sqlite3.connect base_consulta_huerfana [] [])
           (mkFilaConsulta 1 "2024-05-01" "checkup" "healthy" (Some 1))).
  - cbn. left. reflexivity.
  - cbn. claves_distintas.
  - cbn. intros m [].
Defined.

Lemma update_propietario_nombre_ajeno_witness :
  fst (update_propietario (Some 2) [Set_p_nombre "Ana"]
         (sesion base_dos_propietarios false [] [] [])) = Ret false /\
  db (snd (update_propietario (Some 2) [Set_p_nombre "Ana"]
             (sesion base_dos_propietarios false [] [] []))) = base_dos_propietarios.
Proof.
  apply (update_propietario_nombre_ajeno base_dos_propietarios false [] [] [] 2
           [Set_p_nombre "Ana"] "Ana" (mkFilaPropietario 1 "Ana" "555-1111" "Calle 1")).
  - cbn. left. reflexivity.
  - reflexivity.
  - cbn. discriminate.
  - cbn. intros v [H | []]. now inversion H.
  - exists "Ana". cbn. left. reflexivity.
Defined.

Lemma get_propietario_by_nombre_sin_comodines_witness :
  (forall p, fst (get_propietario_by_nombre "ANA" mundo_ana) = Ret (Some p) ->
             PyStr.lower (p_nombre p) = PyStr.lower "ANA" /\
             exists r, In r (propietarios (db mundo_ana)) /\ p = propietario_de_fila r) /\
  (fst (get_propietario_by_nombre "ANA" mundo_ana) = Ret None ->
   forall r, In r (propietarios (db mundo_ana)) ->
             PyStr.lower (fp_nombre r) <> PyStr.lower "ANA") /\
  (exists o, fst (get_propietario_by_nombre "ANA" mundo_ana) = Ret o).
Proof.
  apply (get_propietario_by_nombre_sin_comodines mundo_ana "ANA").
  - reflexivity.
  - reflexivity.
Defined.

Lemma delete_propietario_quita_una_fila_witness :
  fst (delete_propietario (Some 1) (sesion base_escenario false [] [] [])) = Ret true /\
  total_filas base_escenario
    - total_filas (db (snd (delete_propietario (Some 1)
                              (sesion base_escenario false [] [] []))))
    = 1.
Proof.
  apply (delete_propietario_quita_una_fila base_escenario [] []
           (mkFilaPropietario 1 "Ana" "555-1111" "Calle 1")).
  - cbn. claves_distintas.
  - cbn. left. reflexivity.
Defined.



(** Without foreign-key enforcement and without faults, the delete of a
    pet whose row is in the store returns [True] and removes that row
    only: each of its visits stays in the table, and from then on
    [get_consulta_by_id] returns [None] for it. *)
Lemma delete_mascota_deja_consultas (b : BaseDatos) (log : list sentencia)
    (t : list string) (m : FilaMascota) (c : FilaConsulta) :
  NoDup (map fm_id (mascotas b)) -> NoDup (map fc_id (consultas b)) ->
  In m (mascotas b) -> In c (consultas b) -> fc_id_mascota c = Some (fm_id m) ->
  let r := delete_mascota (Some (fm_id m)) (sesion b false [] log t) in
  fst r = Ret true /\
  ~ In m (mascotas (db (snd r))) /\
  (forall x, In x (mascotas b) -> x <> m -> In x (mascotas (db (snd r)))) /\
  In c (consultas (db (snd r))) /\
  fst (get_consulta_by_id (Some (fc_id c)) (snd r)) = Ret None.
Proof.
  intros Hndm Hndc Hm Hc Href. cbv zeta.
  assert (E : delete_mascota (Some (fm_id m)) (sesion b false [] log t)
              = (Ret true,
                 sesion (mkBaseDatos (propietarios b)
                           (filter (fun r => negb (ref_eqb (Some (fm_id m)) (fm_id r)))
                                   (mascotas b))
                           (consultas b)
                           (seq_propietarios b) (seq_mascotas b) (seq_consultas b))
                        false [] (DELETE_mascotas (Some (fm_id m)) :: log) t)).
  { unfold delete_mascota, execute_DELETE_mascotas, sesion. desplegar. unfold falla.
    cbn [fallos db confirmada foreign_keys sql_log con_sql_log con_db con_confirmada
         fst snd].
    destruct (filter_no_vacio (fun r => ref_eqb (Some (fm_id m)) (fm_id r)) _ m Hm)
      as [y [resto [-> _]]]; [cbn; apply Z.eqb_refl|].
    reflexivity. }
  rewrite E. cbn [fst snd db sesion mascotas consultas].
  assert (Hfuera : forall x, In x (filter (fun r => negb (ref_eqb (Some (fm_id m)) (fm_id r)))
                                          (mascotas b)) -> fm_id x <> fm_id m).
  { intros x Hx. apply filter_In in Hx. destruct Hx as [_ Hx]. cbn in Hx.
    apply negb_true_iff, Z.eqb_neq in Hx. auto. }
  split; [reflexivity|]. split; [|split; [|split; [assumption|]]].
  - intros Hin. exact (Hfuera m Hin eq_refl).
  - intros x Hx Hne. apply filter_In. split; [assumption|]. cbn.
    apply negb_true_iff, Z.eqb_neq. intros Heq. apply Hne.
    exact (NoDup_map_inj fm_id (mascotas b) x m Hndm Hx Hm (eq_sym Heq)).
  - match goal with
    | |- fst (get_consulta_by_id _ ?w) = _ =>
        destruct (consulta_huerfana_fuera w c) as [H _]; [| | |exact H]
    end; cbn [db sesion consultas mascotas]; auto.
    intros x Hx. rewrite Href. intros Heq. inversion Heq as [Hid].
    exact (Hfuera x Hx (eq_sym Hid)).
Qed.

Lemma delete_mascota_deja_consultas_witness :
  let r := delete_mascota (Some 1) (sesion base_escenario false [] [] []) in
  let m := mkFilaMascota 1 "Rex" "dog" "lab" 3 (Some 1) in
  let c := mkFilaConsulta 1 "2024-05-01" "checkup" "healthy" (Some 1) in
  fst r = Ret true /\
  ~ In m (mascotas (db (snd r))) /\
  (forall x, In x (mascotas base_escenario) -> x <> m -> In x (mascotas (db (snd r)))) /\
  In c (consultas (db (snd r))) /\
  fst (get_consulta_by_id (Some 1) (snd r)) = Ret None.
Proof.
  cbv zeta.
  apply (delete_mascota_deja_consultas base_escenario [] []
           (mkFilaMascota 1 "Rex" "dog" "lab" 3 (Some 1))
           (mkFilaConsulta 1 "2024-05-01" "checkup" "healthy" (Some 1))).
  - cbn. claves_distintas.
  - cbn. claves_distintas.
  - cbn. left. reflexivity.
  - cbn. left. reflexivity.
  - reflexivity.
Defined.

(** [get_date_input] takes the text that the program itself shows for a
    date ([strftime('%d-%m-%Y')], four-digit years) and returns that
    date, consuming the one line. *)
Lemma get_date_input_acepta_lo_mostrado (w : Mundo) (d : date) (resto : list string) :
  fecha_valida d -> 1000 <= year d ->
  stdin w = strftime_dmY d :: resto ->
  UIUtils.get_date_input w = (Ret d, con_stdin resto w).
Proof.
  intros Hv _ Hin. unfold UIUtils.get_date_input. rewrite Hin.
  cbn [UIUtils.get_date_input_desde].
  rewrite strip_strftime_dmY, strptime_strftime_dmY by assumption. reflexivity.
Qed.

Lemma get_date_input_acepta_lo_mostrado_witness :
  UIUtils.get_date_input (Sqlite3.connect base_vacia [] ["01-05-2024"; "x"])
  = (Ret (mkdate 2024 5 1),
     con_stdin ["x"] (Sqlite3.connect base_vacia [] ["01-05-2024"; "x"])).
Proof.
  apply (get_date_input_acepta_lo_mostrado
           (Sqlite3.connect base_vacia [] ["01-05-2024"; "x"]) (mkdate 2024 5 1) ["x"]).
  - reflexivity.
  - cbn. lia.
  - reflexivity.
Defined.



Lemma confirm_action_desde_salta (pre : list string) (l : string) (post : list string) :
  Forall (fun x => PyStr.lower (PyStr.strip x) <> "s" /\
                   PyStr.lower (PyStr.strip x) <> "n") pre ->
  PyStr.lower (PyStr.strip l) = "s" \/ PyStr.lower (PyStr.strip l) = "n" ->
  UIUtils.confirm_action_desde (pre ++ l :: post)
  = (Ret (String.eqb (PyStr.lower (PyStr.strip l)) "s"), post).
Proof.
  intros Hpre Hl. induction Hpre as [|x pre [Hs Hn] _ IH]; cbn.
  - destruct Hl as [-> | ->]; reflexivity.
  - apply String.eqb_neq in Hs, Hn. rewrite Hs, Hn. exact IH.
Qed.



(** [Consulta.__init__] on the ISO text of a valid date (four-digit
    years) builds the same object as on the date itself. *)
Lemma Consulta_init_iso (d : date) (motivo diagnostico : string)
    (mascota_id id : option Z) (mascota_nombre : option string) :
  fecha_valida d -> 1000 <= year d ->
  Consulta_init (FechaStr (strftime_Ymd d)) motivo diagnostico mascota_id id mascota_nombre
  = Consulta_init (FechaDate d) motivo diagnostico mascota_id id mascota_nombre.
Proof.
  intros Hv _. unfold Consulta_init. rewrite strptime_strftime_Ymd by assumption.
  reflexivity.
Qed.

Lemma Consulta_init_iso_witness :
  Consulta_init (FechaStr "2024-05-01") "checkup" "healthy" (Some 1) None None
  = Consulta_init (FechaDate (mkdate 2024 5 1)) "checkup" "healthy" (Some 1) None None.
Proof.
  apply (Consulta_init_iso (mkdate 2024 5 1) "checkup" "healthy" (Some 1) None None).
  - reflexivity.
  - cbn. lia.
Defined.

(** ** Worked instances: the workflows and [main] *)


Lemma registrar_consulta_guarda_witness :
  let w' := snd (registrar_consulta
                   (sesion base_escenario false [] []
                      ["1"; " 15-10-2024 "; "vacuna"; "sano"; "12"])) in
  consultas (db w')
  = (consultas base_escenario
     ++ [mkFilaConsulta 2 "2024-10-15" "vacuna" "sano" (Some 1)])%list /\
  propietarios (db w') = propietarios base_escenario /\
  mascotas (db w') = mascotas base_escenario /\
  confirmada w' = db w' /\ stdin w' = ["12"] /\
  fst (get_consulta_by_id (Some 2) w')
  = Ret (Some (mkConsulta (Some 2) (mkdate 2024 10 15) "vacuna" "sano" (Some 1)
                 (Some "Rex"))).
Proof.
  cbv zeta.
  apply (registrar_consulta_guarda base_escenario false [] ["12"]
           "1" " 15-10-2024 " "vacuna" "sano"
           (mkFilaMascota 1 "Rex" "dog" "lab" 3 (Some 1))
           (mkFilaPropietario 1 "Ana" "555-1111" "Calle 1")
           (mkdate 2024 10 15)).
  - cbn. claves_distintas.
  - cbn. claves_distintas.
  - cbn. claves_distintas.
  - cbn. left. reflexivity.
  - cbn. left. reflexivity.
  - reflexivity.
  - reflexivity.
  - reflexivity.
  - cbn. lia.
  - vm_compute. reflexivity.
Defined.

Lemma registrar_consulta_sin_huerfanas_witness :
  let w := Sqlite3.connect base_escenario [] ["1"; "15-10-2024"; "vacuna"; "sano"] in
  let c := mkFilaConsulta 2 "2024-10-15" "vacuna" "sano" (Some 1) in
  In c (consultas (db (snd (registrar_consulta w)))) /\
  (In c (consultas (db w)) \/
   exists m o, In m (mascotas (db w)) /\ In o (propietarios (db w)) /\
               fm_id_propietario m = Some (fp_id o) /\
               fc_id_mascota c = Some (fm_id m)).
Proof.
  cbv zeta.
  assert (Hin : In (mkFilaConsulta 2 "2024-10-15" "vacuna" "sano" (Some 1))
                  (consultas (db (snd (registrar_consulta
                     (Sqlite3.connect base_escenario []
                        ["1"; "15-10-2024"; "vacuna"; "sano"])))))).
  { vm_compute. right. left. reflexivity. }
  split; [exact Hin|].
  apply (registrar_consulta_sin_huerfanas
           (Sqlite3.connect base_escenario [] ["1"; "15-10-2024"; "vacuna"; "sano"])
           (mkFilaConsulta 2 "2024-10-15" "vacuna" "sano" (Some 1))).
  - reflexivity.
  - exact Hin.
Defined.

Lemma registrar_mascota_con_propietario_witness :
  let w := Sqlite3.connect base_vacia []
             ["Rex"; "dog"; "lab"; "3"; "Ana"; "s"; "Ana"; "555-1111"; "Calle 1"] in
  let m := mkFilaMascota 1 "Rex" "dog" "lab" 3 (Some 1) in
  In m (mascotas (db (snd (registrar_mascota w)))) /\
  (In m (mascotas (db w)) \/
   exists o, In o (propietarios (db (snd (registrar_mascota w)))) /\
             fm_id_propietario m = Some (fp_id o)).
Proof.
  cbv zeta.
  assert (Hin : In (mkFilaMascota 1 "Rex" "dog" "lab" 3 (Some 1))
                  (mascotas (db (snd (registrar_mascota
                     (Sqlite3.connect base_vacia []
                        ["Rex"; "dog"; "lab"; "3"; "Ana"; "s"; "Ana"; "555-1111";
                         "Calle 1"])))))).
  { vm_compute. left. reflexivity. }
  split; [exact Hin|].
  apply (registrar_mascota_con_propietario
           (Sqlite3.connect base_vacia []
              ["Rex"; "dog"; "lab"; "3"; "Ana"; "s"; "Ana"; "555-1111"; "Calle 1"])
           (mkFilaMascota 1 "Rex" "dog" "lab" 3 (Some 1))).
  - reflexivity.
  - exact Hin.
Defined.

Lemma alcanzable_claves_unicas_witness :
  alcanzable mundo_registro /\ claves_unicas (db mundo_registro).
Proof.
  split; [exact alcanzable_mundo_registro|].
  exact (alcanzable_claves_unicas mundo_registro alcanzable_mundo_registro).
Defined.

Lemma mundo_sesion_sano : mundo_sano mundo_sesion.
Proof. apply alcanzable_sano. apply alc_inicio. Qed.

Lemma mundo_sesion_ordenado : almacen_ordenado mundo_sesion.
Proof. apply alcanzable_ordenado. apply alc_inicio. Qed.



(** ** Updates that keep what is there *)





Lemma actualizar_propietario_rechaza_witness :
  let w := Sqlite3.connect base_dos_propietarios [] ["2"; " ana "; "555-0000"; ""] in
  let w1 := snd (_get_propietario w) in
  let w2 := snd (get_propietario_by_nombre "ana" (con_stdin ["555-0000"; ""] w1)) in
  actualizar_propietario w = (Ret tt, w2) /\
  db w2 = db w1 /\
  sql_log w2 = SELECT_propietarios_LIKE (PyStr.strip " ana ") :: sql_log w1.
Proof.
  cbv zeta.
  apply (actualizar_propietario_rechaza
           (Sqlite3.connect base_dos_propietarios [] ["2"; " ana "; "555-0000"; ""])
           (snd (_get_propietario
                   (Sqlite3.connect base_dos_propietarios []
                      ["2"; " ana "; "555-0000"; ""])))
           (snd (get_propietario_by_nombre "ana"
                   (con_stdin ["555-0000"; ""]
                      (snd (_get_propietario
                              (Sqlite3.connect base_dos_propietarios []
                                 ["2"; " ana "; "555-0000"; ""]))))))
           (mkPropietario (Some 2) "Bob" "555-2222" "Calle 2")
           (mkPropietario (Some 1) "Ana" "555-1111" "Calle 1")
           " ana " ["555-0000"; ""]).
  - vm_compute. reflexivity.
  - vm_compute. reflexivity.
  - vm_compute. reflexivity.
  - vm_compute. reflexivity.
  - reflexivity.
Defined.

(** ** Ids are not given out twice *)

Lemma max_rowid_filter {A : Type} (ida : A -> Z) (g : A -> bool) (l : list A) :
  max_rowid (map ida (filter g l)) <= max_rowid (map ida l).
Proof.
  unfold max_rowid. induction l as [|a l IH]; cbn; [lia|].
  destruct (g a); cbn; lia.
Qed.

(** In a store the program has reached, on a connection without faults:
    after an owner is deleted, the next owner inserted gets an id above
    the id of the deleted one and above every id in the table
    (AUTOINCREMENT: an id is never given out twice). *)
Lemma id_de_propietario_no_se_reutiliza (w : Mundo) (log : list sentencia)
    (t : list string) (r : FilaPropietario) (p : Propietario) :
  alcanzable w ->
  In r (propietarios (db w)) ->
  (forall x, In x (propietarios (db w)) -> fp_id x <> fp_id r ->
             fp_nombre x <> p_nombre p) ->
  Z.max (seq_propietarios (db w)) (max_rowid (map fp_id (propietarios (db w)))) < MAX_ROWID ->
  let w1 := snd (delete_propietario (Some (fp_id r)) (sesion (db w) false [] log t)) in
  exists id,
    fst (insert_propietario p w1)
    = Ret (Some (mkPropietario (Some id) (p_nombre p) (p_telefono p) (p_direccion p))) /\
    fp_id r < id /\
    forall x, In x (propietarios (db w)) -> fp_id x < id.
Proof.
  intros Hw Hr Hnombre Hmax. cbv zeta.
  destruct (alcanzable_secuencia w Hw) as (Hseq & _).
  set (b := db w) in *.
  set (quedan := filter (fun x => negb (ref_eqb (Some (fp_id r)) (fp_id x)))
                        (propietarios b)).
  assert (E : delete_propietario (Some (fp_id r)) (sesion b false [] log t)
              = (Ret true,
                 sesion (mkBaseDatos quedan (mascotas b) (consultas b)
                           (seq_propietarios b) (seq_mascotas b) (seq_consultas b))
                        false [] (DELETE_propietarios (Some (fp_id r)) :: log) t)).
  { unfold delete_propietario, execute_DELETE_propietarios, sesion. desplegar. unfold falla.
    cbn [fallos db confirmada foreign_keys sql_log con_sql_log con_db con_confirmada
         fst snd].
    destruct (filter_no_vacio (fun x => ref_eqb (Some (fp_id r)) (fp_id x)) _ r Hr)
      as [y [resto [-> _]]]; [cbn; apply Z.eqb_refl|].
    reflexivity. }
  rewrite E. cbn [snd].
  exists (Z.max (seq_propietarios b) (max_rowid (map fp_id quedan)) + 1).
  split; [|split].
  - unfold insert_propietario, execute_INSERT_propietarios, sesion. desplegar. unfold falla.
    cbn [fallos db confirmada sql_log con_sql_log con_db con_confirmada fst snd
         seq_propietarios propietarios].
    rewrite nuevo_rowid_disponible.
    + rewrite nombre_en_false; [reflexivity|].
      intros x Hx. apply filter_In in Hx. destruct Hx as [Hx Hid]. cbn in Hid.
      apply negb_true_iff, Z.eqb_neq in Hid. apply Hnombre; auto.
    + pose proof (max_rowid_filter fp_id
                    (fun x => negb (ref_eqb (Some (fp_id r)) (fp_id x))) (propietarios b)).
      fold quedan in H. lia.
  - specialize (Hseq r Hr). lia.
  - intros x Hx. specialize (Hseq x Hx). lia.
Qed.

Lemma id_de_propietario_no_se_reutiliza_witness :
  let w1 := snd (delete_propietario (Some 1) (sesion (db mundo_registro) false [] [] [])) in
  exists id,
    fst (insert_propietario (Propietario_init "Ana" "555-3333" "Calle 3" None) w1)
    = Ret (Some (mkPropietario (Some id) "Ana" "555-3333" "Calle 3")) /\
    1 < id /\
    forall x, In x (propietarios (db mundo_registro)) -> fp_id x < id.
Proof.
  cbv zeta.
  apply (id_de_propietario_no_se_reutiliza mundo_registro [] []
           (mkFilaPropietario 1 "Ana" "555-1111" "Calle 1")
           (Propietario_init "Ana" "555-3333" "Calle 3" None)).
  - exact alcanzable_mundo_registro.
  - vm_compute. left. reflexivity.
  - vm_compute. intros x [<- | []] H. exfalso. apply H. reflexivity.
  - vm_compute. reflexivity.
Defined.
